(** * rhouse_adf: the bronze -> silver ETL pipeline of the function app

    A shallow embedding of [function_app.py],
    [tarnsformations/transformation_utils.py] and
    [utilities/common_utils.py].

    - Python values that may be [None] are [option]s.
    - A Python call that may raise is a value of [py]: [Ok v] or
      [Raise e].
    - SQL tables are lists of records, in insertion order; a SQL
      [WHERE] clause is a boolean function used with [List.filter].
    - A psycopg2 connection is a pair of databases: what is committed
      and what the open transaction sees. A stage starts on a
      connection that is already established; logging is left out.
    - [datetime.now()] and [datetime.today()] are inputs of a run.
    - A Python string is held as its UTF-8 encoding. *)

From Stdlib Require Import ZArith QArith Qround List Bool Lia Permutation Sorted.
From stdpp Require Import base option strings pretty gmap.
Import ListNotations.

Local Close Scope Q_scope.
Local Open Scope string_scope.
Local Open Scope Z_scope.

(** ** Python results *)

Inductive exn : Type :=
| TypeError (msg : string)
| AttributeError (msg : string)
| DbError (msg : string)
| Wrapped (inner : exn).

Inductive py (A : Type) : Type :=
| Ok (a : A)
| Raise (e : exn).
Arguments Ok {A} a.
Arguments Raise {A} e.

Definition py_bind {A B} (m : py A) (k : A -> py B) : py B :=
  match m with
  | Ok a => k a
  | Raise e => Raise e
  end.

Notation "'let!' x ':=' m 'in' k" := (py_bind m (fun x => k))
  (at level 10, x name, m at level 100, k at level 200).

(** [try: body  except Exception as err: raise Exception(err)] *)
Definition reraise {A} (m : py A) : py A :=
  match m with
  | Ok a => Ok a
  | Raise e => Raise (Wrapped e)
  end.

(** [x > 0] on a value that may be [None]: Python 3 raises [TypeError]
    when an operand is [None]. *)
Definition gt0 (x : option Z) : py bool :=
  match x with
  | Some v => Ok (0 <? v)
  | None => Raise (TypeError "'>' not supported between instances of 'NoneType' and 'int'")
  end.

(** Truth value of an optional string argument: [None] and the empty
    string are false. *)
Definition truthy_str (s : option string) : bool :=
  match s with
  | Some s => negb (String.eqb s "")
  | None => false
  end.

(** ** External enrichment: event selection *)

Module Enrich.

(** One entry of [events_list], built in
    [api_info_extract_load_brnx_prc] from the event-history response.
    [event_date] is the parsed date as a day number; [price] is the
    JSON number, or [None] for a JSON null. *)
Record event : Type := mk_event {
  PROP_ACTY_STATUS_CD : string;
  PROP_ACTY_SUB_STATUS_CD : string;
  event_date : Z;
  entity_owner_name : option string;
  price : option Z
}.

(** [event["PROP_ACTY_STATUS_CD"] == ty and
     event["PROP_ACTY_SUB_STATUS_CD"] == name] *)
Definition matches (ty name : string) (ev : event) : bool :=
  String.eqb (PROP_ACTY_STATUS_CD ev) ty && String.eqb (PROP_ACTY_SUB_STATUS_CD ev) name.

(** [fallback_type and fallback_name and event[...] == fallback_type
     and event[...] == fallback_name] *)
Definition matches_fallback (fallback_type fallback_name : option string) (ev : event) : bool :=
  truthy_str fallback_type && truthy_str fallback_name &&
  match fallback_type, fallback_name with
  | Some ty, Some name => matches ty name ev
  | _, _ => false
  end.

(** [sorted(events, key=lambda x: x["event_date"], reverse=True)]:
    a stable sort, most recent first; events of the same date keep the
    order they have in [events]. *)
Fixpoint insert_desc (ev : event) (l : list event) : list event :=
  match l with
  | [] => [ev]
  | x :: rest =>
      if event_date ev <? event_date x then x :: insert_desc ev rest
      else ev :: x :: rest
  end.

Fixpoint sorted_desc (events : list event) : list event :=
  match events with
  | [] => []
  | ev :: rest => insert_desc ev (sorted_desc rest)
  end.

(** The last line of [get_valid_event]:
    [primary_event if primary_event and primary_event["price"] > 0
     and primary_event["price"] is not None else fallback_event] *)
Definition final_choice (primary_event fallback_event : option event) : py (option event) :=
  match primary_event with
  | None => Ok fallback_event
  | Some pe =>
      let! pos := gt0 (price pe) in
      if pos && bool_decide (price pe <> None) then Ok (Some pe) else Ok fallback_event
  end.

(** The [for] loop of [get_valid_event] over the sorted events, with
    the two local variables as accumulators. *)
Fixpoint scan (primary_type primary_name : string)
    (fallback_type fallback_name : option string)
    (evs : list event) (primary_event fallback_event : option event) : py (option event) :=
  match evs with
  | [] => final_choice primary_event fallback_event
  | ev :: rest =>
      if matches primary_type primary_name ev then
        let! pos := gt0 (price ev) in
        if pos then Ok (Some ev)
        else scan primary_type primary_name fallback_type fallback_name rest (Some ev) fallback_event
      else if matches_fallback fallback_type fallback_name ev then
        scan primary_type primary_name fallback_type fallback_name rest primary_event (Some ev)
      else
        scan primary_type primary_name fallback_type fallback_name rest primary_event fallback_event
  end.

Definition get_valid_event (events : list event) (primary_type primary_name : string)
    (fallback_type fallback_name : option string) : py (option event) :=
  scan primary_type primary_name fallback_type fallback_name (sorted_desc events) None None.

(** A price the selection can use: present and positive. *)
Definition usable (ev : event) : bool :=
  match price ev with
  | Some p => 0 <? p
  | None => false
  end.

(** What the loop leaves in [fallback_event] after a scan that never
    returns early: the last event of the scan that matches the fallback
    pair and not the primary pair. *)
Fixpoint last_fallback (primary_type primary_name : string)
    (fallback_type fallback_name : option string)
    (evs : list event) (fallback_event : option event) : option event :=
  match evs with
  | [] => fallback_event
  | ev :: rest =>
      last_fallback primary_type primary_name fallback_type fallback_name rest
        (if matches primary_type primary_name ev then fallback_event
         else if matches_fallback fallback_type fallback_name ev then Some ev
         else fallback_event)
  end.

(** Most recent first. *)
Definition descending (l : list event) : Prop :=
  StronglySorted (fun a b => event_date b <= event_date a) l.

(** [ev] is a most recent event of [events] among those that match
    the primary pair with a usable price. *)
Definition latest_usable_primary (events : list event) (primary_type primary_name : string)
    (ev : event) : Prop :=
  In ev events /\ matches primary_type primary_name ev = true /\ usable ev = true /\
  forall ev', In ev' events -> matches primary_type primary_name ev' = true ->
              usable ev' = true -> event_date ev' <= event_date ev.

(** Every event that matches the primary pair carries a price. *)
Definition primary_priced (events : list event) (primary_type primary_name : string) : Prop :=
  forall ev, In ev events -> matches primary_type primary_name ev = true -> price ev <> None.

(** No event matches the primary pair with a usable price. *)
Definition no_usable_primary (events : list event) (primary_type primary_name : string) : Prop :=
  forall ev, In ev events -> matches primary_type primary_name ev = true -> usable ev = false.

(** The events of the scenario: a sale at price 0 and a pending
    listing at 150000. *)
Definition sold_at_zero (d : Z) (owner : option string) : event :=
  mk_event "SALE" "SOLD" d owner (Some 0).

Definition pending_sale (d : Z) (owner : option string) : event :=
  mk_event "LISTING" "PENDING_SALE" d owner (Some 150000).

(** The selection rule in the words of the specification, for
    comparison with [get_valid_event]. *)

Definition spec_select (events : list event) (primary_type primary_name : string)
    (fallback_type fallback_name : string) : option event :=
  let p := List.find (matches primary_type primary_name) (sorted_desc events) in
  let s := List.find (matches fallback_type fallback_name) (sorted_desc events) in
  match p with
  | Some pe =>
      if usable pe then Some pe
      else match s with
           | Some se => if usable se then Some se else Some pe
           | None => Some pe
           end
  | None => s
  end.

End Enrich.

(** ** SQL values and aggregates *)

Module Sql.

(** A calendar date, compared field by field. *)
Record date : Type := mk_date { year : Z; month : Z; day : Z }.

Definition date_leb (a b : date) : bool :=
  (year a <? year b) ||
  ((year a =? year b) &&
   ((month a <? month b) || ((month a =? month b) && (day a <=? day b)))).

Definition date_eqb (a b : date) : bool :=
  (year a =? year b) && (month a =? month b) && (day a =? day b).

Definition date_ltb (a b : date) : bool := date_leb a b && negb (date_eqb a b).

Definition is_leap (y : Z) : bool :=
  ((y mod 4 =? 0) && negb (y mod 100 =? 0)) || (y mod 400 =? 0).

Definition days_in_month (y m : Z) : Z :=
  if m =? 2 then (if is_leap y then 29 else 28)
  else if (m =? 4) || (m =? 6) || (m =? 9) || (m =? 11) then 30
  else 31.

(** [CURRENT_DATE - INTERVAL '12 months']: the same month and day one
    year earlier, the day clamped to the length of that month. *)
Definition minus_12_months (d : date) : date :=
  {| year := year d - 1;
     month := month d;
     day := Z.min (day d) (days_in_month (year d - 1) (month d)) |}.

(** [MAX(col)] over a column that may hold NULLs: NULLs are skipped and
    the result is NULL when nothing is left. *)
Fixpoint sql_max (l : list (option Z)) : option Z :=
  match l with
  | [] => None
  | None :: rest => sql_max rest
  | Some x :: rest =>
      match sql_max rest with
      | None => Some x
      | Some m => Some (Z.max x m)
      end
  end.

Fixpoint sql_min (l : list (option Z)) : option Z :=
  match l with
  | [] => None
  | None :: rest => sql_min rest
  | Some x :: rest =>
      match sql_min rest with
      | None => Some x
      | Some m => Some (Z.min x m)
      end
  end.

(** [m] is the largest non-NULL value of the column, or [default]
    when the column has none. *)
Definition max_or (default : Z) (column : list (option Z)) (m : Z) : Prop :=
  (forall x, In (Some x) column -> x <= m) /\
  ((exists x, In (Some x) column) -> In (Some m) column) /\
  ((forall x, ~ In (Some x) column) -> m = default).

(** [m] is the smallest non-NULL value of the column. *)
Definition min_of (column : list (option Z)) (m : Z) : Prop :=
  In (Some m) column /\ forall x, In (Some x) column -> m <= x.

(** [COALESCE(x, d)] *)
Definition coalesce {A} (x : option A) (d : A) : A :=
  match x with
  | Some v => v
  | None => d
  end.

(** [col IS NOT NULL] *)
Definition not_null {A} (x : option A) : bool :=
  match x with
  | Some _ => true
  | None => false
  end.

(** [col = v] on a nullable text column: never true on NULL. *)
Definition eq_text (x : option string) (v : string) : bool :=
  match x with
  | Some s => String.eqb s v
  | None => false
  end.

(** [ORDER BY key ASC], stable. *)
Fixpoint insert_asc {A} (key : A -> Z) (a : A) (l : list A) : list A :=
  match l with
  | [] => [a]
  | x :: rest =>
      if key x <? key a then x :: insert_asc key a rest
      else a :: x :: rest
  end.

Fixpoint order_by_asc {A} (key : A -> Z) (l : list A) : list A :=
  match l with
  | [] => []
  | a :: rest => insert_asc key a (order_by_asc key rest)
  end.

(** The declared type of a numeric column decides what [/] does in
    [FLOOR(min(col) / 10) * 10]: on an [integer] column the division
    truncates toward zero before [FLOOR] sees it, on a [numeric] column
    the quotient is exact and [FLOOR] rounds it down. The table
    declarations are not part of the sources, so the type is a
    parameter of the aggregation. *)
Inductive coltype : Type := IntegerCol | NumericCol.

Definition floor_div10_times10 (ty : coltype) (x : Z) : Z :=
  match ty with
  | IntegerCol => Z.quot x 10 * 10
  | NumericCol => (x / 10) * 10
  end.

End Sql.

(** ** Tables *)

(** [lookups.adf_load_tracker]: the watermark registry, one row per
    advance. [bnz_prps_upd] writes whatever the request carries, so the
    timestamp and the generation may be NULL. Timestamps are seconds
    since 1970-01-01 00:00:00. *)
Module Tracker.
Record row : Type := mk_row {
  tbl_id : Z;
  tbl_nm : string;
  last_loaded_ts : option Z;
  etl_nr : option Z
}.
End Tracker.

(** [bronze.brnz_prps_prop_sales_dtl]: the raw sales facts. *)
Module Brnz.
Record row : Type := mk_row {
  brnz_prps_prop_sales_dtl_sk : Z;
  etl_nr : Z;
  etl_recorded_gmts : Z;
  investor_company_nm_txt : option string;
  prop_attr_br_cnt : option Z;
  prop_attr_bth_cnt : option Q;
  prop_last_sale_amt : option Z;
  prop_last_sale_dt : option Sql.date;
  prop_yr_blt_nr : option Z;
  prop_attr_sqft_nr : option Z;
  prop_zip_cd : option string;
  prop_tlt_cnd_nm : option string;
  prop_int_cnd_nm : option string;
  prop_ext_cnd_nm : option string;
  prop_bth_cnd_nm : option string;
  prop_kth_cnd_nm : option string;
  prop_list_price_amt : option Z;
  prop_address_line_txt : option string;
  prop_city_nm : option string;
  prop_state_nm : option string;
  prop_cnty_nm : option string
}.
End Brnz.

(** The five condition columns and the five quality levels, in the
    order of [condition_keys] and [condition_types]. *)
Inductive condition_key : Type :=
  prop_tlt_cnd_nm | prop_int_cnd_nm | prop_ext_cnd_nm | prop_bth_cnd_nm | prop_kth_cnd_nm.

Inductive condition_type : Type := Good | Average | Disrepair | Excellent | Poor.

Definition condition_keys : list condition_key :=
  [prop_tlt_cnd_nm; prop_int_cnd_nm; prop_ext_cnd_nm; prop_bth_cnd_nm; prop_kth_cnd_nm].

Definition condition_types : list condition_type := [Good; Average; Disrepair; Excellent; Poor].

Definition condition_type_name (c : condition_type) : string :=
  match c with
  | Good => "Good" | Average => "Average" | Disrepair => "Disrepair"
  | Excellent => "Excellent" | Poor => "Poor"
  end.

Definition condition_column (k : condition_key) (r : Brnz.row) : option string :=
  match k with
  | prop_tlt_cnd_nm => Brnz.prop_tlt_cnd_nm r
  | prop_int_cnd_nm => Brnz.prop_int_cnd_nm r
  | prop_ext_cnd_nm => Brnz.prop_ext_cnd_nm r
  | prop_bth_cnd_nm => Brnz.prop_bth_cnd_nm r
  | prop_kth_cnd_nm => Brnz.prop_kth_cnd_nm r
  end.

(** One row of the aggregation query of [process_slv_int_inv]:
    columns 0 to 9 by name, columns 10 to 34 (the 25 tallies) as a
    table indexed by condition column and quality level. *)
Module Agg.
Record row : Type := mk_row {
  investor_company_nm_txt : string;
  num_properties : Z;
  active_flag : Z;
  min_prop_attr_br_cnt : Z;
  min_prop_attr_bth_cnt : Z;
  mx_props_amnt : Z;
  min_props_amnt : Z;
  min_years : Z;
  min_sqft : Z;
  list_zips : list string;
  tally : condition_key -> condition_type -> Z
}.
End Agg.

(** [silver.slvr_int_inv_dtl]: investor profiles, one version per
    generation. *)
Module Inv.
Record profile : Type := mk_profile {
  min_prop_attr_br_cnt : Z;
  min_prop_attr_bth_cnt : Z;
  mx_props_amnt : Z;
  min_props_amnt : Z;
  min_year : Z;
  min_sqft : Z;
  list_zips : list string;
  conditions : list (condition_key * list (condition_type * Z))
}.

Record row : Type := mk_row {
  slvr_int_inv_dtl_sk : Z;
  load_date_dt : Sql.date;
  etl_nr : Z;
  etl_reorded_gmts : Z;
  record_inserted_ts : Z;
  active_flg : bool;
  investor_company_nm_txt : string;
  investor_profile : profile;
  num_prop_purchased_lst_12_mths_nr : Z;
  active_rec_ind : bool
}.
End Inv.

(** [silver.slvr_int_prop_sales_dlt]: sale events per address. *)
Module Sale.
Record row : Type := mk_row {
  slvr_int_prop_dtl_sk : Z;
  slvr_int_prop_fk : option Z;
  load_date_dt : Sql.date;
  etl_nr : Z;
  etl_recorded_gmts : Z;
  record_inserted_ts : Z;
  prop_sale_dt : option Sql.date;
  prop_sale_amt : option Z;
  prop_tlt_cnd_nm : option string;
  prop_int_cnd_nm : option string;
  prop_ext_cnd_nm : option string;
  prop_bth_cnd_nm : option string;
  prop_kth_cnd_nm : option string;
  prop_list_price_amt : option Z;
  latest_record_ind : bool;
  usraddr : option string
}.
End Sale.

(** The database, and a connection to it: [committed] is what survives
    the connection, [working] is what the open transaction sees. *)
Record db : Type := mk_db {
  adf_load_tracker : list Tracker.row;
  brnz_prps_prop_sales_dtl : list Brnz.row;
  slvr_int_inv_dtl : list Inv.row;
  slvr_int_prop_sales_dlt : list Sale.row
}.

Record connection : Type := mk_conn { committed : db; working : db }.

(** ** Running a stage against a connection *)

(** What a run depends on besides the database: the clock
    ([datetime.today().date()] and [datetime.now()], read as one
    instant per run), the declared types of the two bucketed columns,
    and which database calls fail: [faulty n] says that the [n]-th call
    of the run ([cursor.execute] or [conn.commit], counted from 0)
    raises instead of taking effect. *)
Record environment : Type := mk_env {
  today : Sql.date;
  now : Z;
  yr_blt_type : Sql.coltype;
  sqft_type : Sql.coltype;
  faulty : nat -> bool
}.

Record world : Type := mk_world { conn : connection; calls : nat }.

(** A stage: reads the environment, threads the connection, may raise. *)
Definition M (A : Type) : Type := environment -> world -> py A * world.

Definition ret {A} (a : A) : M A := fun _ w => (Ok a, w).

Definition bind {A B} (m : M A) (k : A -> M B) : M B :=
  fun env w =>
    match m env w with
    | (Ok a, w') => k a env w'
    | (Raise e, w') => (Raise e, w')
    end.

Notation "'let*' x ':=' m 'in' k" := (bind m (fun x => k))
  (at level 10, x name, m at level 100, k at level 200).

Definition throw {A} (e : exn) : M A := fun _ w => (Raise e, w).

Definition ask : M environment := fun env w => (Ok env, w).

(** [try: body  except Exception as err: raise Exception(err)] *)
Definition rewrap {A} (m : M A) : M A :=
  fun env w => let '(r, w') := m env w in (reraise r, w').

Definition call_failed : exn := DbError "database call failed".

Definition db_call {A} (effect : connection -> A * connection) : M A :=
  fun env w =>
    if faulty env (calls w) then
      (Raise call_failed, mk_world (conn w) (S (calls w)))
    else
      let '(a, c) := effect (conn w) in (Ok a, mk_world c (S (calls w))).

(** [cursor.execute(stmt, params)] for an UPDATE or INSERT: changes
    what the open transaction sees. *)
Definition execute (stmt : db -> db) : M unit :=
  db_call (fun c => (tt, mk_conn (committed c) (stmt (working c)))).

(** [cursor.execute(query); cursor.fetchall()] *)
Definition fetch {A} (query : db -> A) : M A :=
  db_call (fun c => (query (working c), c)).

(** [conn.commit()] *)
Definition commit : M unit :=
  db_call (fun c => (tt, mk_conn (working c) (working c))).

(** What the database holds once the connection is gone: uncommitted
    work of the open transaction is rolled back. *)
Definition durable (w : world) : db := committed (conn w).

(** A fresh connection on a database. *)
Definition connect (d : db) : world := mk_world (mk_conn d d) 0.

(** ** utilities/common_utils.py *)

Definition epoch : Z := 0.

(** [ExecPostgress.return_query_res]: returns [(result, None)]. *)
Definition return_query_res {A} (query : db -> A) : M (A * option string) :=
  rewrap (let* result := fetch query in ret (result, None)).

Definition tracker_rows_of (tbl_name : string) (d : db) : list Tracker.row :=
  List.filter (fun r => String.eqb (Tracker.tbl_nm r) tbl_name) (adf_load_tracker d).

(** The query of [get_last_etl_ts]. *)
Definition last_etl_ts_query (tbl_name : string) (d : db) : Z * Z :=
  (Sql.coalesce (Sql.sql_max (map Tracker.last_loaded_ts (tracker_rows_of tbl_name d))) epoch,
   Sql.coalesce (Sql.sql_max (map Tracker.etl_nr (tracker_rows_of tbl_name d))) 0).

Definition get_last_etl_ts (tbl_name : string) : M (Z * Z) :=
  rewrap (
    let* result := fetch (last_etl_ts_query tbl_name) in
    let '(lst_ts, etl_nr) := result in
    ret (lst_ts, etl_nr)).

Definition insert_tracker (r : Tracker.row) (d : db) : db :=
  mk_db (adf_load_tracker d ++ [r]) (brnz_prps_prop_sales_dtl d)
        (slvr_int_inv_dtl d) (slvr_int_prop_sales_dlt d).

(** [ExecPostgress.upd_lookup_tbl] *)
Definition upd_lookup_tbl (pipeline_nm : string) (etl_reorded_gmts etl_nr : option Z) : M unit :=
  rewrap (
    let* res := return_query_res
                  (fun d => Sql.sql_max (map (fun r => Some (Tracker.tbl_id r)) (adf_load_tracker d))) in
    let '(mx_id, msg) := res in
    let* _ := match msg with
              | Some m => throw (DbError m)
              | None => ret tt
              end in
    let mx_id := match mx_id with None => 0 | Some v => v end in
    let mx_id := mx_id + 1 in
    let* _ := execute (insert_tracker (Tracker.mk_row mx_id pipeline_nm etl_reorded_gmts etl_nr)) in
    commit).

(** [ExecPostgress.end_process]: closing the connection drops whatever
    the open transaction had not committed. *)
Definition end_process : M unit :=
  rewrap (fun _ w => (Ok tt, mk_world (mk_conn (committed (conn w)) (committed (conn w))) (calls w))).

(** ** Aggregation stage: [process_slv_int_inv] *)

(** The [WHERE] clause of the aggregation query. *)
Definition in_trailing_12_months (today : Sql.date) (r : Brnz.row) : bool :=
  match Brnz.prop_last_sale_dt r with
  | Some d => Sql.date_leb d today && Sql.date_leb (Sql.minus_12_months today) d
  | None => false
  end.

Definition required_not_null (r : Brnz.row) : bool :=
  Sql.not_null (Brnz.investor_company_nm_txt r) &&
  Sql.not_null (Brnz.prop_attr_br_cnt r) &&
  Sql.not_null (Brnz.prop_attr_bth_cnt r) &&
  Sql.not_null (Brnz.prop_last_sale_amt r) &&
  Sql.not_null (Brnz.prop_yr_blt_nr r) &&
  Sql.not_null (Brnz.prop_attr_sqft_nr r) &&
  Sql.not_null (Brnz.prop_zip_cd r).

Definition where_clause (today : Sql.date) (r : Brnz.row) : bool :=
  in_trailing_12_months today r && required_not_null r.

(** The rows the aggregation runs on. *)
Definition aggregation_input (today : Sql.date) (d : db) : list Brnz.row :=
  List.filter (where_clause today) (brnz_prps_prop_sales_dtl d).

(** [GROUP BY investor_company_nm_txt]: the distinct names, and the
    rows of each. SQL does not fix the order of the groups; they are
    listed by first occurrence. *)
Definition group_names (rows : list Brnz.row) : list string :=
  remove_dups (omap Brnz.investor_company_nm_txt rows).

Definition group_rows (name : string) (rows : list Brnz.row) : list Brnz.row :=
  List.filter (fun r => Sql.eq_text (Brnz.investor_company_nm_txt r) name) rows.

Fixpoint q_min (l : list (option Q)) : option Q :=
  match l with
  | [] => None
  | None :: rest => q_min rest
  | Some x :: rest =>
      match q_min rest with
      | None => Some x
      | Some m => Some (if Qle_bool x m then x else m)
      end
  end.

(** [sum(case when col = 'Level' then 1 else 0 end)] *)
Definition tally_of (g : list Brnz.row) (k : condition_key) (c : condition_type) : Z :=
  Z.of_nat (length (List.filter (fun r => Sql.eq_text (condition_column k r) (condition_type_name c)) g)).

Fixpoint sum_Z (l : list Z) : Z :=
  match l with
  | [] => 0
  | x :: rest => x + sum_Z rest
  end.

(** [COUNT( * )] of a group. *)
Definition count_rows {A} (g : list A) : Z := Z.of_nat (length g).

(** [SUM(CASE WHEN COUNT( * ) >= 2 THEN 1 ELSE 0 END)
     OVER (PARTITION BY investor_company_nm_txt)]: the window runs over
    the grouped rows that carry the same name. *)
Definition active_flag_window (groups : list (string * list Brnz.row)) (name : string) : Z :=
  sum_Z (map (fun ng => if 2 <=? count_rows (snd ng) then 1 else 0)
             (List.filter (fun ng => String.eqb (fst ng) name) groups)).

(** The select list for one group. The [WHERE] clause keeps only rows
    whose aggregated columns are not NULL and a group is never empty,
    so no aggregate is NULL; [coalesce] only gives the columns their
    non-NULL type. *)
Definition aggregate_group (yr_ty sqft_ty : Sql.coltype)
    (groups : list (string * list Brnz.row)) (ng : string * list Brnz.row) : Agg.row :=
  let (name, g) := ng in
  {| Agg.investor_company_nm_txt := name;
     Agg.num_properties := count_rows g;
     Agg.active_flag := active_flag_window groups name;
     Agg.min_prop_attr_br_cnt := Sql.coalesce (Sql.sql_min (map Brnz.prop_attr_br_cnt g)) 0;
     Agg.min_prop_attr_bth_cnt :=
       Sql.coalesce (option_map Qfloor (q_min (map Brnz.prop_attr_bth_cnt g))) 0;
     Agg.mx_props_amnt := Sql.coalesce (Sql.sql_max (map Brnz.prop_last_sale_amt g)) 0;
     Agg.min_props_amnt := Sql.coalesce (Sql.sql_min (map Brnz.prop_last_sale_amt g)) 0;
     Agg.min_years :=
       Sql.floor_div10_times10 yr_ty (Sql.coalesce (Sql.sql_min (map Brnz.prop_yr_blt_nr g)) 0);
     Agg.min_sqft :=
       Sql.floor_div10_times10 sqft_ty (Sql.coalesce (Sql.sql_min (map Brnz.prop_attr_sqft_nr g)) 0);
     Agg.list_zips := remove_dups (omap Brnz.prop_zip_cd g);
     Agg.tally := tally_of g |}.

Definition grouped (rows : list Brnz.row) : list (string * list Brnz.row) :=
  map (fun name => (name, group_rows name rows)) (group_names rows).

(** The aggregation query of [process_slv_int_inv]. The watermark does
    not occur in it. *)
Definition aggregation_query (yr_ty sqft_ty : Sql.coltype) (today : Sql.date) (d : db) : list Agg.row :=
  let groups := grouped (aggregation_input today d) in
  map (aggregate_group yr_ty sqft_ty groups) groups.

(** The input of the aggregation as the specification words it:
    bounded by the watermark of the raw table as well. *)
Definition spec_aggregation_input (watermark : Z * Z) (today : Sql.date) (d : db) : list Brnz.row :=
  List.filter (fun r => (Brnz.etl_recorded_gmts r <=? fst watermark) &&
                        (Brnz.etl_nr r =? snd watermark) &&
                        where_clause today r)
              (brnz_prps_prop_sales_dtl d).

(** [SELECT COALESCE(MAX(slvr_int_inv_dtl_sk),0), COALESCE(MAX(etl_nr),0)
     FROM silver.slvr_int_inv_dtl] *)
Definition next_keys_query (d : db) : Z * Z :=
  (Sql.coalesce (Sql.sql_max (map (fun r => Some (Inv.slvr_int_inv_dtl_sk r)) (slvr_int_inv_dtl d))) 0,
   Sql.coalesce (Sql.sql_max (map (fun r => Some (Inv.etl_nr r)) (slvr_int_inv_dtl d))) 0).

(** ** SCD upsert of the investor table: [upsert_table] *)

(** [UPDATE silver.slvr_int_inv_dtl SET active_rec_ind = false
     WHERE etl_nr = %s] *)
Definition deactivate_row (prv_etl_nr : Z) (r : Inv.row) : Inv.row :=
  if Inv.etl_nr r =? prv_etl_nr then
    Inv.mk_row (Inv.slvr_int_inv_dtl_sk r) (Inv.load_date_dt r) (Inv.etl_nr r)
               (Inv.etl_reorded_gmts r) (Inv.record_inserted_ts r) (Inv.active_flg r)
               (Inv.investor_company_nm_txt r) (Inv.investor_profile r)
               (Inv.num_prop_purchased_lst_12_mths_nr r) false
  else r.

Definition upd_query (prv_etl_nr : Z) (d : db) : db :=
  mk_db (adf_load_tracker d) (brnz_prps_prop_sales_dtl d)
        (map (deactivate_row prv_etl_nr) (slvr_int_inv_dtl d)) (slvr_int_prop_sales_dlt d).

Definition insert_query (r : Inv.row) (d : db) : db :=
  mk_db (adf_load_tracker d) (brnz_prps_prop_sales_dtl d)
        (slvr_int_inv_dtl d ++ [r]) (slvr_int_prop_sales_dlt d).

(** The [investor_profile] dictionary built for one record. *)
Definition profile_of (row : Agg.row) : Inv.profile :=
  {| Inv.min_prop_attr_br_cnt := Agg.min_prop_attr_br_cnt row;
     Inv.min_prop_attr_bth_cnt := Agg.min_prop_attr_bth_cnt row;
     Inv.mx_props_amnt := Agg.mx_props_amnt row;
     Inv.min_props_amnt := Agg.min_props_amnt row;
     Inv.min_year := Agg.min_years row;
     Inv.min_sqft := Agg.min_sqft row;
     Inv.list_zips := Agg.list_zips row;
     Inv.conditions :=
       map (fun key => (key, map (fun condition => (condition, Agg.tally row key condition))
                                 condition_types))
           condition_keys |}.

(** The tuple inserted for one record. *)
Definition inv_row_of (env : environment) (slvr_int_inv_dtl_sk etl_nr : Z) (row : Agg.row) : Inv.row :=
  {| Inv.slvr_int_inv_dtl_sk := slvr_int_inv_dtl_sk;
     Inv.load_date_dt := today env;
     Inv.etl_nr := etl_nr;
     Inv.etl_reorded_gmts := now env;
     Inv.record_inserted_ts := now env;
     Inv.active_flg := negb (Agg.active_flag row =? 0);
     Inv.investor_company_nm_txt := Agg.investor_company_nm_txt row;
     Inv.investor_profile := profile_of row;
     Inv.num_prop_purchased_lst_12_mths_nr := Agg.num_properties row;
     Inv.active_rec_ind := true |}.

(** [for row in records: ...] *)
Fixpoint insert_records (records : list Agg.row) (slvr_int_inv_dtl_sk etl_nr : Z) : M unit :=
  match records with
  | [] => ret tt
  | row :: rest =>
      let slvr_int_inv_dtl_sk := slvr_int_inv_dtl_sk + 1 in
      let* env := ask in
      let* _ := execute (insert_query (inv_row_of env slvr_int_inv_dtl_sk etl_nr row)) in
      insert_records rest slvr_int_inv_dtl_sk etl_nr
  end.

Definition upsert_table (records : list Agg.row) (slv_pk etl_nr : Z) : M (Z * Z) :=
  rewrap (
    let prv_etl_nr := etl_nr in
    let etl_nr := etl_nr + 1 in
    let* env := ask in
    let etl_reorded_gmts := now env in
    let slvr_int_inv_dtl_sk := slv_pk in
    let* _ := execute (upd_query prv_etl_nr) in
    let* _ := commit in
    let* _ := insert_records records slvr_int_inv_dtl_sk etl_nr in
    let* _ := commit in
    ret (etl_reorded_gmts, etl_nr)).

Definition process_slv_int_inv : M unit :=
  rewrap (
    let* env := ask in
    let brnz_tlb := "pl_brnz_prps_prop_sales_dtl" in
    let* watermark := get_last_etl_ts brnz_tlb in
    let* res := return_query_res (aggregation_query (yr_blt_type env) (sqft_type env) (today env)) in
    let '(result_slvr_int_inv, message) := res in
    let* keys := return_query_res next_keys_query in
    let '(slv_pk, etl_nr) := fst keys in
    let* up := upsert_table result_slvr_int_inv slv_pk etl_nr in
    let '(etl_reorded_gmts, etl_nr) := up in
    let* _ := upd_lookup_tbl "silver_int_inv_dtl" (Some etl_reorded_gmts) (Some etl_nr) in
    end_process).

(** ** SCD upsert of the sales table: [prc_slv_int_prop_sls_dlt_pl] *)

(** One row of the query of [prc_slv_int_prop_sls_dlt_pl]: columns 0
    to 10 of the CTE and [latest_record_ind] as column 11. *)
Module SaleIn.
Record row : Type := mk_row {
  slvr_int_prop_fk : option Z;
  prop_sale_dt : option Sql.date;
  prop_sale_amt : option Z;
  prop_tlt_cnd_nm : option string;
  prop_int_cnd_nm : option string;
  prop_ext_cnd_nm : option string;
  prop_bth_cnd_nm : option string;
  prop_kth_cnd_nm : option string;
  prop_list_price_amt : option Z;
  usraddr : string;
  d_rank : Z;
  latest_record_ind : bool
}.
End SaleIn.

#[global] Instance date_eq_dec : EqDecision Sql.date.
Proof. solve_decision. Defined.

(** [CONCAT(PROP_ADDRESS_LINE_TXT,'/',PROP_CITY_NM,'/',PROP_STATE_NM,
     '/',PROP_CNTY_NM,'/',PROP_ZIP_CD)]: CONCAT reads a NULL argument
    as the empty string. *)
Definition usraddr_of (r : Brnz.row) : string :=
  Sql.coalesce (Brnz.prop_address_line_txt r) "" ++ "/" ++
  Sql.coalesce (Brnz.prop_city_nm r) "" ++ "/" ++
  Sql.coalesce (Brnz.prop_state_nm r) "" ++ "/" ++
  Sql.coalesce (Brnz.prop_cnty_nm r) "" ++ "/" ++
  Sql.coalesce (Brnz.prop_zip_cd r) "".

(** [ORDER BY PROP_LAST_SALE_DT DESC]: later dates first, NULLs before
    every date. [sorts_before a b] says that [a] comes strictly before
    [b]. *)
Definition sorts_before (a b : option Sql.date) : bool :=
  match a, b with
  | None, Some _ => true
  | Some x, Some y => Sql.date_ltb y x
  | _, None => false
  end.

(** [dense_rank() over (partition by usraddr order by
     PROP_LAST_SALE_DT desc)]: one more than the number of distinct
    sale dates of the partition that sort before the row's. *)
Definition dense_rank (rows : list Brnz.row) (r : Brnz.row) : Z :=
  let partition := List.filter (fun x => String.eqb (usraddr_of x) (usraddr_of r)) rows in
  let dates := map Brnz.prop_last_sale_dt partition in
  1 + Z.of_nat (length (remove_dups
        (List.filter (fun d => sorts_before d (Brnz.prop_last_sale_dt r)) dates))).

Definition sale_in_of (rows : list Brnz.row) (r : Brnz.row) : SaleIn.row :=
  {| SaleIn.slvr_int_prop_fk := None;
     SaleIn.prop_sale_dt := Brnz.prop_last_sale_dt r;
     SaleIn.prop_sale_amt := Brnz.prop_last_sale_amt r;
     SaleIn.prop_tlt_cnd_nm := Brnz.prop_tlt_cnd_nm r;
     SaleIn.prop_int_cnd_nm := Brnz.prop_int_cnd_nm r;
     SaleIn.prop_ext_cnd_nm := Brnz.prop_ext_cnd_nm r;
     SaleIn.prop_bth_cnd_nm := Brnz.prop_bth_cnd_nm r;
     SaleIn.prop_kth_cnd_nm := Brnz.prop_kth_cnd_nm r;
     SaleIn.prop_list_price_amt := Brnz.prop_list_price_amt r;
     SaleIn.usraddr := usraddr_of r;
     SaleIn.d_rank := dense_rank rows r;
     SaleIn.latest_record_ind := dense_rank rows r =? 1 |}.

(** [where etl_nr = {bnz_etl_nr} and etl_recorded_gmts <= '{bnz_lst_ts}']:
    the rows of the raw table a watermark lets a stage read. *)
Definition watermark_window (bnz_lst_ts bnz_etl_nr : Z) (d : db) : list Brnz.row :=
  List.filter (fun r => (Brnz.etl_nr r =? bnz_etl_nr) &&
                        (Brnz.etl_recorded_gmts r <=? bnz_lst_ts))
              (brnz_prps_prop_sales_dtl d).

(** The query: the rows of the watermarked batch, in surrogate-key
    order, each with its rank inside its address. *)
Definition sales_query (bnz_lst_ts bnz_etl_nr : Z) (d : db) : list SaleIn.row :=
  let rows := watermark_window bnz_lst_ts bnz_etl_nr d in
  map (sale_in_of rows) (Sql.order_by_asc Brnz.brnz_prps_prop_sales_dtl_sk rows).

Definition is_latest_of (addr : string) (r : Sale.row) : bool :=
  Sale.latest_record_ind r && Sql.eq_text (Sale.usraddr r) addr.

(** [SELECT * FROM silver.slvr_int_prop_sales_dlt
     WHERE latest_record_ind = true and usraddr = %s] *)
Definition latest_query (addr : string) (d : db) : list Sale.row :=
  List.filter (is_latest_of addr) (slvr_int_prop_sales_dlt d).

Definition retire_row (addr : string) (r : Sale.row) : Sale.row :=
  if is_latest_of addr r then
    Sale.mk_row (Sale.slvr_int_prop_dtl_sk r) (Sale.slvr_int_prop_fk r) (Sale.load_date_dt r)
                (Sale.etl_nr r) (Sale.etl_recorded_gmts r) (Sale.record_inserted_ts r)
                (Sale.prop_sale_dt r) (Sale.prop_sale_amt r) (Sale.prop_tlt_cnd_nm r)
                (Sale.prop_int_cnd_nm r) (Sale.prop_ext_cnd_nm r) (Sale.prop_bth_cnd_nm r)
                (Sale.prop_kth_cnd_nm r) (Sale.prop_list_price_amt r) false (Sale.usraddr r)
  else r.

(** [update silver.slvr_int_prop_sales_dlt set latest_record_ind = false
     where latest_record_ind = true and usraddr = %s] *)
Definition updquery (addr : string) (d : db) : db :=
  mk_db (adf_load_tracker d) (brnz_prps_prop_sales_dtl d) (slvr_int_inv_dtl d)
        (map (retire_row addr) (slvr_int_prop_sales_dlt d)).

Definition insert_sale (r : Sale.row) (d : db) : db :=
  mk_db (adf_load_tracker d) (brnz_prps_prop_sales_dtl d) (slvr_int_inv_dtl d)
        (slvr_int_prop_sales_dlt d ++ [r]).

Definition sale_row_of (env : environment) (slvr_int_prop_dtl_sk etl_nr : Z)
    (load_date_dt : Sql.date) (etl_recorded_gmts : Z) (row : SaleIn.row) : Sale.row :=
  {| Sale.slvr_int_prop_dtl_sk := slvr_int_prop_dtl_sk;
     Sale.slvr_int_prop_fk := SaleIn.slvr_int_prop_fk row;
     Sale.load_date_dt := load_date_dt;
     Sale.etl_nr := etl_nr;
     Sale.etl_recorded_gmts := etl_recorded_gmts;
     Sale.record_inserted_ts := now env;
     Sale.prop_sale_dt := SaleIn.prop_sale_dt row;
     Sale.prop_sale_amt := SaleIn.prop_sale_amt row;
     Sale.prop_tlt_cnd_nm := SaleIn.prop_tlt_cnd_nm row;
     Sale.prop_int_cnd_nm := SaleIn.prop_int_cnd_nm row;
     Sale.prop_ext_cnd_nm := SaleIn.prop_ext_cnd_nm row;
     Sale.prop_bth_cnd_nm := SaleIn.prop_bth_cnd_nm row;
     Sale.prop_kth_cnd_nm := SaleIn.prop_kth_cnd_nm row;
     Sale.prop_list_price_amt := SaleIn.prop_list_price_amt row;
     Sale.latest_record_ind := SaleIn.latest_record_ind row;
     Sale.usraddr := Some (SaleIn.usraddr row) |}.

(** [for row in result_slvr_int_prp: ...] *)
Fixpoint sales_loop (rows : list SaleIn.row) (slvr_int_prop_dtl_sk etl_nr : Z)
    (load_date_dt : Sql.date) (etl_recorded_gmts : Z) : M unit :=
  match rows with
  | [] => ret tt
  | row :: rest =>
      let slvr_int_prop_dtl_sk := slvr_int_prop_dtl_sk + 1 in
      let* env := ask in
      let usraddr := SaleIn.usraddr row in
      let* result := fetch (latest_query usraddr) in
      let* _ := match result with
                | [] => ret tt
                | _ :: _ => execute (updquery usraddr)
                end in
      let* _ := execute (insert_sale (sale_row_of env slvr_int_prop_dtl_sk etl_nr
                                                  load_date_dt etl_recorded_gmts row)) in
      sales_loop rest slvr_int_prop_dtl_sk etl_nr load_date_dt etl_recorded_gmts
  end.

Definition prc_slv_int_prop_sls_dlt_pl (etl_nr : Z) (load_date_dt : Sql.date)
    (etl_recorded_gmts slvr_int_prop_dtl_sk : Z) : M unit :=
  rewrap (
    let brnz_tlb := "pl_brnz_prps_prop_sales_dtl" in
    let* watermark := get_last_etl_ts brnz_tlb in
    let '(bnz_lst_ts, bnz_etl_nr) := watermark in
    let* res := return_query_res (sales_query bnz_lst_ts bnz_etl_nr) in
    let '(result_slvr_int_prp, message) := res in
    let* _ := match message with
              | Some m => throw (DbError m)
              | None => ret tt
              end in
    let* _ := sales_loop result_slvr_int_prp slvr_int_prop_dtl_sk etl_nr
                         load_date_dt etl_recorded_gmts in
    commit).

(** ** Dispatcher and HTTP entry point *)

(** A value read from a JSON body. Arrays and objects are kept only as
    their truth value and their [str()]. *)
Inductive json : Type :=
| JNull
| JBool (b : bool)
| JNum (n : Z)
| JStr (s : string)
| JOther (truth : bool) (text : string).

Definition truthy (v : json) : bool :=
  match v with
  | JNull => false
  | JBool b => b
  | JNum n => negb (n =? 0)
  | JStr s => negb (String.eqb s "")
  | JOther truth _ => truth
  end.

(** [str(v)] *)
Definition py_str (v : json) : string :=
  match v with
  | JNull => "None"
  | JBool true => "True"
  | JBool false => "False"
  | JNum n => pretty n
  | JStr s => s
  | JOther _ text => text
  end.

(** [v == "literal"]: only a string equals a string. *)
Definition eq_str (v : json) (literal : string) : bool :=
  match v with
  | JStr s => String.eqb s literal
  | _ => false
  end.

(** A Python string is a sequence of code points; a [string] holds
    its UTF-8 encoding. [str.isspace] is true of the code points
    U+0009 to U+000D, U+001C to U+0020, U+0085, U+00A0, U+1680,
    U+2000 to U+200A, U+2028, U+2029, U+202F, U+205F and U+3000: the
    one-byte ones are [is_space], those of two bytes (C2 85, C2 A0)
    [is_space2], those of three bytes (E1 9A 80, E2 80 80 to E2 80 8A,
    E2 80 A8, E2 80 A9, E2 80 AF, E2 81 9F, E3 80 80) [is_space3]. *)
Definition is_space (c : Ascii.ascii) : bool :=
  let n := Ascii.nat_of_ascii c in
  (((9 <=? n) && (n <=? 13)) || ((28 <=? n) && (n <=? 32)))%nat.

Definition is_space2 (c1 c2 : Ascii.ascii) : bool :=
  let n1 := Ascii.nat_of_ascii c1 in
  let n2 := Ascii.nat_of_ascii c2 in
  ((n1 =? 194) && ((n2 =? 133) || (n2 =? 160)))%nat.

Definition is_space3 (c1 c2 c3 : Ascii.ascii) : bool :=
  let n1 := Ascii.nat_of_ascii c1 in
  let n2 := Ascii.nat_of_ascii c2 in
  let n3 := Ascii.nat_of_ascii c3 in
  (((n1 =? 225) && (n2 =? 154) && (n3 =? 128)) ||
   ((n1 =? 226) && (n2 =? 128) &&
    (((128 <=? n3) && (n3 <=? 138)) || (n3 =? 168) || (n3 =? 169) || (n3 =? 175))) ||
   ((n1 =? 226) && (n2 =? 129) && (n3 =? 159)) ||
   ((n1 =? 227) && (n2 =? 128) && (n3 =? 128)))%nat.

(** Drop the blanks a string starts with. With [backwards] the string
    is read from its end, so the bytes of a blank come last byte
    first. *)
Fixpoint drop_blanks (backwards : bool) (s : string) : string :=
  match s with
  | EmptyString => EmptyString
  | String c1 r1 =>
      if is_space c1 then drop_blanks backwards r1
      else
        match r1 with
        | EmptyString => s
        | String c2 r2 =>
            if (if backwards then is_space2 c2 c1 else is_space2 c1 c2)
            then drop_blanks backwards r2
            else
              match r2 with
              | EmptyString => s
              | String c3 r3 =>
                  if (if backwards then is_space3 c3 c2 c1 else is_space3 c1 c2 c3)
                  then drop_blanks backwards r3
                  else s
              end
        end
  end.

(** [s.lstrip()] and [s.rstrip()] *)
Definition lstrip (s : string) : string := drop_blanks false s.

Definition rstrip (s : string) : string :=
  String.rev (drop_blanks true (String.rev s)).

(** [s.strip()] *)
Definition strip (s : string) : string := rstrip (lstrip s).

(** U+00A0, the no-break space, and U+2003, the em space. *)
Definition nbsp : string :=
  String (Ascii.ascii_of_nat 194) (String (Ascii.ascii_of_nat 160) EmptyString).

Definition em_space : string :=
  String (Ascii.ascii_of_nat 226)
    (String (Ascii.ascii_of_nat 128) (String (Ascii.ascii_of_nat 131) EmptyString)).

(** The body of a request, as [req.get_json()] sees it: not JSON at
    all ([ValueError]), a JSON object, or another JSON value. *)
Inductive body : Type :=
| NotJson
| JsonObject (fields : gmap string json)
| JsonValue (v : json).

Record HttpRequest : Type := mk_request {
  params : gmap string string;
  req_body : body
}.

Record HttpResponse : Type := mk_response {
  response_body : string;
  status_code : Z;
  mimetype : string
}.

(** The stage compositions [getway] can start. *)
Inductive stage : Type :=
| process_slv_int_inv_stage
| process_bnz_prcl_dtl_stage
| process_slv_int_prp_stage
| process_slv_int_pr_cmps_stage
| call_slvr_int_prp_dtl_stage
| bnz_prps_upd_stage (etl_recorded_gmts etl_nr : option json).

(** The fixed set of recognized keys. *)
Definition recognized_keys : list string :=
  ["process_silver_int_inv_dtl"; "process_bnz_prcl_dtl"; "process_slv_int_prp";
   "process_slv_pr_cmps"; "call_slvr_int_prp_dtl"; "bnz_prps_upd"].

(** What the dispatcher needs from the rest of the system: how a stage
    that it calls ends, and the generation it reads for the background
    stage ([COALESCE(MAX(etl_nr),0)] of the sales table), which may
    fail with the connection. *)
Record stages : Type := mk_stages {
  run_stage : stage -> py unit;
  read_sales_etl_nr : py Z
}.

(** Dispatch: the stages started so far are threaded as a trace. *)
Definition D (A : Type) : Type := stages -> list stage -> py A * list stage.

Definition dret {A} (a : A) : D A := fun _ tr => (Ok a, tr).

Definition dbind {A B} (m : D A) (k : A -> D B) : D B :=
  fun st tr =>
    match m st tr with
    | (Ok a, tr') => k a st tr'
    | (Raise e, tr') => (Raise e, tr')
    end.

Notation "'let+' x ':=' m 'in' k" := (dbind m (fun x => k))
  (at level 10, x name, m at level 100, k at level 200).

(** Call a stage and wait for it. *)
Definition call (s : stage) : D unit :=
  fun st tr => (run_stage st s, (tr ++ [s])%list).

(** [threading.Thread(target=..., daemon=True).start()] *)
Definition start_thread (s : stage) : D unit :=
  fun _ tr => (Ok tt, (tr ++ [s])%list).

Definition lift {A} (r : py A) : D A := fun _ tr => (r, tr).

Definition drewrap {A} (m : D A) : D A :=
  fun st tr => let '(r, tr') := m st tr in (reraise r, tr').

Definition getway (process_key : json) (dic : gmap string json) : D (option Z) :=
  drewrap (
    if truthy process_key then
      if eq_str process_key "process_silver_int_inv_dtl" then
        let+ _ := call process_slv_int_inv_stage in dret None
      else if eq_str process_key "process_bnz_prcl_dtl" then
        let+ _ := call process_bnz_prcl_dtl_stage in dret None
      else if eq_str process_key "process_slv_int_prp" then
        let+ _ := call process_slv_int_prp_stage in dret None
      else if eq_str process_key "process_slv_pr_cmps" then
        let+ _ := call process_slv_int_pr_cmps_stage in dret None
      else if eq_str process_key "call_slvr_int_prp_dtl" then
        let+ etl_nr := (fun st tr => (read_sales_etl_nr st, tr)) in
        let etl_nr := etl_nr + 1 in
        let+ _ := start_thread call_slvr_int_prp_dtl_stage in
        dret (Some etl_nr)
      else if eq_str process_key "bnz_prps_upd" then
        let etl_recorded_gmts := dic !! "etl_recorded_gmts" in
        let etl_nr := dic !! "etl_nr" in
        let+ _ := call (bnz_prps_upd_stage etl_recorded_gmts etl_nr) in dret None
      else dret None
    else dret None).

Definition dquote : string := String (Ascii.ascii_of_nat 34) EmptyString.

(** [json.dumps({"value": val})] for an integer [val]. *)
Definition dumps_value (val : Z) : string :=
  "{" ++ dquote ++ "value" ++ dquote ++ ": " ++ pretty val ++ "}".

Fixpoint exn_str (e : exn) : string :=
  match e with
  | TypeError msg => msg
  | AttributeError msg => msg
  | DbError msg => msg
  | Wrapped inner => exn_str inner
  end.

Definition prompt_text : string :=
  "This HTTP triggered function executed successfully. Pass a name in the query string or in the request body for a personalized response.".

(** The body of [rehouzd_function] inside its [try]. *)
Definition rehouzd_function_body (req : HttpRequest) : D HttpResponse :=
  let dic := JStr <$> params req in
  let process_key := params req !! "process_key" in
  (* str(process_key).strip(): str(None) is the string None *)
  let process_key :=
    JStr (strip (match process_key with Some s => s | None => "None" end)) in
  let+ read :=
    (if negb (truthy process_key) then
       match req_body req with
       | NotJson => dret (dic, process_key)
       | JsonObject fields =>
           dret (fields, match fields !! "process_key" with Some v => v | None => JNull end)
       | JsonValue v =>
           lift (Raise (AttributeError "object has no attribute 'get'"))
       end
     else dret (dic, process_key)) in
  let '(dic, process_key) := read in
  if truthy process_key then
    let+ val := getway process_key dic in
    match val with
    | Some v =>
        if negb (v =? 0) then dret (mk_response (dumps_value v) 200 "application/json")
        else dret (mk_response ("Hello, " ++ py_str process_key ++
                                " Not found. triggers executed successfully.") 200 "text/plain")
    | None =>
        dret (mk_response ("Hello, " ++ py_str process_key ++
                           " Not found. triggers executed successfully.") 200 "text/plain")
    end
  else dret (mk_response prompt_text 400 "text/plain").

(** [rehouzd_function]: an exception becomes a 400 response carrying
    its text. The result is the response and the stages started. *)
Definition rehouzd_function (st : stages) (req : HttpRequest) : HttpResponse * list stage :=
  match rehouzd_function_body req st [] with
  | (Ok resp, tr) => (resp, tr)
  | (Raise err, tr) =>
      (mk_response ("This HTTP triggered function executed successfully. And the error occured  - "
                    ++ exn_str err ++ ".") 400 "text/plain", tr)
  end.

(** ** What a run leaves behind *)

(** No database call of the run fails. *)
Definition fault_free (env : environment) : Prop := forall n, faulty env n = false.

(** The rows [insert_records] inserts, in order. *)
Fixpoint new_inv_rows (env : environment) (records : list Agg.row)
    (slvr_int_inv_dtl_sk etl_nr : Z) : list Inv.row :=
  match records with
  | [] => []
  | row :: rest =>
      inv_row_of env (slvr_int_inv_dtl_sk + 1) etl_nr row ::
      new_inv_rows env rest (slvr_int_inv_dtl_sk + 1) etl_nr
  end.

(** The investor table after a complete [upsert_table]. *)
Definition inv_table_after (env : environment) (records : list Agg.row)
    (slv_pk etl_nr : Z) (t : list Inv.row) : list Inv.row :=
  map (deactivate_row etl_nr) t ++ new_inv_rows env records slv_pk (etl_nr + 1).

(** The database after a complete [process_slv_int_inv]. *)
Definition db_after_process_slv_int_inv (env : environment) (d : db) : db :=
  let records := aggregation_query (yr_blt_type env) (sqft_type env) (today env) d in
  let slv_pk := fst (next_keys_query d) in
  let etl_nr := snd (next_keys_query d) in
  let mx_id :=
    match Sql.sql_max (map (fun r => Some (Tracker.tbl_id r)) (adf_load_tracker d)) with
    | None => 0
    | Some v => v
    end in
  mk_db (adf_load_tracker d ++
           [Tracker.mk_row (mx_id + 1) "silver_int_inv_dtl" (Some (now env)) (Some (etl_nr + 1))])
        (brnz_prps_prop_sales_dtl d)
        (inv_table_after env records slv_pk etl_nr (slvr_int_inv_dtl d))
        (slvr_int_prop_sales_dlt d).

(** The active versions of an investor. *)
Definition active_rows_of (name : string) (t : list Inv.row) : list Inv.row :=
  List.filter (fun r => Inv.active_rec_ind r && String.eqb (Inv.investor_company_nm_txt r) name) t.

(** Every active row belongs to the latest generation of the table:
    what [upsert_table] leaves, and what it relies on when it retires
    the rows of that generation only. *)
Definition active_in_latest_generation (t : list Inv.row) : Prop :=
  forall r, In r t -> Inv.active_rec_ind r = true ->
            Inv.etl_nr r = Sql.coalesce (Sql.sql_max (map (fun r => Some (Inv.etl_nr r)) t)) 0.

(** The sales table after the loop of [prc_slv_int_prop_sls_dlt_pl]
    has run over [rows]. *)
Fixpoint sales_table_after (env : environment) (rows : list SaleIn.row)
    (slvr_int_prop_dtl_sk etl_nr : Z) (load_date_dt : Sql.date) (etl_recorded_gmts : Z)
    (t : list Sale.row) : list Sale.row :=
  match rows with
  | [] => t
  | row :: rest =>
      sales_table_after env rest (slvr_int_prop_dtl_sk + 1) etl_nr load_date_dt etl_recorded_gmts
        (map (retire_row (SaleIn.usraddr row)) t ++
         [sale_row_of env (slvr_int_prop_dtl_sk + 1) etl_nr load_date_dt etl_recorded_gmts row])
  end.

(** The batch row processed last for an address, with the surrogate
    key the loop gives it. *)
Fixpoint last_of_address (addr : string) (rows : list SaleIn.row)
    (slvr_int_prop_dtl_sk : Z) : option (Z * SaleIn.row) :=
  match rows with
  | [] => None
  | row :: rest =>
      match last_of_address addr rest (slvr_int_prop_dtl_sk + 1) with
      | Some found => Some found
      | None =>
          if String.eqb (SaleIn.usraddr row) addr then Some (slvr_int_prop_dtl_sk + 1, row)
          else None
      end
  end.

(** The database after a complete [prc_slv_int_prop_sls_dlt_pl]. *)
Definition db_after_prc_slv_int_prop_sls_dlt_pl (env : environment) (etl_nr : Z)
    (load_date_dt : Sql.date) (etl_recorded_gmts slvr_int_prop_dtl_sk : Z) (d : db) : db :=
  let watermark := last_etl_ts_query "pl_brnz_prps_prop_sales_dtl" d in
  mk_db (adf_load_tracker d) (brnz_prps_prop_sales_dtl d) (slvr_int_inv_dtl d)
        (sales_table_after env (sales_query (fst watermark) (snd watermark) d)
           slvr_int_prop_dtl_sk etl_nr load_date_dt etl_recorded_gmts
           (slvr_int_prop_sales_dlt d)).

(** ** Sample data *)

Definition never_fails : nat -> bool := fun _ => false.

Definition sample_env : environment :=
  mk_env (Sql.mk_date 2025 6 15) 1750000000 Sql.IntegerCol Sql.IntegerCol never_fails.

(** A raw sale with every required column filled in. *)
Definition sample_brnz (sk etl_nr recorded : Z) (name : string) (sale_dt : Sql.date)
    (amt yr sqft : Z) (zip addr : string) : Brnz.row :=
  {| Brnz.brnz_prps_prop_sales_dtl_sk := sk;
     Brnz.etl_nr := etl_nr;
     Brnz.etl_recorded_gmts := recorded;
     Brnz.investor_company_nm_txt := Some name;
     Brnz.prop_attr_br_cnt := Some 3;
     Brnz.prop_attr_bth_cnt := Some (2 # 1)%Q;
     Brnz.prop_last_sale_amt := Some amt;
     Brnz.prop_last_sale_dt := Some sale_dt;
     Brnz.prop_yr_blt_nr := Some yr;
     Brnz.prop_attr_sqft_nr := Some sqft;
     Brnz.prop_zip_cd := Some zip;
     Brnz.prop_tlt_cnd_nm := Some "Good";
     Brnz.prop_int_cnd_nm := None;
     Brnz.prop_ext_cnd_nm := None;
     Brnz.prop_bth_cnd_nm := None;
     Brnz.prop_kth_cnd_nm := None;
     Brnz.prop_list_price_amt := None;
     Brnz.prop_address_line_txt := Some addr;
     Brnz.prop_city_nm := Some "Memphis";
     Brnz.prop_state_nm := Some "TN";
     Brnz.prop_cnty_nm := Some "Shelby" |}.

Definition raw_table : string := "pl_brnz_prps_prop_sales_dtl".

(** A raw table holding one sale of generation 1, with no watermark
    recorded yet. *)
Definition first_run_db : db :=
  mk_db []
        [sample_brnz 1 1 1740000000 "Acme LLC" (Sql.mk_date 2025 3 1) 90000 1987 1450 "38104" "12 Elm St"]
        [] [].

(** The same raw table after two advances of its watermark. *)
Definition tracked_db : db :=
  mk_db [Tracker.mk_row 1 raw_table (Some 1740000000) (Some 1);
         Tracker.mk_row 2 "silver_int_inv_dtl" (Some 1745000000) (Some 4);
         Tracker.mk_row 3 raw_table (Some 1741000000) (Some 2)]
        (brnz_prps_prop_sales_dtl first_run_db) [] [].

(** Two sales to Acme LLC and one to Bolt Inc inside the trailing
    twelve months of [sample_env], in two generations; the watermark
    of the raw table stands at generation 2. *)
Definition acme_db : db :=
  mk_db [Tracker.mk_row 1 raw_table (Some 1741000000) (Some 2)]
        [sample_brnz 1 1 1740000000 "Acme LLC" (Sql.mk_date 2025 3 1) 90000 1987 1450 "38104" "12 Elm St";
         sample_brnz 2 2 1741000000 "Acme LLC" (Sql.mk_date 2024 11 20) 120000 1994 1618 "38111" "7 Oak Ave";
         sample_brnz 3 2 1741000000 "Bolt Inc" (Sql.mk_date 2025 1 5) 75000 2003 990 "38104" "3 Pine Rd"]
        [] [].

(** The aggregated row of Acme LLC over [acme_db]. *)
Definition acme_row : Agg.row :=
  aggregate_group Sql.IntegerCol Sql.IntegerCol
    (grouped (aggregation_input (today sample_env) acme_db))
    ("Acme LLC", group_rows "Acme LLC" (aggregation_input (today sample_env) acme_db)).

(** One address sold twice inside the watermarked batch: the row with
    the lower surrogate key carries the later sale date. *)
Definition resale_db : db :=
  mk_db [Tracker.mk_row 1 raw_table (Some 1741000000) (Some 2)]
        [sample_brnz 1 2 1741000000 "Acme LLC" (Sql.mk_date 2025 3 1) 90000 1987 1450 "38104" "12 Elm St";
         sample_brnz 2 2 1741000000 "Bolt Inc" (Sql.mk_date 2024 11 20) 80000 1987 1450 "38104" "12 Elm St"]
        [] [].


(** The investor table after a first complete run over [acme_db]:
    Acme LLC and Bolt Inc, both active, generation 1. *)
Definition seeded_db : db := db_after_process_slv_int_inv sample_env acme_db.

(** Only the [k]-th database call of the run fails. *)
Definition fails_at (k : nat) : nat -> bool := fun n => Nat.eqb n k.

(** [sample_env] with the first INSERT of [upsert_table] failing: calls
    0 to 2 are the three reads of [process_slv_int_inv], call 3 the
    UPDATE, call 4 the commit that follows it, call 5 the first INSERT. *)
Definition first_insert_fails : environment :=
  mk_env (today sample_env) (now sample_env) Sql.IntegerCol Sql.IntegerCol (fails_at 5).

(** Stages that all end normally, over a sales table of generation 0. *)
Definition quiet_stages : stages := mk_stages (fun _ => Ok tt) (Ok 0).




(** A raw sale whose year built is below zero. *)
Definition below_zero_db : db :=
  mk_db []
        [sample_brnz 1 1 1740000000 "Acme LLC" (Sql.mk_date 2025 3 1) 90000 (-5) 1450 "38104" "12 Elm St"]
        [] [].

(** ** More of the pipeline *)

(** [bnz_prps_upd]: advance the watermark of the raw sales table to
    what the request carried; a parameter the request lacks arrives as
    [None] and is written as NULL. *)
Definition bnz_prps_upd (etl_recorded_gmts etl_nr : option Z) : M unit :=
  rewrap (
    let* _ := upd_lookup_tbl "pl_brnz_prps_prop_sales_dtl" etl_recorded_gmts etl_nr in
    end_process).

(** What [datetime(...)] and [datetime + timedelta] raise. *)
Inductive date_error : Type :=
| ValueError
| OverflowError.

(** [datetime(year, month, day)]: the year must be in 1..9999, the
    month in 1..12 and the day in that month. *)
Definition datetime (year month day : Z) : date_error + Sql.date :=
  if (1 <=? year) && (year <=? 9999) && (1 <=? month) && (month <=? 12) &&
     (1 <=? day) && (day <=? Sql.days_in_month year month)
  then inr (Sql.mk_date year month day)
  else inl ValueError.

(** [(d.replace(day=28) + timedelta(days=4)).day] for the first of a
    month: four days after the 28th is in the next month, on the day
    32 minus the length of the month; past 9999-12-31 the addition
    overflows. *)
Definition day_after_28_plus_4 (first : Sql.date) : date_error + Z :=
  if (Sql.year first =? 9999) && (Sql.month first =? 12) then inl OverflowError
  else inr (32 - Sql.days_in_month (Sql.year first) (Sql.month first)).

(** [while month <= 0: month += 12; year -= 1], run for at most [fuel]
    rounds. *)
Fixpoint wrap_months (fuel : nat) (month year : Z) : Z * Z :=
  match fuel with
  | O => (month, year)
  | S fuel' =>
      if month <=? 0 then wrap_months fuel' (month + 12) (year - 1)
      else (month, year)
  end.

(** [subtract_months]. One round of the loop raises the month by 12,
    so [1 - month] rounds are more than the loop can take. *)
Definition subtract_months (date : Sql.date) (months : Z) : date_error + Sql.date :=
  let month := Sql.month date - months in
  let year := Sql.year date in
  let '(month, year) := wrap_months (Z.to_nat (1 - month)) month year in
  match datetime year month 1 with
  | inl e => inl e
  | inr first =>
      match day_after_28_plus_4 first with
      | inl e => inl e
      | inr last => datetime year month (Z.min (Sql.day date) last)
      end
  end.

(** A date as [datetime.today().date()] gives it. *)
Definition valid_date (d : Sql.date) : Prop :=
  1 <= Sql.year d <= 9999 /\ 1 <= Sql.month d <= 12 /\
  1 <= Sql.day d <= Sql.days_in_month (Sql.year d) (Sql.month d).

(** The keys [getway] reads for the background stage:
    [SELECT COALESCE(MAX(slvr_int_prop_dtl_sk),0), COALESCE(MAX(etl_nr),0)
     FROM silver.slvr_int_prop_sales_dlt] *)
Definition next_sale_keys_query (d : db) : Z * Z :=
  (Sql.coalesce (Sql.sql_max (map (fun r => Some (Sale.slvr_int_prop_dtl_sk r))
                                  (slvr_int_prop_sales_dlt d))) 0,
   Sql.coalesce (Sql.sql_max (map (fun r => Some (Sale.etl_nr r))
                                  (slvr_int_prop_sales_dlt d))) 0).

(** [resale_db] after a first complete run of the sales stage: two
    sales rows, with keys 1 and 2. *)
Definition sold_once_db : db :=
  db_after_prc_slv_int_prop_sls_dlt_pl sample_env 1 (today sample_env) (now sample_env) 0
    resale_db.

(** [acme_db] after a run of the sales stage, with the watermark of
    the raw table moved back to generation 1: the sales table holds the
    rows of 7 Oak Ave and 3 Pine Rd, and the batch is the sale of
    12 Elm St. *)
Definition earlier_batch_db : db :=
  mk_db [Tracker.mk_row 1 raw_table (Some 1740000000) (Some 1)]
        (brnz_prps_prop_sales_dtl acme_db) []
        (slvr_int_prop_sales_dlt
           (db_after_prc_slv_int_prop_sls_dlt_pl sample_env 1 (today sample_env)
              (now sample_env) 0 acme_db)).

Definition oak_ave : string := "7 Oak Ave/Memphis/TN/Shelby/38111".

(** *** The background stage: [call_slvr_int_prp_dtl] *)

(** One row of the join of [prc_slv_int_prcl_sls_dlt_pl]: the three
    columns it takes from the parcel table. The other eight columns of
    the select list are constants: NULL, and [true] for
    [latest_record_ind]. *)
Module ParcelSale.
Record row : Type := mk_row {
  prop_sale_dt : option Sql.date;
  prop_sale_amt : option Z;
  prop_list_price_amt : option Z
}.
End ParcelSale.

Definition format_error : exn :=
  TypeError "not all arguments converted during string formatting".

(** [cursor.execute(query, params)] for a statement with [placeholders]
    occurrences of [%s] and a tuple of [params] values. psycopg2 builds
    the statement with the [%] operator before anything is sent, and
    [%] raises TypeError unless the two numbers agree. *)
Definition execute_with (placeholders params : nat) (stmt : db -> db) : M unit :=
  if (placeholders =? params)%nat then execute stmt else throw format_error.

(** The row the INSERT of [prc_slv_int_prcl_sls_dlt_pl] names: fifteen
    columns, [usraddr] not among them. *)
Definition parcel_sale_row_of (env : environment) (slvr_int_prop_dtl_sk etl_nr : Z)
    (load_date_dt : Sql.date) (etl_reorded_gmts : Z) (row : ParcelSale.row) : Sale.row :=
  {| Sale.slvr_int_prop_dtl_sk := slvr_int_prop_dtl_sk;
     Sale.slvr_int_prop_fk := None;
     Sale.load_date_dt := load_date_dt;
     Sale.etl_nr := etl_nr;
     Sale.etl_recorded_gmts := etl_reorded_gmts;
     Sale.record_inserted_ts := now env;
     Sale.prop_sale_dt := ParcelSale.prop_sale_dt row;
     Sale.prop_sale_amt := ParcelSale.prop_sale_amt row;
     Sale.prop_tlt_cnd_nm := None;
     Sale.prop_int_cnd_nm := None;
     Sale.prop_ext_cnd_nm := None;
     Sale.prop_bth_cnd_nm := None;
     Sale.prop_kth_cnd_nm := None;
     Sale.prop_list_price_amt := ParcelSale.prop_list_price_amt row;
     Sale.latest_record_ind := true;
     Sale.usraddr := None |}.

(** [for row in result_slvr_int_prp: ...]: the statement has fifteen
    [%s], the tuple passed with it sixteen values. *)
Fixpoint parcel_sales_loop (rows : list ParcelSale.row) (slvr_int_prop_dtl_sk etl_nr : Z)
    (load_date_dt : Sql.date) (etl_reorded_gmts : Z) : M unit :=
  match rows with
  | [] => ret tt
  | row :: rest =>
      let slvr_int_prop_dtl_sk := slvr_int_prop_dtl_sk + 1 in
      let* env := ask in
      let* _ := execute_with 15 16
                  (insert_sale (parcel_sale_row_of env slvr_int_prop_dtl_sk etl_nr
                                                   load_date_dt etl_reorded_gmts row)) in
      parcel_sales_loop rest slvr_int_prop_dtl_sk etl_nr load_date_dt etl_reorded_gmts
  end.

(** [prc_slv_int_prcl_sls_dlt_pl]. The parcel table and the comps table
    it joins are outside [db]; [parcel_join] is what the join returns
    for the two watermarks read. *)
Definition prc_slv_int_prcl_sls_dlt_pl
    (parcel_join : Z * Z -> Z * Z -> list ParcelSale.row)
    (etl_nr : Z) (load_date_dt : Sql.date) (etl_reorded_gmts slvr_int_prop_dtl_sk : Z) : M unit :=
  rewrap (
    let* slv_watermark := get_last_etl_ts "slvr_int_prop_comps" in
    let* bnz_watermark := get_last_etl_ts "brnz_prcl_prop_sales_dtl" in
    let* res := return_query_res (fun _ => parcel_join slv_watermark bnz_watermark) in
    let '(result_slvr_int_prp, message) := res in
    let* _ := match message with
              | Some m => throw (DbError m)
              | None => ret tt
              end in
    let* _ := parcel_sales_loop result_slvr_int_prp slvr_int_prop_dtl_sk etl_nr
                                load_date_dt etl_reorded_gmts in
    commit).

(** [call_slvr_int_prp_dtl]: both halves are given the same key to
    start from, then the watermark of the sales table is advanced. *)
Definition call_slvr_int_prp_dtl
    (parcel_join : Z * Z -> Z * Z -> list ParcelSale.row)
    (etl_nr : Z) (load_date_dt : Sql.date) (etl_recorded_gmts slvr_int_prop_dtl_sk : Z) : M unit :=
  rewrap (
    let* _ := prc_slv_int_prop_sls_dlt_pl etl_nr load_date_dt etl_recorded_gmts
                                           slvr_int_prop_dtl_sk in
    let* _ := prc_slv_int_prcl_sls_dlt_pl parcel_join etl_nr load_date_dt etl_recorded_gmts
                                           slvr_int_prop_dtl_sk in
    let* _ := upd_lookup_tbl "slvr_int_prop_sales_dlt" (Some etl_recorded_gmts) (Some etl_nr) in
    end_process).

(** A join that returns one parcel sale, and one that returns none. *)
Definition one_parcel_sale : Z * Z -> Z * Z -> list ParcelSale.row :=
  fun _ _ => [ParcelSale.mk_row (Some (Sql.mk_date 2025 2 3)) (Some 101000) None].

Definition no_parcel_sale : Z * Z -> Z * Z -> list ParcelSale.row := fun _ _ => [].

(** *** The parcel table: enrichment and matching *)

(** [bronze.brnz_prcl_prop_sales_dtl], with the 24 columns of the
    INSERT of [process_bnz_prcl_dtl]. The event date is the day number
    of [Enrich.event]. *)
Module Prcl.
Record row : Type := mk_row {
  brnz_prcl_prop_sales_dtl_sk : Z;
  load_date_dt : Sql.date;
  etl_nr : Z;
  etl_recorded_gmts : Z;
  record_inserted_ts : Z;
  investor_company_nm_txt : option string;
  prop_sale_dt : option Z;
  prop_sale_amt : option Z;
  prop_attr_br_cnt : option Z;
  prop_attr_bth_cnt : option Z;
  prop_attr_sqft_nr : option Z;
  prop_yr_blt_nr : option Z;
  prop_address_line_txt : option string;
  prop_city_nm : option string;
  prop_state_nm : option string;
  prop_cnty_nm : option string;
  prop_zip_cd : option string;
  prop_list_price_amt : option Z;
  prop_acty_status_cd : option string;
  prop_acty_status_dc : option string;
  prop_acty_sub_status_cd : option string;
  prop_acty_sub_status_dc : option string;
  prop_latitude_val : option Q;
  prop_longitude_val : option Q
}.
End Prcl.

(** The two endpoints of the property API, as the loop reads them.
    Responses are taken well formed: every key the code reads is there
    (a JSON null is [None]) and the event dates parse. *)
Module Parcl.

(** A row of [result_ggl]: the address looked up. *)
Record lookup : Type := mk_lookup {
  prop_address_line_txt : option string;
  prop_city_nm : option string;
  prop_state_nm : option string;
  prop_zip_cd : option string
}.

(** An item of the search response. *)
Record property : Type := mk_property {
  parcl_property_id : Z;
  bedrooms : option Z;
  bathrooms : option Q;
  square_footage : option Z;
  year_built : option Z;
  address : option string;
  city : option string;
  state_abbreviation : option string;
  county : option string;
  zip_code : option string;
  latitude : option Q;
  longitude : option Q
}.

(** The event-history response: its status and its items, already in
    the shape of [events_list]. *)
Record history : Type := mk_history {
  status_code : Z;
  items : list Enrich.event
}.

(** [search_address] answers a lookup; [event_history] answers a
    property id and a start date. *)
Record api : Type := mk_api {
  search_address : lookup -> list property;
  event_history : Z -> Sql.date -> history
}.

End Parcl.

(** What stops the loop: a Python exception, or one of the two errors
    of the date arithmetic. *)
Inductive failure : Type :=
| PyFailure (e : exn)
| DateFailure (e : date_error).

Definition attempt (A : Type) : Type := (failure + A)%type.

Definition attempt_bind {A B} (m : attempt A) (k : A -> attempt B) : attempt B :=
  match m with
  | inl f => inl f
  | inr a => k a
  end.

Notation "'let?' x ':=' m 'in' k" := (attempt_bind m (fun x => k))
  (at level 10, x name, m at level 100, k at level 200).

Definition of_py {A} (r : py A) : attempt A :=
  match r with
  | Ok a => inr a
  | Raise e => inl (PyFailure e)
  end.

Definition of_date {A} (r : date_error + A) : attempt A :=
  match r with
  | inl e => inl (DateFailure e)
  | inr a => inr a
  end.

(** [int(math.ceil(x))]: [math.ceil(None)] raises TypeError. *)
Definition ceil_int (x : option Q) : py Z :=
  match x with
  | Some q => Ok (Qceiling q)
  | None => Raise (TypeError "must be real number, not NoneType")
  end.

(** The tuple of one INSERT of the loop. *)
Definition prcl_row_of (env : environment) (bnz_pk etl_nr etl_reorded_gmts : Z)
    (res : Parcl.property) (bathrooms : Z) (ev : Enrich.event) : Prcl.row :=
  {| Prcl.brnz_prcl_prop_sales_dtl_sk := bnz_pk;
     Prcl.load_date_dt := today env;
     Prcl.etl_nr := etl_nr;
     Prcl.etl_recorded_gmts := etl_reorded_gmts;
     Prcl.record_inserted_ts := now env;
     Prcl.investor_company_nm_txt := Enrich.entity_owner_name ev;
     Prcl.prop_sale_dt := Some (Enrich.event_date ev);
     Prcl.prop_sale_amt := Enrich.price ev;
     Prcl.prop_attr_br_cnt := Parcl.bedrooms res;
     Prcl.prop_attr_bth_cnt := Some bathrooms;
     Prcl.prop_attr_sqft_nr := Parcl.square_footage res;
     Prcl.prop_yr_blt_nr := Parcl.year_built res;
     Prcl.prop_address_line_txt := Parcl.address res;
     Prcl.prop_city_nm := Parcl.city res;
     Prcl.prop_state_nm := Parcl.state_abbreviation res;
     Prcl.prop_cnty_nm := Parcl.county res;
     Prcl.prop_zip_cd := Parcl.zip_code res;
     Prcl.prop_list_price_amt := None;
     Prcl.prop_acty_status_cd := Some (Enrich.PROP_ACTY_STATUS_CD ev);
     Prcl.prop_acty_status_dc := None;
     Prcl.prop_acty_sub_status_cd := Some (Enrich.PROP_ACTY_SUB_STATUS_CD ev);
     Prcl.prop_acty_sub_status_dc := None;
     Prcl.prop_latitude_val := Parcl.latitude res;
     Prcl.prop_longitude_val := Parcl.longitude res |}.

(** [if selected_event: cursor.execute(insert_query, ...)]: a selected
    event is a dictionary of five keys, so it is true. *)
Definition insert_if (selected : option Enrich.event) (row : Enrich.event -> Prcl.row)
    : list Prcl.row :=
  match selected with
  | Some ev => [row ev]
  | None => []
  end.

(** The body of [for res in srch_res]: the rows inserted for one
    property, in order. *)
Definition rows_for_property (env : environment) (api : Parcl.api)
    (bnz_pk etl_nr etl_reorded_gmts : Z) (res : Parcl.property) : attempt (list Prcl.row) :=
  let? bathrooms := of_py (ceil_int (Parcl.bathrooms res)) in
  let? previous_date := of_date (subtract_months (today env) 6) in
  let event_res := Parcl.event_history api (Parcl.parcl_property_id res) previous_date in
  if negb (Parcl.status_code event_res =? 200) then inr []
  else
    let events_list := Parcl.items event_res in
    let row := prcl_row_of env bnz_pk etl_nr etl_reorded_gmts res bathrooms in
    let? selected_event :=
      of_py (Enrich.get_valid_event events_list "SALE" "SOLD"
                                    (Some "LISTING") (Some "PENDING SALE")) in
    let? rental_event :=
      of_py (Enrich.get_valid_event events_list "RENTAL" "DELISTED FOR RENT" None None) in
    inr (insert_if selected_event row ++ insert_if rental_event row)%list.

(** [for res in srch_res: ...] *)
Fixpoint rows_for_results (env : environment) (api : Parcl.api)
    (bnz_pk etl_nr etl_reorded_gmts : Z) (srch_res : list Parcl.property)
    : attempt (list Prcl.row) :=
  match srch_res with
  | [] => inr []
  | res :: rest =>
      let? rows := rows_for_property env api bnz_pk etl_nr etl_reorded_gmts res in
      let? more := rows_for_results env api bnz_pk etl_nr etl_reorded_gmts rest in
      inr (rows ++ more)%list
  end.

(** [for row in result_ggl: ...] of [api_info_extract_load_brnx_prc]:
    the rows inserted before the commit, in order, listed address by
    address. The key moves once per address looked up. *)
Fixpoint enrichment_loop (env : environment) (api : Parcl.api)
    (bnz_pk etl_nr etl_reorded_gmts : Z) (result_ggl : list Parcl.lookup)
    : attempt (list (list Prcl.row)) :=
  match result_ggl with
  | [] => inr []
  | row :: rest =>
      let bnz_pk := bnz_pk + 1 in
      let? rows := rows_for_results env api bnz_pk etl_nr etl_reorded_gmts
                                    (Parcl.search_address api row) in
      let? more := enrichment_loop env api bnz_pk etl_nr etl_reorded_gmts rest in
      inr (rows :: more)
  end.

(** [col in ('a', 'b', ...)] on a nullable text column. *)
Definition in_text (x : option string) (values : list string) : bool :=
  match x with
  | Some s => existsb (String.eqb s) values
  | None => false
  end.

(** [col = v] and [col >= v] on a nullable number. *)
Definition eq_num (x : option Z) (v : Z) : bool :=
  match x with
  | Some a => a =? v
  | None => false
  end.

Definition ge_num (x : option Z) (v : Z) : bool :=
  match x with
  | Some a => v <=? a
  | None => false
  end.

(** The [flag_info] column of the matching query of
    [process_slv_int_prp]. *)
Definition flag_info (b : Prcl.row) : bool :=
  if Sql.eq_text (Prcl.prop_acty_status_cd b) "SALE" &&
     in_text (Prcl.prop_acty_sub_status_cd b)
       ["SOLD"; "NON_ARMS_LENGTH_TRANSFER"; "SOLD_INTER_PORTFOLIO_TRANSFER";
        "NON_ARMS_LENGTH_INTRA_PORTFOLIO_TRANSFER"]
  then true
  else if Sql.eq_text (Prcl.prop_acty_status_cd b) "LISTING" &&
          in_text (Prcl.prop_acty_sub_status_cd b)
            ["LISTED_SALE"; "LISTING_REMOVED"; "OTHER"; "PENDING_SALE"; "PRICE_CHANGE";
             "RELISTED"]
  then true
  else if Sql.eq_text (Prcl.prop_acty_status_cd b) "RENTAL" &&
          in_text (Prcl.prop_acty_sub_status_cd b)
            ["LISTED_FOR_RENT"; "PRICE_CHANGE"; "DELISTED_FOR_RENT"; "LISTED_RENT"]
  then true
  else false.

(** The subquery [brnz]: the parcel rows of the watermarked batch whose
    [flag_info] is true. *)
Definition flagged_parcels (brnz_lst_ts brnz_etl_nr : Z) (parcels : list Prcl.row)
    : list Prcl.row :=
  List.filter flag_info
    (List.filter (fun b => in_text (Prcl.prop_acty_status_cd b) ["SALE"; "LISTING"; "RENTAL"] &&
                           (Prcl.etl_nr b =? brnz_etl_nr) &&
                           (Prcl.etl_recorded_gmts b <=? brnz_lst_ts))
                 parcels).

(** The subquery [slv]: the investor rows of the watermarked generation
    whose [active_flg] is true. *)
Definition active_profiles (slv_lst_ts slv_etl_nr : Z) (investors : list Inv.row)
    : list Inv.row :=
  List.filter (fun s => Inv.active_flg s && (Inv.etl_nr s =? slv_etl_nr) &&
                        (Inv.etl_reorded_gmts s <=? slv_lst_ts))
              investors.

(** The [ON] clause. *)
Definition join_on (b : Prcl.row) (s : Inv.row) : bool :=
  eq_num (Prcl.prop_attr_br_cnt b) (Inv.min_prop_attr_br_cnt (Inv.investor_profile s)) &&
  eq_num (Prcl.prop_attr_bth_cnt b) (Inv.min_prop_attr_bth_cnt (Inv.investor_profile s)) &&
  eq_num (Prcl.prop_attr_sqft_nr b) (Inv.min_sqft (Inv.investor_profile s)) &&
  ge_num (Prcl.prop_yr_blt_nr b) (Inv.min_year (Inv.investor_profile s)) &&
  in_text (Prcl.prop_zip_cd b) (Inv.list_zips (Inv.investor_profile s)).

(** [brnz LEFT JOIN slv ON ...]: every row of [brnz] with each row of
    [slv] it matches, or once with no investor when it matches none.
    SQL leaves the order of the result open; this is one order. *)
Definition matching_join (slv_watermark brnz_watermark : Z * Z)
    (parcels : list Prcl.row) (investors : list Inv.row)
    : list (Prcl.row * option Inv.row) :=
  let brnz := flagged_parcels (fst brnz_watermark) (snd brnz_watermark) parcels in
  let slv := active_profiles (fst slv_watermark) (snd slv_watermark) investors in
  flat_map (fun b =>
              match List.filter (join_on b) slv with
              | [] => [(b, None)]
              | matched => map (fun s => (b, Some s)) matched
              end)
           brnz.

(** The three kinds of row the loop can write: a sale at a positive
    price, a pending listing at whatever price, a delisted rental at a
    positive price. *)
Definition priced (r : Prcl.row) : Prop :=
  exists p, Prcl.prop_sale_amt r = Some p /\ 0 < p.

Definition written_kind (r : Prcl.row) : Prop :=
  (Prcl.prop_acty_status_cd r = Some "SALE" /\
   Prcl.prop_acty_sub_status_cd r = Some "SOLD" /\ priced r) \/
  (Prcl.prop_acty_status_cd r = Some "LISTING" /\
   Prcl.prop_acty_sub_status_cd r = Some "PENDING SALE") \/
  (Prcl.prop_acty_status_cd r = Some "RENTAL" /\
   Prcl.prop_acty_sub_status_cd r = Some "DELISTED FOR RENT" /\ priced r).

(** A sample API: one property at the address looked up, sold at
    310000 and later delisted for rent at 2100. *)
Definition sample_property : Parcl.property :=
  Parcl.mk_property 501 (Some 3) (Some (3 # 2)%Q) (Some 1450) (Some 1987)
    (Some "12 ELM ST") (Some "MEMPHIS") (Some "TN") (Some "SHELBY") (Some "38104")
    None None.

Definition sample_events : list Enrich.event :=
  [Enrich.mk_event "SALE" "SOLD" 20100 (Some "Acme LLC") (Some 310000);
   Enrich.mk_event "RENTAL" "DELISTED FOR RENT" 20150 (Some "Acme LLC") (Some 2100);
   Enrich.mk_event "LISTING" "PENDING SALE" 20090 None (Some 305000)].

Definition sample_api : Parcl.api :=
  Parcl.mk_api (fun _ => [sample_property])
               (fun _ _ => Parcl.mk_history 200 sample_events).

Definition sample_lookup : Parcl.lookup :=
  Parcl.mk_lookup (Some "12 Elm St") (Some "Memphis") (Some "TN") (Some "38104").

(** What the loop writes for [sample_lookup] under [sample_api], from
    key 10 in generation 3. *)
Definition sample_parcels : list Prcl.row :=
  match enrichment_loop sample_env sample_api 10 3 (now sample_env) [sample_lookup] with
  | inr groups => concat groups
  | inl _ => []
  end.

(** The two texts [rehouzd_function] formats: the 200 answer to a key
    that produced no value, and the 400 answer to an exception. *)
Definition hello_text (process_key : string) : string :=
  "Hello, " ++ process_key ++ " Not found. triggers executed successfully.".

Definition error_text (e : exn) : string :=
  "This HTTP triggered function executed successfully. And the error occured  - "
  ++ exn_str e ++ ".".

(** * Theorems *)

(** ** Event selection *)

Section EventSelection.
Import Enrich.

Lemma insert_desc_perm ev l : Permutation (insert_desc ev l) (ev :: l).
Proof.
  induction l as [|x l IH]; simpl.
  - reflexivity.
  - destruct (event_date ev <? event_date x).
    + rewrite IH. apply perm_swap.
    + reflexivity.
Qed.

Lemma sorted_desc_perm events : Permutation (sorted_desc events) events.
Proof.
  induction events as [|ev l IH]; simpl.
  - reflexivity.
  - rewrite insert_desc_perm. now constructor.
Qed.

Lemma sorted_desc_In events ev : In ev (sorted_desc events) <-> In ev events.
Proof.
  split; apply Permutation_in.
  - apply sorted_desc_perm.
  - symmetry. apply sorted_desc_perm.
Qed.

Lemma insert_desc_descending ev l : descending l -> descending (insert_desc ev l).
Proof.
  unfold descending. induction 1 as [|x l Hl IH Hx]; simpl.
  - constructor; constructor.
  - destruct (event_date ev <? event_date x) eqn:E.
    + constructor; [exact IH|].
      apply Z.ltb_lt in E.
      rewrite List.Forall_forall. intros y Hy.
      apply (Permutation_in _ (insert_desc_perm ev l)) in Hy.
      destruct Hy as [<-|Hy]; [lia|].
      rewrite List.Forall_forall in Hx. now apply Hx.
    + apply Z.ltb_ge in E.
      constructor; [now constructor|].
      constructor; [exact E|].
      rewrite List.Forall_forall in Hx |- *. intros y Hy.
      specialize (Hx y Hy). lia.
Qed.

Lemma sorted_desc_descending events : descending (sorted_desc events).
Proof.
  induction events as [|ev l IH]; simpl.
  - constructor.
  - now apply insert_desc_descending.
Qed.

(** In a descending list, the first event with a property is a most
    recent one among those that have it. *)
Lemma find_descending_latest (p : event -> bool) l ev :
  descending l -> List.find p l = Some ev ->
  forall ev', In ev' l -> p ev' = true -> event_date ev' <= event_date ev.
Proof.
  unfold descending. induction 1 as [|x l Hl IH Hx]; simpl; [discriminate|].
  destruct (p x) eqn:Px.
  - intros [= <-] ev' [<-|Hin] _; [lia|].
    rewrite List.Forall_forall in Hx. now apply Hx.
  - intros Hf ev' [<-|Hin] Hp; [congruence|]. now apply IH.
Qed.

(** The scan, when every event matching the primary pair carries a
    price: the first primary match with a positive price, else what
    the loop left in [fallback_event]. *)
Lemma scan_priced pt pn ft fn evs : forall pe fe,
  (forall ev, In ev evs -> matches pt pn ev = true -> price ev <> None) ->
  (forall x, pe = Some x -> exists p, price x = Some p /\ p <= 0) ->
  scan pt pn ft fn evs pe fe =
  Ok (match List.find (fun ev => matches pt pn ev && usable ev) evs with
      | Some ev => Some ev
      | None => last_fallback pt pn ft fn evs fe
      end).
Proof.
  induction evs as [|ev rest IH]; intros pe fe Hpr Hpe; simpl.
  - destruct pe as [x|]; simpl; [|reflexivity].
    destruct (Hpe x eq_refl) as (p & Hp & Hle).
    rewrite Hp. simpl.
    assert ((0 <? p) = false) as -> by (apply Z.ltb_ge; lia).
    reflexivity.
  - destruct (matches pt pn ev) eqn:Hm; simpl.
    + unfold usable.
      destruct (price ev) as [p|] eqn:Hp.
      * simpl. destruct (0 <? p) eqn:Hpos; [reflexivity|].
        apply IH.
        -- intros e He. apply Hpr. now right.
        -- intros x [= <-]. exists p. split; [exact Hp|]. apply Z.ltb_ge in Hpos. lia.
      * exfalso. apply (Hpr ev); auto. now left.
    + destruct (matches_fallback ft fn ev); apply IH; auto;
        intros e He; apply Hpr; now right.
Qed.

Lemma get_valid_event_priced events pt pn ft fn :
  (forall ev, In ev events -> matches pt pn ev = true -> price ev <> None) ->
  get_valid_event events pt pn ft fn =
  Ok (match List.find (fun ev => matches pt pn ev && usable ev) (sorted_desc events) with
      | Some ev => Some ev
      | None => last_fallback pt pn ft fn (sorted_desc events) None
      end).
Proof.
  intros Hpr. unfold get_valid_event. apply scan_priced.
  - intros ev Hin. apply Hpr. now apply sorted_desc_In.
  - discriminate.
Qed.

(** What [last_fallback] can hold. *)
Lemma last_fallback_cases pt pn ft fn evs : forall fe,
  (last_fallback pt pn ft fn evs fe = fe /\
   forall ev, In ev evs -> matches pt pn ev = true \/ matches_fallback ft fn ev = false) \/
  (exists ev, last_fallback pt pn ft fn evs fe = Some ev /\ In ev evs /\
              matches pt pn ev = false /\ matches_fallback ft fn ev = true).
Proof.
  induction evs as [|ev rest IH]; intros fe; simpl.
  - left. split; [reflexivity|]. intros ev [].
  - destruct (matches pt pn ev) eqn:Hm.
    + destruct (IH fe) as [[E H]|(x & E & Hin & H)].
      * left. split; [exact E|]. intros e [<-|He]; auto.
      * right. exists x. auto.
    + destruct (matches_fallback ft fn ev) eqn:Hf.
      * destruct (IH (Some ev)) as [[E H]|(x & E & Hin & H)].
        -- right. exists ev. auto.
        -- right. exists x. auto.
      * destruct (IH fe) as [[E H]|(x & E & Hin & H)].
        -- left. split; [exact E|]. intros e [<-|He]; auto.
        -- right. exists x. auto.
Qed.

(** With a usable primary match the selection is the most recent one. *)
Lemma get_valid_event_primary events pt pn ft fn :
  primary_priced events pt pn ->
  (exists ev', In ev' events /\ matches pt pn ev' = true /\ usable ev' = true) ->
  exists ev, get_valid_event events pt pn ft fn = Ok (Some ev) /\
             latest_usable_primary events pt pn ev.
Proof.
  intros Hpr (ev' & Hin & Hm & Hu).
  rewrite (get_valid_event_priced _ _ _ _ _ Hpr).
  destruct (List.find (fun ev => matches pt pn ev && usable ev) (sorted_desc events))
    as [ev|] eqn:Hf.
  - exists ev. split; [reflexivity|].
    destruct (find_some _ _ Hf) as [Hev Hp].
    apply andb_true_iff in Hp as [Hp1 Hp2].
    repeat split; auto.
    + now apply sorted_desc_In.
    + intros x Hx Hxm Hxu.
      apply (find_descending_latest _ _ _ (sorted_desc_descending events) Hf).
      * now apply sorted_desc_In.
      * now rewrite Hxm, Hxu.
  - exfalso.
    apply sorted_desc_In in Hin.
    pose proof (find_none _ _ Hf ev' Hin) as Hn. simpl in Hn.
    rewrite Hm, Hu in Hn. discriminate.
Qed.

(** Without one, the selection is what the scan left as fallback. *)
Lemma get_valid_event_fallback events pt pn ft fn :
  primary_priced events pt pn ->
  no_usable_primary events pt pn ->
  get_valid_event events pt pn ft fn =
  Ok (last_fallback pt pn ft fn (sorted_desc events) None).
Proof.
  intros Hpr Hno.
  rewrite (get_valid_event_priced _ _ _ _ _ Hpr).
  destruct (List.find (fun ev => matches pt pn ev && usable ev) (sorted_desc events))
    as [ev|] eqn:Hf; [|reflexivity].
  destruct (find_some _ _ Hf) as [Hev Hp].
  apply andb_true_iff in Hp as [Hp1 Hp2].
  apply -> sorted_desc_In in Hev.
  rewrite (Hno ev Hev Hp1) in Hp2. discriminate.
Qed.

Lemma last_fallback_none pt pn evs : forall fe,
  last_fallback pt pn None None evs fe = fe.
Proof.
  induction evs as [|ev rest IH]; intros fe; simpl; [reflexivity|].
  rewrite IH. now destruct (matches pt pn ev).
Qed.

(** C3 (as amended). When every event matching the primary pair carries
    a price, [get_valid_event] returns a most recent event that matches
    the primary pair with a price above 0 if there is one; otherwise it
    returns an event matching the secondary pair (and not the primary)
    when the list has one, and nothing when it has none, so a primary
    match with price 0 is never returned. For the list of a SALE/SOLD
    event at price 0 and a LISTING/PENDING_SALE event at 150000, in
    either order and at any dates, it returns the listing event. *)
Theorem get_valid_event_selection events pt pn ft fn :
  primary_priced events pt pn ->
  ((exists ev', In ev' events /\ matches pt pn ev' = true /\ usable ev' = true) ->
   exists ev, get_valid_event events pt pn ft fn = Ok (Some ev) /\
              latest_usable_primary events pt pn ev) /\
  (no_usable_primary events pt pn ->
   exists r, get_valid_event events pt pn ft fn = Ok r /\
     (r = None <->
      forall ev, In ev events -> matches pt pn ev = true \/ matches_fallback ft fn ev = false) /\
     (forall ev, r = Some ev ->
        In ev events /\ matches pt pn ev = false /\ matches_fallback ft fn ev = true)) /\
  (forall d1 d2 o1 o2,
     get_valid_event [sold_at_zero d1 o1; pending_sale d2 o2]
       "SALE" "SOLD" (Some "LISTING") (Some "PENDING_SALE") = Ok (Some (pending_sale d2 o2)) /\
     get_valid_event [pending_sale d2 o2; sold_at_zero d1 o1]
       "SALE" "SOLD" (Some "LISTING") (Some "PENDING_SALE") = Ok (Some (pending_sale d2 o2))).
Proof.
  intros Hpr. split; [|split].
  - now apply get_valid_event_primary.
  - intros Hno. rewrite (get_valid_event_fallback _ _ _ ft fn Hpr Hno).
    eexists. split; [reflexivity|].
    destruct (last_fallback_cases pt pn ft fn (sorted_desc events) None)
      as [[E H]|(x & E & Hin & Hm & Hf)]; rewrite E.
    + split.
      * split; [|reflexivity]. intros _ ev Hev. apply H. now apply sorted_desc_In.
      * discriminate.
    + split.
      * split; [discriminate|]. intros H. exfalso.
        apply -> sorted_desc_In in Hin.
        destruct (H x Hin) as [C|C]; congruence.
      * intros ev [= <-]. repeat split; auto. now apply sorted_desc_In.
  - intros d1 d2 o1 o2. unfold get_valid_event. simpl.
    split.
    + destruct (d1 <? d2); reflexivity.
    + destruct (d2 <? d1); reflexivity.
Qed.

Lemma get_valid_event_selection_witness :
  primary_priced [sold_at_zero 10 None; pending_sale 5 None] "SALE" "SOLD" /\
  no_usable_primary [sold_at_zero 10 None; pending_sale 5 None] "SALE" "SOLD" /\
  exists r, get_valid_event [sold_at_zero 10 None; pending_sale 5 None]
              "SALE" "SOLD" (Some "LISTING") (Some "PENDING_SALE") = Ok r /\
    (r = None <->
     forall ev, In ev [sold_at_zero 10 None; pending_sale 5 None] ->
                matches "SALE" "SOLD" ev = true \/
                matches_fallback (Some "LISTING") (Some "PENDING_SALE") ev = false) /\
    (forall ev, r = Some ev ->
       In ev [sold_at_zero 10 None; pending_sale 5 None] /\
       matches "SALE" "SOLD" ev = false /\
       matches_fallback (Some "LISTING") (Some "PENDING_SALE") ev = true).
Proof.
  assert (H : primary_priced [sold_at_zero 10 None; pending_sale 5 None] "SALE" "SOLD").
  { intros ev [<-|[<-|[]]]; simpl; congruence. }
  assert (H' : no_usable_primary [sold_at_zero 10 None; pending_sale 5 None] "SALE" "SOLD").
  { intros ev [<-|[<-|[]]]; vm_compute; congruence. }
  split; [exact H|]. split; [exact H'|].
  exact (proj1 (proj2 (get_valid_event_selection
           [sold_at_zero 10 None; pending_sale 5 None] "SALE" "SOLD"
           (Some "LISTING") (Some "PENDING_SALE") H)) H').
Defined.

(** C3 fails as stated. A lone SALE/SOLD event at price 0 is found but
    not returned; a zero-priced latest sale does not stop an older,
    priced sale from winning over the pending listing; and of two
    pending listings the older one is returned. *)
Lemma get_valid_event_differs_from_spec :
  (get_valid_event [sold_at_zero 3 None] "SALE" "SOLD" (Some "LISTING") (Some "PENDING_SALE")
     = Ok None /\
   spec_select [sold_at_zero 3 None] "SALE" "SOLD" "LISTING" "PENDING_SALE"
     = Some (sold_at_zero 3 None)) /\
  (get_valid_event
     [sold_at_zero 3 None; pending_sale 2 None; mk_event "SALE" "SOLD" 1 None (Some 100)]
     "SALE" "SOLD" (Some "LISTING") (Some "PENDING_SALE")
     = Ok (Some (mk_event "SALE" "SOLD" 1 None (Some 100))) /\
   spec_select
     [sold_at_zero 3 None; pending_sale 2 None; mk_event "SALE" "SOLD" 1 None (Some 100)]
     "SALE" "SOLD" "LISTING" "PENDING_SALE"
     = Some (pending_sale 2 None)) /\
  (get_valid_event [sold_at_zero 3 None; pending_sale 2 None; pending_sale 1 None]
     "SALE" "SOLD" (Some "LISTING") (Some "PENDING_SALE")
     = Ok (Some (pending_sale 1 None)) /\
   spec_select [sold_at_zero 3 None; pending_sale 2 None; pending_sale 1 None]
     "SALE" "SOLD" "LISTING" "PENDING_SALE"
     = Some (pending_sale 2 None)).
Proof. repeat split; reflexivity. Qed.

(** Called without a fallback pair, on events whose primary
    matches carry a price, [get_valid_event] returns a most recent
    event matching the primary pair with a price above 0, and nothing
    when no primary match has a positive price; a lone rental event at
    price 0 gives nothing. *)
Theorem get_valid_event_without_fallback events pt pn :
  primary_priced events pt pn ->
  ((exists ev', In ev' events /\ matches pt pn ev' = true /\ usable ev' = true) ->
   exists ev, get_valid_event events pt pn None None = Ok (Some ev) /\
              latest_usable_primary events pt pn ev) /\
  (no_usable_primary events pt pn -> get_valid_event events pt pn None None = Ok None) /\
  (forall d o,
     get_valid_event [mk_event "RENTAL" "DELISTED FOR RENT" d o (Some 0)]
       "RENTAL" "DELISTED FOR RENT" None None = Ok None).
Proof.
  intros Hpr. split; [|split].
  - now apply get_valid_event_primary.
  - intros Hno. rewrite (get_valid_event_fallback _ _ _ None None Hpr Hno).
    now rewrite last_fallback_none.
  - reflexivity.
Qed.

Lemma get_valid_event_without_fallback_witness :
  primary_priced
    [mk_event "RENTAL" "DELISTED FOR RENT" 7 None (Some 0);
     mk_event "RENTAL" "DELISTED FOR RENT" 4 None (Some 1200)]
    "RENTAL" "DELISTED FOR RENT" /\
  exists ev,
    get_valid_event
      [mk_event "RENTAL" "DELISTED FOR RENT" 7 None (Some 0);
       mk_event "RENTAL" "DELISTED FOR RENT" 4 None (Some 1200)]
      "RENTAL" "DELISTED FOR RENT" None None = Ok (Some ev) /\
    latest_usable_primary
      [mk_event "RENTAL" "DELISTED FOR RENT" 7 None (Some 0);
       mk_event "RENTAL" "DELISTED FOR RENT" 4 None (Some 1200)]
      "RENTAL" "DELISTED FOR RENT" ev.
Proof.
  assert (H : primary_priced
    [mk_event "RENTAL" "DELISTED FOR RENT" 7 None (Some 0);
     mk_event "RENTAL" "DELISTED FOR RENT" 4 None (Some 1200)]
    "RENTAL" "DELISTED FOR RENT").
  { intros ev [<-|[<-|[]]]; simpl; congruence. }
  split; [exact H|].
  apply (proj1 (get_valid_event_without_fallback _ "RENTAL" "DELISTED FOR RENT" H)).
  exists (mk_event "RENTAL" "DELISTED FOR RENT" 4 None (Some 1200)).
  repeat split. right. now left.
Defined.

(** C10 at its failing input. A rental event without a price: the
    comparison of the absent price with 0 raises, where the claim has
    nothing returned; and when it is the most recent rental event, it
    raises also before an older rental event at a positive price, which
    the claim has returned. The last line of [get_valid_event] tests
    the price against [None] only after it has compared it with 0. *)
Theorem get_valid_event_unpriced_match_raises :
  (forall d o,
     get_valid_event [mk_event "RENTAL" "DELISTED FOR RENT" d o None]
       "RENTAL" "DELISTED FOR RENT" None None =
     Raise (TypeError "'>' not supported between instances of 'NoneType' and 'int'")) /\
  get_valid_event
    [mk_event "RENTAL" "DELISTED FOR RENT" 20100 None (Some 2100);
     mk_event "RENTAL" "DELISTED FOR RENT" 20200 None None]
    "RENTAL" "DELISTED FOR RENT" None None =
  Raise (TypeError "'>' not supported between instances of 'NoneType' and 'int'").
Proof.
  split.
  - intros d o. reflexivity.
  - reflexivity.
Qed.

End EventSelection.

(** ** Watermark registry *)

Section Watermark.

Lemma sql_max_none column :
  Sql.sql_max column = None -> forall x, ~ In (Some x) column.
Proof.
  induction column as [|[v|] rest IH]; simpl; intros H x.
  - intros [].
  - destruct (Sql.sql_max rest); discriminate.
  - intros [C|C]; [discriminate|]. now apply (IH H x).
Qed.

Lemma sql_max_some column m :
  Sql.sql_max column = Some m ->
  In (Some m) column /\ forall x, In (Some x) column -> x <= m.
Proof.
  revert m. induction column as [|[v|] rest IH]; simpl; intros m H.
  - discriminate.
  - destruct (Sql.sql_max rest) as [m'|] eqn:E.
    + injection H as <-. destruct (IH m' eq_refl) as [Hin Hle].
      split.
      * destruct (Z.max_spec v m') as [[_ ->]|[_ ->]]; auto.
      * intros x [[= <-]|Hx]; [lia|]. specialize (Hle x Hx). lia.
    + injection H as <-. split; [now left|].
      intros x [[= <-]|Hx]; [lia|]. now destruct (sql_max_none _ E x).
  - destruct (IH m H) as [Hin Hle]. split; [now right|].
    intros x [C|Hx]; [discriminate|]. now apply Hle.
Qed.

Lemma coalesce_sql_max default column :
  Sql.max_or default column (Sql.coalesce (Sql.sql_max column) default).
Proof.
  unfold Sql.max_or. destruct (Sql.sql_max column) as [m|] eqn:E; simpl.
  - destruct (sql_max_some _ _ E) as [Hin Hle].
    repeat split; auto. intros H. now destruct (H m).
  - pose proof (sql_max_none _ E) as Hn.
    repeat split; auto.
    + intros x Hx. now destruct (Hn x).
    + intros [x Hx]. now destruct (Hn x).
Qed.

Lemma tracker_rows_of_In tbl_name d r :
  In r (tracker_rows_of tbl_name d) <->
  In r (adf_load_tracker d) /\ Tracker.tbl_nm r = tbl_name.
Proof.
  unfold tracker_rows_of. rewrite filter_In, String.eqb_eq. reflexivity.
Qed.

Lemma watermark_window_In ts nr d r :
  In r (watermark_window ts nr d) <->
  In r (brnz_prps_prop_sales_dtl d) /\ Brnz.etl_nr r = nr /\ Brnz.etl_recorded_gmts r <= ts.
Proof.
  unfold watermark_window. rewrite filter_In, andb_true_iff, Z.eqb_eq, Z.leb_le.
  reflexivity.
Qed.

(** A database call that does not fail returns what the query reads
    and leaves the connection as it is. *)
Lemma fetch_ok {A} (query : db -> A) env w :
  faulty env (calls w) = false ->
  fetch query env w = (Ok (query (working (conn w))), mk_world (conn w) (S (calls w))).
Proof.
  intros H. unfold fetch, db_call. rewrite H. now destruct w as [[c wk] n].
Qed.

Lemma get_last_etl_ts_ok tbl_name env w :
  faulty env (calls w) = false ->
  get_last_etl_ts tbl_name env w =
  (Ok (last_etl_ts_query tbl_name (working (conn w))), mk_world (conn w) (S (calls w))).
Proof.
  intros H. unfold get_last_etl_ts, rewrap, bind. rewrite (fetch_ok _ _ _ H).
  unfold last_etl_ts_query. reflexivity.
Qed.

(** C6 (as amended). Reading the watermark of a table returns the
    largest [last_loaded_ts] and the largest [etl_nr] recorded for that
    table name, and (1970-01-01, 0) when nothing is recorded for it;
    with that default a watermark-bounded stage reads only the raw rows
    of generation 0 recorded at or before 1970-01-01, not the whole
    history. *)
Theorem get_last_etl_ts_watermark tbl_name env w :
  faulty env (calls w) = false ->
  exists lst_ts etl_nr,
    get_last_etl_ts tbl_name env w =
      (Ok (lst_ts, etl_nr), mk_world (conn w) (S (calls w))) /\
    Sql.max_or epoch (map Tracker.last_loaded_ts (tracker_rows_of tbl_name (working (conn w)))) lst_ts /\
    Sql.max_or 0 (map Tracker.etl_nr (tracker_rows_of tbl_name (working (conn w)))) etl_nr /\
    (forall r, In r (tracker_rows_of tbl_name (working (conn w))) <->
               In r (adf_load_tracker (working (conn w))) /\ Tracker.tbl_nm r = tbl_name) /\
    (tracker_rows_of tbl_name (working (conn w)) = [] ->
     lst_ts = epoch /\ etl_nr = 0 /\
     forall d r, In r (watermark_window lst_ts etl_nr d) <->
                 In r (brnz_prps_prop_sales_dtl d) /\
                 Brnz.etl_nr r = 0 /\ Brnz.etl_recorded_gmts r <= epoch).
Proof.
  intros H. rewrite (get_last_etl_ts_ok _ _ _ H). unfold last_etl_ts_query.
  eexists _, _. split; [reflexivity|].
  split; [apply coalesce_sql_max|].
  split; [apply coalesce_sql_max|].
  split; [intros r; apply tracker_rows_of_In|].
  intros ->. simpl. split; [reflexivity|]. split; [reflexivity|].
  intros d r. apply watermark_window_In.
Qed.

Lemma get_last_etl_ts_watermark_witness :
  faulty sample_env (calls (connect tracked_db)) = false /\
  exists lst_ts etl_nr,
    get_last_etl_ts raw_table sample_env (connect tracked_db) =
      (Ok (lst_ts, etl_nr), mk_world (conn (connect tracked_db)) 1) /\
    lst_ts = 1741000000 /\ etl_nr = 2.
Proof.
  split; [reflexivity|].
  destruct (get_last_etl_ts_watermark raw_table sample_env (connect tracked_db) eq_refl)
    as (lst_ts & etl_nr & Hrun & _).
  exists lst_ts, etl_nr. split; [exact Hrun|].
  vm_compute in Hrun. injection Hrun as <- <-. split; reflexivity.
Defined.

(** C6 fails as stated. With no watermark recorded the read gives
    (1970-01-01, 0), and the window this bounds is empty although the
    raw table holds a sale: the first run does not see the history. *)
Lemma first_run_window_misses_history :
  get_last_etl_ts raw_table sample_env (connect first_run_db) =
    (Ok (epoch, 0), mk_world (conn (connect first_run_db)) 1) /\
  brnz_prps_prop_sales_dtl first_run_db <> [] /\
  watermark_window epoch 0 first_run_db = [] /\
  sales_query epoch 0 first_run_db = [].
Proof. repeat split; try reflexivity. discriminate. Qed.

End Watermark.

(** ** Aggregation stage *)

Section Aggregation.

Lemma not_null_true {A} (x : option A) : Sql.not_null x = true <-> x <> None.
Proof. destruct x; simpl; split; congruence. Qed.

Lemma aggregation_input_In today d r :
  In r (aggregation_input today d) <->
  In r (brnz_prps_prop_sales_dtl d) /\
  in_trailing_12_months today r = true /\ required_not_null r = true.
Proof.
  unfold aggregation_input, where_clause. now rewrite filter_In, andb_true_iff.
Qed.

Lemma in_trailing_12_months_true today r :
  in_trailing_12_months today r = true <->
  exists dt, Brnz.prop_last_sale_dt r = Some dt /\
             Sql.date_leb dt today = true /\
             Sql.date_leb (Sql.minus_12_months today) dt = true.
Proof.
  unfold in_trailing_12_months. destruct (Brnz.prop_last_sale_dt r) as [dt|].
  - rewrite andb_true_iff. split.
    + intros H. now exists dt.
    + now intros (dt' & [= <-] & H).
  - split; [discriminate|]. now intros (dt & C & _).
Qed.

Lemma required_not_null_true r :
  required_not_null r = true <->
  Brnz.investor_company_nm_txt r <> None /\ Brnz.prop_attr_br_cnt r <> None /\
  Brnz.prop_attr_bth_cnt r <> None /\ Brnz.prop_last_sale_amt r <> None /\
  Brnz.prop_yr_blt_nr r <> None /\ Brnz.prop_attr_sqft_nr r <> None /\
  Brnz.prop_zip_cd r <> None.
Proof.
  unfold required_not_null. rewrite !andb_true_iff, !not_null_true. tauto.
Qed.

(** C4 (as amended). The rows the aggregation runs on are exactly the
    raw rows whose sale date lies in the trailing twelve months and
    whose seven required columns are not NULL. The watermark is not
    part of the selection: rows of every generation and recording time
    that pass these filters are included, whatever the registry holds,
    and the rows a watermark would admit are among them. *)
Theorem aggregation_input_rows today d :
  (forall r, In r (aggregation_input today d) <->
     In r (brnz_prps_prop_sales_dtl d) /\
     (exists dt, Brnz.prop_last_sale_dt r = Some dt /\
                 Sql.date_leb dt today = true /\
                 Sql.date_leb (Sql.minus_12_months today) dt = true) /\
     Brnz.investor_company_nm_txt r <> None /\ Brnz.prop_attr_br_cnt r <> None /\
     Brnz.prop_attr_bth_cnt r <> None /\ Brnz.prop_last_sale_amt r <> None /\
     Brnz.prop_yr_blt_nr r <> None /\ Brnz.prop_attr_sqft_nr r <> None /\
     Brnz.prop_zip_cd r <> None) /\
  (forall registry,
     aggregation_input today
       (mk_db registry (brnz_prps_prop_sales_dtl d) (slvr_int_inv_dtl d) (slvr_int_prop_sales_dlt d))
     = aggregation_input today d) /\
  (forall watermark r,
     In r (spec_aggregation_input watermark today d) -> In r (aggregation_input today d)).
Proof.
  split; [|split].
  - intros r.
    rewrite aggregation_input_In, in_trailing_12_months_true, required_not_null_true.
    reflexivity.
  - reflexivity.
  - intros watermark r. unfold spec_aggregation_input, aggregation_input.
    rewrite !filter_In, !andb_true_iff. tauto.
Qed.

(** C4 fails as stated. The watermark of the raw table stands at
    generation 2, yet the sale of generation 1 is aggregated. *)
Lemma aggregation_input_crosses_watermark :
  last_etl_ts_query raw_table acme_db = (1741000000, 2) /\
  aggregation_input (today sample_env) acme_db = brnz_prps_prop_sales_dtl acme_db /\
  length (spec_aggregation_input (1741000000, 2) (today sample_env) acme_db) = 2%nat /\
  exists r, In r (aggregation_input (today sample_env) acme_db) /\
            Brnz.etl_nr r = 1 /\
            ~ In r (spec_aggregation_input (1741000000, 2) (today sample_env) acme_db).
Proof.
  repeat split.
  exists (sample_brnz 1 1 1740000000 "Acme LLC" (Sql.mk_date 2025 3 1) 90000 1987 1450
            "38104" "12 Elm St").
  split; [now left|]. split; [reflexivity|].
  unfold spec_aggregation_input. rewrite filter_In. intros [_ C]. discriminate C.
Qed.

Lemma sql_min_some column m :
  Sql.sql_min column = Some m -> Sql.min_of column m.
Proof.
  unfold Sql.min_of. revert m.
  induction column as [|[v|] rest IH]; simpl; intros m H.
  - discriminate.
  - destruct (Sql.sql_min rest) as [m'|] eqn:E.
    + injection H as <-. destruct (IH m' eq_refl) as [Hin Hle].
      split.
      * destruct (Z.min_spec v m') as [[_ ->]|[_ ->]]; auto.
      * intros x [[= <-]|Hx]; [lia|]. specialize (Hle x Hx). lia.
    + injection H as <-. split; [now left|].
      intros x [[= <-]|Hx]; [lia|].
      exfalso. clear IH. induction rest as [|[y|] rest IH]; simpl in *.
      * destruct Hx.
      * destruct (Sql.sql_min rest); discriminate.
      * destruct Hx as [C|Hx]; [discriminate|]. auto.
  - destruct (IH m H) as [Hin Hle]. split; [now right|].
    intros x [C|Hx]; [discriminate|]. now apply Hle.
Qed.

(** A column without NULLs over at least one row has a minimum. *)
Lemma sql_min_defined {A} (col : A -> option Z) (g : list A) :
  g <> [] -> (forall r, In r g -> col r <> None) ->
  exists m, Sql.sql_min (map col g) = Some m.
Proof.
  destruct g as [|r g]; [congruence|]. intros _ H. simpl.
  destruct (col r) as [v|] eqn:E.
  - destruct (Sql.sql_min (map col g)); eauto.
  - exfalso. apply (H r); auto. now left.
Qed.

Lemma group_names_NoDup rows : NoDup (group_names rows).
Proof. apply NoDup_remove_dups. Qed.

Lemma group_names_In rows name :
  In name (group_names rows) <->
  exists r, In r rows /\ Brnz.investor_company_nm_txt r = Some name.
Proof.
  unfold group_names.
  rewrite <- list_elem_of_In, elem_of_remove_dups, list_elem_of_omap.
  split; intros (r & H1 & H2); exists r; split; auto; now apply list_elem_of_In.
Qed.

Lemma group_rows_In name rows r :
  In r (group_rows name rows) <->
  In r rows /\ Brnz.investor_company_nm_txt r = Some name.
Proof.
  unfold group_rows. rewrite filter_In.
  destruct (Brnz.investor_company_nm_txt r) as [s|]; simpl.
  - rewrite String.eqb_eq. split; intros [H1 H2]; split; congruence.
  - split; intros [H1 H2]; discriminate.
Qed.

(** The window of a name holds the one grouped row of that name. *)
Lemma window_of_name (f : string -> list Brnz.row) names name :
  NoDup names -> In name names ->
  List.filter (fun ng : string * list Brnz.row => String.eqb (fst ng) name)
              (map (fun n => (n, f n)) names) = [(name, f name)].
Proof.
  induction 1 as [|n names Hn Hnd IH]; simpl; [intros []|].
  rewrite list_elem_of_In in Hn.
  intros [->|Hin].
  - rewrite String.eqb_refl. f_equal.
    clear IH Hnd. induction names as [|m names IH]; simpl; [reflexivity|].
    destruct (String.eqb m name) eqn:E.
    + apply String.eqb_eq in E. subst. exfalso. apply Hn. now left.
    + apply IH. intros C. apply Hn. now right.
  - destruct (String.eqb n name) eqn:E.
    + apply String.eqb_eq in E. subst. contradiction.
    + now apply IH.
Qed.

Lemma aggregation_query_In yr_ty sqft_ty today d g :
  In g (aggregation_query yr_ty sqft_ty today d) <->
  exists name,
    In name (group_names (aggregation_input today d)) /\
    g = aggregate_group yr_ty sqft_ty (grouped (aggregation_input today d))
          (name, group_rows name (aggregation_input today d)).
Proof.
  unfold aggregation_query, grouped. rewrite map_map, in_map_iff.
  split; intros (name & H1 & H2); exists name; split; auto.
Qed.

Lemma floor_div10_times10_floor ty x :
  ty = Sql.NumericCol \/ 0 <= x -> Sql.floor_div10_times10 ty x = x / 10 * 10.
Proof.
  destruct ty; simpl; intros [H|H]; try reflexivity; try discriminate.
  now rewrite Z.quot_div_nonneg by lia.
Qed.

(** C7 (as amended). Every row of the aggregation carries the number
    of rows of its group, an active flag that is set exactly when that number is at
    least 2 (also on the inserted investor row), and year and
    square-footage buckets equal to floor(min / 10) * 10 of the group
    minimum (for a numeric column, or a non-negative minimum on an
    integer column); and every investor of the input gets a row,
    whatever the size of its group. *)
Theorem aggregation_row_flags yr_ty sqft_ty today d :
  (forall g, In g (aggregation_query yr_ty sqft_ty today d) ->
     let rows := group_rows (Agg.investor_company_nm_txt g) (aggregation_input today d) in
     rows <> [] /\
     Agg.num_properties g = count_rows rows /\
     Agg.active_flag g = (if 2 <=? count_rows rows then 1 else 0) /\
     (forall env sk nr,
        Inv.active_flg (inv_row_of env sk nr g) = (2 <=? count_rows rows) /\
        Inv.num_prop_purchased_lst_12_mths_nr (inv_row_of env sk nr g) = count_rows rows /\
        Inv.min_year (Inv.investor_profile (inv_row_of env sk nr g)) = Agg.min_years g /\
        Inv.min_sqft (Inv.investor_profile (inv_row_of env sk nr g)) = Agg.min_sqft g) /\
     exists min_yr min_sqft,
       Sql.min_of (map Brnz.prop_yr_blt_nr rows) min_yr /\
       Sql.min_of (map Brnz.prop_attr_sqft_nr rows) min_sqft /\
       (yr_ty = Sql.NumericCol \/ 0 <= min_yr -> Agg.min_years g = min_yr / 10 * 10) /\
       (sqft_ty = Sql.NumericCol \/ 0 <= min_sqft -> Agg.min_sqft g = min_sqft / 10 * 10)) /\
  (forall r name,
     In r (aggregation_input today d) -> Brnz.investor_company_nm_txt r = Some name ->
     exists g, In g (aggregation_query yr_ty sqft_ty today d) /\
               Agg.investor_company_nm_txt g = name).
Proof.
  split.
  - intros g Hg. apply aggregation_query_In in Hg as (name & Hname & ->).
    cbn [aggregate_group Agg.investor_company_nm_txt Agg.num_properties Agg.active_flag
         Agg.min_years Agg.min_sqft].
    set (rows := group_rows name (aggregation_input today d)).
    assert (Hne : rows <> []).
    { apply group_names_In in Hname as (r & Hr & Hn).
      assert (Hin : In r rows) by (apply group_rows_In; auto).
      intros E. rewrite E in Hin. destruct Hin. }
    assert (Hflag : active_flag_window (grouped (aggregation_input today d)) name
                    = if 2 <=? count_rows rows then 1 else 0).
    { unfold active_flag_window, grouped.
      rewrite (window_of_name _ _ _ (group_names_NoDup _) Hname). simpl.
      fold rows. destruct (2 <=? count_rows rows); reflexivity. }
    split; [exact Hne|]. split; [reflexivity|]. split; [exact Hflag|].
    split.
    { intros env sk nr. cbn. rewrite Hflag. fold rows.
      destruct (2 <=? count_rows rows); repeat split; reflexivity. }
    assert (Hreq : forall r, In r rows -> required_not_null r = true).
    { intros r Hr. apply group_rows_In in Hr as [Hr _].
      now apply aggregation_input_In in Hr. }
    destruct (sql_min_defined Brnz.prop_yr_blt_nr rows Hne) as [my Hy].
    { intros r Hr. apply Hreq, required_not_null_true in Hr. tauto. }
    destruct (sql_min_defined Brnz.prop_attr_sqft_nr rows Hne) as [ms Hs].
    { intros r Hr. apply Hreq, required_not_null_true in Hr. tauto. }
    exists my, ms. rewrite Hy, Hs. simpl.
    split; [now apply sql_min_some|]. split; [now apply sql_min_some|].
    split; apply floor_div10_times10_floor.
  - intros r name Hr Hn.
    exists (aggregate_group yr_ty sqft_ty (grouped (aggregation_input today d))
              (name, group_rows name (aggregation_input today d))).
    split; [|reflexivity].
    apply aggregation_query_In. exists name. split; [|reflexivity].
    apply group_names_In. eauto.
Qed.

Lemma aggregation_row_flags_witness :
  In acme_row (aggregation_query Sql.IntegerCol Sql.IntegerCol (today sample_env) acme_db) /\
  Agg.num_properties acme_row = 2 /\
  Agg.active_flag acme_row = 1 /\
  Inv.active_flg (inv_row_of sample_env 1 1 acme_row) = true /\
  Agg.min_years acme_row = 1980 /\
  Agg.min_sqft acme_row = 1450.
Proof.
  assert (Hin : In acme_row
            (aggregation_query Sql.IntegerCol Sql.IntegerCol (today sample_env) acme_db)).
  { apply aggregation_query_In. exists "Acme LLC". split; [|reflexivity].
    vm_compute. now left. }
  split; [exact Hin|].
  destruct (proj1 (aggregation_row_flags Sql.IntegerCol Sql.IntegerCol
                     (today sample_env) acme_db) acme_row Hin)
    as (_ & Hcount & Hflag & Hrow & min_yr & min_sqft & Hy & Hs & Hby & Hbs).
  destruct (Hrow sample_env 1 1) as (Hact & _).
  split; [rewrite Hcount; reflexivity|].
  split; [rewrite Hflag; reflexivity|].
  split; [rewrite Hact; reflexivity|].
  assert (Ey : min_yr = 1987).
  { destruct Hy as [Hy1 Hy2]. vm_compute in Hy1.
    specialize (Hy2 1987). vm_compute in Hy2.
    destruct Hy1 as [[= <-]|[[= <-]|[]]]; [reflexivity|].
    exfalso. apply Hy2; auto. }
  assert (Es : min_sqft = 1450).
  { destruct Hs as [Hs1 Hs2]. vm_compute in Hs1.
    specialize (Hs2 1450). vm_compute in Hs2.
    destruct Hs1 as [[= <-]|[[= <-]|[]]]; [reflexivity|].
    exfalso. apply Hs2; auto. }
  subst. split.
  - rewrite Hby by (right; lia). reflexivity.
  - rewrite Hbs by (right; lia). reflexivity.
Defined.

(** C7 fails as stated. On an integer column the division of the query
    truncates toward zero before FLOOR is applied: a group whose
    smallest year built is -5 gets the bucket 0, and floor(-5 / 10) * 10
    is -10. *)
Lemma integer_bucket_is_not_the_floor :
  map Brnz.prop_yr_blt_nr (aggregation_input (today sample_env) below_zero_db) = [Some (-5)] /\
  map Agg.min_years
      (aggregation_query Sql.IntegerCol Sql.IntegerCol (today sample_env) below_zero_db) = [0] /\
  (-5) / 10 * 10 = -10 /\
  map Agg.min_years
      (aggregation_query Sql.IntegerCol Sql.IntegerCol (today sample_env) below_zero_db)
    <> [(-5) / 10 * 10].
Proof.
  split; [reflexivity|]. split; [reflexivity|]. split; [reflexivity|].
  vm_compute. discriminate.
Qed.

End Aggregation.

(** ** Runs without faults *)

Section FaultFreeRuns.

Variable env : environment.
Hypothesis no_faults : fault_free env.

Lemma execute_ok stmt w :
  execute stmt env w =
  (Ok tt, mk_world (mk_conn (committed (conn w)) (stmt (working (conn w)))) (S (calls w))).
Proof. unfold execute, db_call. now rewrite no_faults. Qed.

Lemma commit_ok w :
  commit env w =
  (Ok tt, mk_world (mk_conn (working (conn w)) (working (conn w))) (S (calls w))).
Proof. unfold commit, db_call. now rewrite no_faults. Qed.

Lemma return_query_res_ok {A} (query : db -> A) w :
  return_query_res query env w =
  (Ok (query (working (conn w)), None), mk_world (conn w) (S (calls w))).
Proof.
  unfold return_query_res, rewrap, bind. now rewrite fetch_ok by apply no_faults.
Qed.

Lemma insert_records_ok records : forall sk nr w,
  insert_records records sk nr env w =
  (Ok tt,
   mk_world
     (mk_conn (committed (conn w))
        (mk_db (adf_load_tracker (working (conn w)))
               (brnz_prps_prop_sales_dtl (working (conn w)))
               (slvr_int_inv_dtl (working (conn w)) ++ new_inv_rows env records sk nr)
               (slvr_int_prop_sales_dlt (working (conn w)))))
     (calls w + length records)).
Proof.
  induction records as [|row rest IH]; intros sk nr w; simpl.
  - unfold ret. destruct w as [[c [t b i s]] n]. simpl.
    now rewrite app_nil_r, Nat.add_0_r.
  - unfold bind, ask. rewrite execute_ok, IH. simpl.
    unfold insert_query. simpl. rewrite <- app_assoc. simpl.
    repeat f_equal. lia.
Qed.

Lemma upsert_table_ok records slv_pk etl_nr w :
  upsert_table records slv_pk etl_nr env w =
  (Ok (now env, etl_nr + 1),
   let d := mk_db (adf_load_tracker (working (conn w)))
                  (brnz_prps_prop_sales_dtl (working (conn w)))
                  (inv_table_after env records slv_pk etl_nr (slvr_int_inv_dtl (working (conn w))))
                  (slvr_int_prop_sales_dlt (working (conn w))) in
   mk_world (mk_conn d d) (S (S (S (calls w))) + length records)).
Proof.
  unfold upsert_table, rewrap, bind, ask, ret.
  rewrite execute_ok, commit_ok, insert_records_ok, commit_ok. simpl.
  unfold inv_table_after. repeat f_equal; lia.
Qed.

Lemma upd_lookup_tbl_ok pipeline_nm ts nr w :
  upd_lookup_tbl pipeline_nm ts nr env w =
  (Ok tt,
   let mx_id :=
     match Sql.sql_max (map (fun r => Some (Tracker.tbl_id r))
                            (adf_load_tracker (working (conn w)))) with
     | None => 0
     | Some v => v
     end in
   let d := insert_tracker (Tracker.mk_row (mx_id + 1) pipeline_nm ts nr) (working (conn w)) in
   mk_world (mk_conn d d) (S (S (S (calls w))))).
Proof.
  unfold upd_lookup_tbl, rewrap, bind, ret.
  rewrite return_query_res_ok. simpl. rewrite execute_ok, commit_ok. reflexivity.
Qed.

(** A run of [process_slv_int_inv] in which no call fails ends
    normally and leaves [db_after_process_slv_int_inv]. *)
Lemma process_slv_int_inv_ok d :
  exists w', process_slv_int_inv env (connect d) = (Ok tt, w') /\
             durable w' = db_after_process_slv_int_inv env d.
Proof.
  unfold process_slv_int_inv, rewrap at 1, bind at 1, ask.
  unfold bind at 1. rewrite get_last_etl_ts_ok by apply no_faults.
  unfold bind at 1. rewrite return_query_res_ok.
  unfold bind at 1. rewrite return_query_res_ok.
  cbn [fst snd working conn connect calls].
  destruct (next_keys_query d) as [slv_pk etl_nr] eqn:Ek.
  unfold bind at 1. rewrite upsert_table_ok.
  unfold bind at 1. rewrite upd_lookup_tbl_ok.
  unfold end_process, rewrap. cbn.
  eexists. split; [reflexivity|].
  unfold durable, db_after_process_slv_int_inv. rewrite Ek. reflexivity.
Qed.

End FaultFreeRuns.

(** ** Runs in which calls may fail *)

Section AnyRun.

Variable env : environment.

(** The insert loop never commits: it either fails, or has added all
    the rows to the open transaction. *)
Lemma insert_records_cases records : forall sk nr w,
  (exists e w', insert_records records sk nr env w = (Raise e, w') /\
                committed (conn w') = committed (conn w)) \/
  (exists n, insert_records records sk nr env w =
     (Ok tt,
      mk_world
        (mk_conn (committed (conn w))
           (mk_db (adf_load_tracker (working (conn w)))
                  (brnz_prps_prop_sales_dtl (working (conn w)))
                  (slvr_int_inv_dtl (working (conn w)) ++ new_inv_rows env records sk nr)
                  (slvr_int_prop_sales_dlt (working (conn w)))))
        n)).
Proof.
  induction records as [|row rest IH]; intros sk nr w; simpl.
  - right. exists (calls w). unfold ret. destruct w as [[c [t b i s]] n]. simpl.
    now rewrite app_nil_r.
  - unfold bind, ask, execute, db_call.
    destruct (faulty env (calls w)).
    + left. eexists _, _. split; [reflexivity|reflexivity].
    + match goal with |- context [insert_records rest ?a ?b env ?x] =>
        destruct (IH a b x) as [(e & w' & -> & Hc)|(n & ->)] end.
      * left. eexists _, _. split; [reflexivity|exact Hc].
      * right. exists n. simpl. unfold insert_query. simpl.
        now rewrite <- app_assoc.
Qed.

(** [upsert_table] from a connection with nothing pending: it ends
    normally with the whole batch committed, or it fails and what is
    committed is the table as it was, or the table with the previous
    generation retired and nothing inserted. *)
Lemma upsert_table_cases records slv_pk etl_nr d n :
  (exists e w',
     upsert_table records slv_pk etl_nr env (mk_world (mk_conn d d) n) = (Raise e, w') /\
     (durable w' = d \/ durable w' = upd_query etl_nr d)) \/
  (exists k,
     upsert_table records slv_pk etl_nr env (mk_world (mk_conn d d) n) =
     (Ok (now env, etl_nr + 1),
      let after := mk_db (adf_load_tracker d) (brnz_prps_prop_sales_dtl d)
                         (inv_table_after env records slv_pk etl_nr (slvr_int_inv_dtl d))
                         (slvr_int_prop_sales_dlt d) in
      mk_world (mk_conn after after) k)).
Proof.
  unfold upsert_table, rewrap, bind, ask, execute, commit, db_call, ret.
  cbn [calls conn working committed].
  destruct (faulty env n).
  { left. eexists _, _. split; [reflexivity|]. left. reflexivity. }
  cbn [calls conn working committed].
  destruct (faulty env (S n)).
  { left. eexists _, _. split; [reflexivity|]. left. reflexivity. }
  cbn [calls conn working committed].
  match goal with |- context [insert_records records ?a ?b env ?x] =>
    destruct (insert_records_cases records a b x) as [(e & w' & -> & Hc)|(m & ->)] end.
  { left. eexists _, _. split; [reflexivity|]. right. exact Hc. }
  cbn [calls conn working committed].
  destruct (faulty env m).
  { left. eexists _, _. split; [reflexivity|]. right. reflexivity. }
  right. eexists. reflexivity.
Qed.

Lemma fetch_cases {A} (query : db -> A) w :
  fetch query env w =
  if faulty env (calls w) then (Raise call_failed, mk_world (conn w) (S (calls w)))
  else (Ok (query (working (conn w))), mk_world (conn w) (S (calls w))).
Proof. unfold fetch, db_call. destruct (faulty env (calls w)); reflexivity. Qed.

Lemma execute_cases stmt w :
  execute stmt env w =
  if faulty env (calls w) then (Raise call_failed, mk_world (conn w) (S (calls w)))
  else (Ok tt, mk_world (mk_conn (committed (conn w)) (stmt (working (conn w)))) (S (calls w))).
Proof. unfold execute, db_call. destruct (faulty env (calls w)); reflexivity. Qed.

Lemma commit_cases w :
  commit env w =
  if faulty env (calls w) then (Raise call_failed, mk_world (conn w) (S (calls w)))
  else (Ok tt, mk_world (mk_conn (working (conn w)) (working (conn w))) (S (calls w))).
Proof. unfold commit, db_call. destruct (faulty env (calls w)); reflexivity. Qed.

Lemma get_last_etl_ts_cases tbl_name w :
  get_last_etl_ts tbl_name env w =
  if faulty env (calls w)
  then (Raise (Wrapped call_failed), mk_world (conn w) (S (calls w)))
  else (Ok (last_etl_ts_query tbl_name (working (conn w))), mk_world (conn w) (S (calls w))).
Proof.
  unfold get_last_etl_ts, rewrap, bind. rewrite fetch_cases.
  destruct (faulty env (calls w)); reflexivity.
Qed.

Lemma return_query_res_cases {A} (query : db -> A) w :
  return_query_res query env w =
  if faulty env (calls w)
  then (Raise (Wrapped call_failed), mk_world (conn w) (S (calls w)))
  else (Ok (query (working (conn w)), None), mk_world (conn w) (S (calls w))).
Proof.
  unfold return_query_res, rewrap, bind. rewrite fetch_cases.
  destruct (faulty env (calls w)); reflexivity.
Qed.

(** [upd_lookup_tbl] either fails without committing, or commits the
    new tracking row on top of what the transaction held. *)
Lemma upd_lookup_tbl_cases pipeline_nm ts nr w :
  (exists e w', upd_lookup_tbl pipeline_nm ts nr env w = (Raise e, w') /\
                committed (conn w') = committed (conn w)) \/
  (exists k, upd_lookup_tbl pipeline_nm ts nr env w =
     (Ok tt,
      let mx_id :=
        match Sql.sql_max (map (fun r => Some (Tracker.tbl_id r))
                               (adf_load_tracker (working (conn w)))) with
        | None => 0
        | Some v => v
        end in
      let d := insert_tracker (Tracker.mk_row (mx_id + 1) pipeline_nm ts nr) (working (conn w)) in
      mk_world (mk_conn d d) k)).
Proof.
  unfold upd_lookup_tbl, return_query_res, rewrap, bind, fetch, execute, commit, db_call, ret.
  destruct (faulty env (calls w)).
  { left. eexists _, _. split; reflexivity. }
  cbn [calls conn working committed reraise].
  destruct (faulty env (S (calls w))).
  { left. eexists _, _. split; reflexivity. }
  cbn [calls conn working committed reraise].
  destruct (faulty env (S (S (calls w)))).
  { left. eexists _, _. split; reflexivity. }
  right. eexists. reflexivity.
Qed.

(** What [process_slv_int_inv] can leave in the database: the complete
    result when it ends normally; when it fails, the database as it
    was, or with the previous generation retired and nothing inserted,
    or with the whole batch in place and the watermark not advanced. *)
Lemma process_slv_int_inv_cases d :
  exists r w',
    process_slv_int_inv env (connect d) = (r, w') /\
    ((r = Ok tt /\ durable w' = db_after_process_slv_int_inv env d) \/
     ((exists e, r = Raise e) /\
      (durable w' = d \/
       durable w' = upd_query (snd (next_keys_query d)) d \/
       durable w' =
         mk_db (adf_load_tracker d) (brnz_prps_prop_sales_dtl d)
               (inv_table_after env
                  (aggregation_query (yr_blt_type env) (sqft_type env) (today env) d)
                  (fst (next_keys_query d)) (snd (next_keys_query d)) (slvr_int_inv_dtl d))
               (slvr_int_prop_sales_dlt d)))).
Proof.
  unfold process_slv_int_inv, rewrap. unfold bind at 1, ask. cbv beta iota.
  unfold bind at 1. rewrite get_last_etl_ts_cases.
  cbn [connect calls conn working committed].
  destruct (faulty env 0%nat).
  { eexists _, _. split; [reflexivity|]. right. split; [eauto|]. left. reflexivity. }
  cbv beta iota. unfold bind at 1. rewrite return_query_res_cases.
  cbn [calls conn working committed].
  destruct (faulty env 1%nat).
  { eexists _, _. split; [reflexivity|]. right. split; [eauto|]. left. reflexivity. }
  cbv beta iota. unfold bind at 1. rewrite return_query_res_cases.
  cbn [calls conn working committed].
  destruct (faulty env 2%nat).
  { eexists _, _. split; [reflexivity|]. right. split; [eauto|]. left. reflexivity. }
  cbv beta iota. cbn [fst snd].
  destruct (next_keys_query d) as [slv_pk etl_nr] eqn:Ek.
  cbn [fst snd]. unfold bind at 1.
  destruct (upsert_table_cases
              (aggregation_query (yr_blt_type env) (sqft_type env) (today env) d)
              slv_pk etl_nr d 3)
    as [(e & w1 & -> & Hd)|(k & ->)].
  { eexists _, _. split; [reflexivity|]. right. split; [eauto|].
    destruct Hd as [Hd|Hd]; [left|right; left]; exact Hd. }
  cbv beta iota zeta. unfold bind at 1.
  match goal with |- context [upd_lookup_tbl ?a ?b ?c env ?x] =>
    destruct (upd_lookup_tbl_cases a b c x) as [(e & w2 & -> & Hc)|(k2 & ->)] end.
  { eexists _, _. split; [reflexivity|]. right. split; [eauto|]. right. right.
    unfold durable. rewrite Hc. reflexivity. }
  cbv beta iota zeta. unfold end_process, rewrap.
  cbn [reraise calls conn working committed].
  eexists _, _. split; [reflexivity|]. left. split; [reflexivity|].
  unfold durable, db_after_process_slv_int_inv. rewrite Ek. reflexivity.
Qed.

End AnyRun.

(** ** Key and generation allocation *)

Section Allocation.

Lemma new_inv_rows_length env records : forall sk nr,
  length (new_inv_rows env records sk nr) = length records.
Proof. induction records; intros; simpl; auto. Qed.

Lemma new_inv_rows_nth env records : forall sk nr i r,
  nth_error (new_inv_rows env records sk nr) i = Some r ->
  Inv.etl_nr r = nr /\ Inv.slvr_int_inv_dtl_sk r = sk + 1 + Z.of_nat i /\
  Inv.active_rec_ind r = true /\
  exists row, nth_error records i = Some row /\ r = inv_row_of env (sk + 1 + Z.of_nat i) nr row.
Proof.
  induction records as [|row rest IH]; intros sk nr [|i] r; simpl; try discriminate.
  - intros [= <-]. simpl. rewrite Z.add_0_r.
    split; [reflexivity|]. split; [reflexivity|]. split; [reflexivity|]. now exists row.
  - intros H. destruct (IH _ _ _ _ H) as (H1 & H2 & H3 & row' & H4 & H5).
    replace (sk + 1 + Z.of_nat (S i)) with (sk + 1 + 1 + Z.of_nat i) by lia.
    split; [exact H1|]. split; [exact H2|]. split; [exact H3|]. now exists row'.
Qed.

Lemma new_inv_rows_In env records sk nr r :
  In r (new_inv_rows env records sk nr) ->
  Inv.etl_nr r = nr /\ sk < Inv.slvr_int_inv_dtl_sk r /\ Inv.active_rec_ind r = true.
Proof.
  intros H. apply In_nth_error in H as [i H].
  destruct (new_inv_rows_nth _ _ _ _ _ _ H) as (H1 & H2 & H3 & _).
  repeat split; auto. lia.
Qed.

Lemma new_inv_rows_NoDup env records : forall sk nr,
  List.NoDup (map Inv.slvr_int_inv_dtl_sk (new_inv_rows env records sk nr)).
Proof.
  induction records as [|row rest IH]; intros sk nr; simpl; constructor.
  - intros H. apply in_map_iff in H as (r & E & Hr).
    apply new_inv_rows_In in Hr as (_ & Hlt & _). simpl in E. lia.
  - apply IH.
Qed.

Lemma next_keys_query_bounds d old :
  In old (slvr_int_inv_dtl d) ->
  Inv.slvr_int_inv_dtl_sk old <= fst (next_keys_query d) /\
  Inv.etl_nr old <= snd (next_keys_query d).
Proof.
  intros H. unfold next_keys_query. simpl. split.
  - apply (proj1 (coalesce_sql_max 0 _)).
    apply (in_map (fun r => Some (Inv.slvr_int_inv_dtl_sk r))) in H. exact H.
  - apply (proj1 (coalesce_sql_max 0 _)).
    apply (in_map (fun r => Some (Inv.etl_nr r))) in H. exact H.
Qed.

Lemma deactivate_row_keys nr r :
  Inv.slvr_int_inv_dtl_sk (deactivate_row nr r) = Inv.slvr_int_inv_dtl_sk r /\
  Inv.etl_nr (deactivate_row nr r) = Inv.etl_nr r /\
  Inv.investor_company_nm_txt (deactivate_row nr r) = Inv.investor_company_nm_txt r.
Proof. unfold deactivate_row. destruct (Inv.etl_nr r =? nr); auto. Qed.

Lemma next_keys_query_retired nr d :
  next_keys_query (upd_query nr d) = next_keys_query d.
Proof.
  unfold next_keys_query, upd_query. cbn [slvr_int_inv_dtl]. rewrite !map_map.
  f_equal; do 2 f_equal; apply map_ext; intros r; f_equal; apply deactivate_row_keys.
Qed.

(** A maximum read after rows were appended is not below the one read
    before, when the appended values are above it. *)
Lemma coalesce_sql_max_app (old new : list (option Z)) :
  (forall x, In (Some x) new -> Sql.coalesce (Sql.sql_max old) 0 < x) ->
  (forall v, In v new -> v <> None) ->
  Sql.coalesce (Sql.sql_max old) 0 <= Sql.coalesce (Sql.sql_max (old ++ new)) 0.
Proof.
  intros Hnew Hnn.
  destruct (coalesce_sql_max 0 (old ++ new)) as (Hle & Hin & Hdef).
  destruct (coalesce_sql_max 0 old) as (Hle0 & Hin0 & Hdef0).
  destruct (Sql.sql_max old) as [m|] eqn:E.
  - apply Hle. apply in_or_app. left. apply Hin0.
    exists m. now apply sql_max_some in E.
  - destruct new as [|[x|] new'].
    + rewrite app_nil_r, E. simpl. lia.
    + assert (H : In (Some x) (old ++ Some x :: new')) by (apply in_or_app; right; now left).
      specialize (Hle x H). specialize (Hnew x (or_introl eq_refl)). simpl in *. lia.
    + exfalso. apply (Hnn None); [now left|reflexivity].
Qed.

Lemma next_keys_query_after env records d :
  let after := mk_db (adf_load_tracker d) (brnz_prps_prop_sales_dtl d)
                 (inv_table_after env records (fst (next_keys_query d))
                    (snd (next_keys_query d)) (slvr_int_inv_dtl d))
                 (slvr_int_prop_sales_dlt d) in
  fst (next_keys_query d) <= fst (next_keys_query after) /\
  snd (next_keys_query d) <= snd (next_keys_query after).
Proof.
  cbv zeta. unfold inv_table_after.
  pose proof (fun r => new_inv_rows_In env records (fst (next_keys_query d))
                         (snd (next_keys_query d) + 1) r) as Hn.
  set (new := new_inv_rows env records (fst (next_keys_query d))
                (snd (next_keys_query d) + 1)) in *.
  clearbody new.
  destruct (next_keys_query d) as [pk nr] eqn:Ek. cbn [fst snd] in *.
  unfold next_keys_query in Ek |- *. cbn [slvr_int_inv_dtl fst snd].
  injection Ek as Epk Enr.
  rewrite !map_app, !map_map.
  rewrite (map_ext (fun x => Some (Inv.slvr_int_inv_dtl_sk (deactivate_row nr x)))
                   (fun x => Some (Inv.slvr_int_inv_dtl_sk x)))
    by (intros r; f_equal; apply deactivate_row_keys).
  rewrite (map_ext (fun x => Some (Inv.etl_nr (deactivate_row nr x)))
                   (fun x => Some (Inv.etl_nr x)))
    by (intros r; f_equal; apply deactivate_row_keys).
  split.
  - rewrite <- Epk at 1. apply coalesce_sql_max_app.
    + intros x Hx. apply in_map_iff in Hx as (r & [= <-] & Hr).
      rewrite Epk. now apply Hn.
    + intros v Hv. apply in_map_iff in Hv as (r & <- & _). discriminate.
  - rewrite <- Enr at 1. apply coalesce_sql_max_app.
    + intros x Hx. apply in_map_iff in Hx as (r & [= <-] & Hr).
      rewrite Enr. destruct (Hn r Hr) as (-> & _). lia.
    + intros v Hv. apply in_map_iff in Hv as (r & <- & _). discriminate.
Qed.

(** C5 (as amended). For the investor table: the allocation reads the
    largest surrogate key and the largest generation of the table (0 on
    an empty table); a run in
    which no call fails stamps every row it inserts with that
    generation plus 1, above every generation already in the table,
    and gives the i-th inserted row the read key plus i, so the new
    keys are pairwise distinct and above every key already in the
    table. A run that fails, at whatever call, never lowers what the
    next allocation reads. *)
Theorem process_slv_int_inv_keys env d :
  fault_free env ->
  Sql.max_or 0 (map (fun r => Some (Inv.slvr_int_inv_dtl_sk r)) (slvr_int_inv_dtl d))
             (fst (next_keys_query d)) /\
  Sql.max_or 0 (map (fun r => Some (Inv.etl_nr r)) (slvr_int_inv_dtl d))
             (snd (next_keys_query d)) /\
  (exists w' (new : list Inv.row),
    process_slv_int_inv env (connect d) = (Ok tt, w') /\
    slvr_int_inv_dtl (durable w') =
      (map (deactivate_row (snd (next_keys_query d))) (slvr_int_inv_dtl d) ++ new)%list /\
    length new =
      length (aggregation_query (yr_blt_type env) (sqft_type env) (today env) d) /\
    (forall i r, nth_error new i = Some r ->
       Inv.etl_nr r = snd (next_keys_query d) + 1 /\
       Inv.slvr_int_inv_dtl_sk r = fst (next_keys_query d) + 1 + Z.of_nat i) /\
    (forall r old, In r new -> In old (slvr_int_inv_dtl d) ->
       Inv.etl_nr old < Inv.etl_nr r /\
       Inv.slvr_int_inv_dtl_sk old < Inv.slvr_int_inv_dtl_sk r) /\
    List.NoDup (map Inv.slvr_int_inv_dtl_sk new)) /\
  (forall env' r w',
     process_slv_int_inv env' (connect d) = (r, w') ->
     fst (next_keys_query d) <= fst (next_keys_query (durable w')) /\
     snd (next_keys_query d) <= snd (next_keys_query (durable w'))).
Proof.
  intros Hff.
  split; [apply coalesce_sql_max|]. split; [apply coalesce_sql_max|].
  split.
  - destruct (process_slv_int_inv_ok env Hff d) as (w' & Hrun & Hd).
    exists w', (new_inv_rows env
                  (aggregation_query (yr_blt_type env) (sqft_type env) (today env) d)
                  (fst (next_keys_query d)) (snd (next_keys_query d) + 1)).
    split; [exact Hrun|]. rewrite Hd.
    split; [reflexivity|].
    split; [apply new_inv_rows_length|].
    split.
    { intros i r H. destruct (new_inv_rows_nth _ _ _ _ _ _ H) as (H1 & H2 & _). auto. }
    split.
    { intros r old Hr Hold.
      apply new_inv_rows_In in Hr as (H1 & H2 & _).
      destruct (next_keys_query_bounds d old Hold). lia. }
    apply new_inv_rows_NoDup.
  - intros env' r w' Hrun.
    destruct (process_slv_int_inv_cases env' d) as (r0 & w0 & Hrun0 & Hcases).
    rewrite Hrun in Hrun0. injection Hrun0 as <- <-.
    destruct Hcases as [[_ ->]|[_ [->|[->| ->]]]].
    + apply (next_keys_query_after env'
               (aggregation_query (yr_blt_type env') (sqft_type env') (today env') d) d).
    + lia.
    + rewrite next_keys_query_retired. lia.
    + apply (next_keys_query_after env'
               (aggregation_query (yr_blt_type env') (sqft_type env') (today env') d) d).
Qed.

Lemma process_slv_int_inv_keys_witness :
  fault_free sample_env /\
  map Inv.slvr_int_inv_dtl_sk (slvr_int_inv_dtl seeded_db) = [1; 2] /\
  map Inv.etl_nr (slvr_int_inv_dtl seeded_db) = [1; 1] /\
  next_keys_query seeded_db = (2, 1) /\
  exists w' (new : list Inv.row),
    process_slv_int_inv sample_env (connect seeded_db) = (Ok tt, w') /\
    map Inv.slvr_int_inv_dtl_sk (slvr_int_inv_dtl (durable w')) =
      ([1; 2] ++ map Inv.slvr_int_inv_dtl_sk new)%list /\
    map Inv.etl_nr new = [2; 2] /\
    map Inv.slvr_int_inv_dtl_sk new = [3; 4] /\
    next_keys_query (durable w') = (4, 2).
Proof.
  assert (H : fault_free sample_env) by (intros n; reflexivity).
  split; [exact H|]. split; [reflexivity|]. split; [reflexivity|].
  split; [reflexivity|].
  destruct (process_slv_int_inv_keys sample_env seeded_db H)
    as (_ & _ & (w' & new & Hrun & Htab & _) & _).
  exists w', new. split; [exact Hrun|].
  assert (E : durable w' = db_after_process_slv_int_inv sample_env seeded_db).
  { destruct (process_slv_int_inv_ok sample_env H seeded_db) as (w2 & Hrun2 & Hd).
    rewrite Hrun in Hrun2. injection Hrun2 as <-. exact Hd. }
  assert (Enew : new = new_inv_rows sample_env
                         (aggregation_query Sql.IntegerCol Sql.IntegerCol
                            (today sample_env) seeded_db) 2 2).
  { rewrite E in Htab. unfold db_after_process_slv_int_inv in Htab.
    cbn [slvr_int_inv_dtl insert_tracker] in Htab. unfold inv_table_after in Htab.
    change (fst (next_keys_query seeded_db)) with 2 in Htab.
    change (snd (next_keys_query seeded_db)) with 1 in Htab.
    apply app_inv_head in Htab. symmetry. exact Htab. }
  split; [rewrite Htab, map_app; f_equal; reflexivity|].
  rewrite Enew. split; [reflexivity|]. split; [reflexivity|].
  rewrite E. reflexivity.
Defined.

(** C5 fails as stated. In the parcel table the key does not move once
    per emitted row: the enrichment loop moves it once per address
    looked up, and the two rows it writes for one property, the sale
    and the rental, carry the same key. *)
Lemma parcel_rows_reuse_a_key :
  exists r1 r2,
    enrichment_loop sample_env sample_api 10 3 (now sample_env) [sample_lookup]
      = inr [[r1; r2]] /\
    r1 <> r2 /\
    Prcl.brnz_prcl_prop_sales_dtl_sk r1 = 11 /\
    Prcl.brnz_prcl_prop_sales_dtl_sk r2 = 11.
Proof.
  eexists _, _. split; [vm_compute; reflexivity|].
  split; [|split; reflexivity].
  intros C. apply (f_equal Prcl.prop_sale_dt) in C. discriminate C.
Qed.

End Allocation.

(** ** SCD upsert of the sales table *)

Section SalesUpsert.





(** A retirement that finds nothing to retire changes nothing: the
    [if result:] guard around the UPDATE only saves the call. *)
Lemma retire_nothing addr t :
  List.filter (is_latest_of addr) t = [] -> map (retire_row addr) t = t.
Proof.
  induction t as [|r t IH]; simpl; [reflexivity|].
  unfold retire_row at 1. destruct (is_latest_of addr r); [discriminate|].
  intros H. now rewrite IH.
Qed.



(** The loop never commits. When it ends normally the open
    transaction holds [sales_table_after]; it ends normally when no
    call fails. *)
Lemma sales_loop_run env nr ld ts rows : forall sk w,
  exists r w',
    sales_loop rows sk nr ld ts env w = (r, w') /\
    committed (conn w') = committed (conn w) /\
    (r = Ok tt ->
     working (conn w') =
       mk_db (adf_load_tracker (working (conn w)))
             (brnz_prps_prop_sales_dtl (working (conn w)))
             (slvr_int_inv_dtl (working (conn w)))
             (sales_table_after env rows sk nr ld ts
                (slvr_int_prop_sales_dlt (working (conn w))))) /\
    (fault_free env -> r = Ok tt).
Proof.
  induction rows as [|row rest IH]; intros sk w.
  - exists (Ok tt), w. repeat split. simpl. now destruct (working (conn w)).
  - cbn [sales_loop]. unfold bind, ask, fetch, execute, db_call.
    cbn [calls conn working committed].
    destruct (faulty env (calls w)) eqn:F0.
    { eexists _, _. split; [reflexivity|]. split; [reflexivity|].
      split; [discriminate|]. intros Hff. rewrite Hff in F0. discriminate. }
    unfold latest_query at 1.
    destruct (List.filter (is_latest_of (SaleIn.usraddr row))
                (slvr_int_prop_sales_dlt (working (conn w)))) as [|x xs] eqn:Ef.
    + unfold ret at 1. cbn [calls conn working committed].
      destruct (faulty env (S (calls w))) eqn:F1.
      { eexists _, _. split; [reflexivity|]. split; [reflexivity|].
        split; [discriminate|]. intros Hff. rewrite Hff in F1. discriminate. }
      cbn [calls conn working committed].
      match goal with |- context [sales_loop rest ?a nr ld ts env ?x] =>
        destruct (IH a x) as (r & w' & -> & Hc & Hw & Hok) end.
      exists r, w'. split; [now destruct r|]. split; [exact Hc|]. split; [|exact Hok].
      intros Hr. rewrite (Hw Hr). cbn [calls conn working committed insert_sale
        adf_load_tracker brnz_prps_prop_sales_dtl slvr_int_inv_dtl slvr_int_prop_sales_dlt].
      cbn [sales_table_after]. now rewrite (retire_nothing _ _ Ef).
    + cbn [calls conn working committed].
      destruct (faulty env (S (calls w))) eqn:F1.
      { eexists _, _. split; [reflexivity|]. split; [reflexivity|].
        split; [discriminate|]. intros Hff. rewrite Hff in F1. discriminate. }
      cbn [calls conn working committed].
      destruct (faulty env (S (S (calls w)))) eqn:F2.
      { eexists _, _. split; [reflexivity|]. split; [reflexivity|].
        split; [discriminate|]. intros Hff. rewrite Hff in F2. discriminate. }
      cbn [calls conn working committed].
      match goal with |- context [sales_loop rest ?a nr ld ts env ?x] =>
        destruct (IH a x) as (r & w' & -> & Hc & Hw & Hok) end.
      exists r, w'. split; [now destruct r|]. split; [exact Hc|]. split; [|exact Hok].
      intros Hr. rewrite (Hw Hr). reflexivity.
Qed.

(** [prc_slv_int_prop_sls_dlt_pl] is all or nothing: it ends normally
    with the whole batch committed, which it does when no call fails,
    or it fails and the database is as it was. *)
Lemma prc_slv_int_prop_sls_dlt_pl_run env nr ld ts sk d :
  exists r w',
    prc_slv_int_prop_sls_dlt_pl nr ld ts sk env (connect d) = (r, w') /\
    ((r = Ok tt /\ durable w' = db_after_prc_slv_int_prop_sls_dlt_pl env nr ld ts sk d) \/
     ((exists e, r = Raise e) /\ durable w' = d)) /\
    (fault_free env -> r = Ok tt).
Proof.
  unfold prc_slv_int_prop_sls_dlt_pl, rewrap. unfold bind at 1.
  rewrite get_last_etl_ts_cases. cbn [connect calls conn working committed].
  destruct (faulty env 0%nat) eqn:F0.
  { eexists _, _. split; [reflexivity|]. split; [right; split; [eauto|reflexivity]|].
    intros Hff. rewrite Hff in F0. discriminate. }
  destruct (last_etl_ts_query "pl_brnz_prps_prop_sales_dtl" d) as [lst_ts etl] eqn:Ew.
  cbv beta iota. unfold bind at 1. rewrite return_query_res_cases.
  cbn [calls conn working committed].
  destruct (faulty env 1%nat) eqn:F1.
  { eexists _, _. split; [reflexivity|]. split; [right; split; [eauto|reflexivity]|].
    intros Hff. rewrite Hff in F1. discriminate. }
  cbv beta iota. unfold bind at 1, ret at 1. cbv beta iota. unfold bind at 1.
  match goal with |- context [sales_loop ?rows sk nr ld ts env ?x] =>
    destruct (sales_loop_run env nr ld ts rows sk x) as (r & w' & -> & Hc & Hw & Hok) end.
  destruct r as [[]|e].
  - rewrite commit_cases. destruct (faulty env (calls w')) eqn:F2.
    + eexists _, _. split; [reflexivity|].
      split; [right; split; [eauto|]|].
      * unfold durable. cbn [conn committed]. exact Hc.
      * intros Hff. rewrite Hff in F2. discriminate.
    + eexists _, _. split; [reflexivity|]. split; [|reflexivity].
      left. split; [reflexivity|]. unfold durable. cbn [conn committed].
      rewrite (Hw eq_refl). unfold db_after_prc_slv_int_prop_sls_dlt_pl.
      rewrite Ew. reflexivity.
  - eexists _, _. split; [reflexivity|].
    split; [right; split; [eauto|exact Hc]|].
    intros Hff. specialize (Hok Hff). discriminate.
Qed.

End SalesUpsert.

(** ** SCD upsert of the investor table *)

Section InvestorUpsert.


(** Retiring the latest generation leaves no active row, when every
    active row is in that generation. *)
Lemma deactivated_none_active t name :
  active_in_latest_generation t ->
  active_rows_of name
    (map (deactivate_row (Sql.coalesce (Sql.sql_max (map (fun r => Some (Inv.etl_nr r)) t)) 0)) t)
  = [].
Proof.
  intros Hinv. unfold active_rows_of.
  set (nr := Sql.coalesce _ 0) in *.
  assert (H : forall r, In r t -> Inv.active_rec_ind (deactivate_row nr r) = false).
  { intros r Hr. unfold deactivate_row.
    destruct (Inv.etl_nr r =? nr) eqn:E; [reflexivity|].
    destruct (Inv.active_rec_ind r) eqn:A; [|reflexivity].
    apply Z.eqb_neq in E. now specialize (Hinv r Hr A). }
  clearbody nr. clear Hinv.
  induction t as [|r t IH]; simpl; [reflexivity|].
  rewrite (H r (or_introl eq_refl)). simpl. apply IH.
  intros x Hx. apply H. now right.
Qed.






(** A complete run re-establishes what it relied on. *)
Lemma active_in_latest_generation_after env d :
  active_in_latest_generation (slvr_int_inv_dtl d) ->
  active_in_latest_generation (slvr_int_inv_dtl (db_after_process_slv_int_inv env d)).
Proof.
  intros Hinv r Hr Hact.
  unfold db_after_process_slv_int_inv, inv_table_after in *. cbn [slvr_int_inv_dtl] in *.
  set (records := aggregation_query _ _ _ d) in *.
  set (pk := fst (next_keys_query d)) in *.
  set (nr := snd (next_keys_query d)) in *.
  assert (Hnew : In r (new_inv_rows env records pk (nr + 1))).
  { apply in_app_or in Hr as [Hr|Hr]; [|exact Hr]. exfalso.
    assert (Hin : In r (active_rows_of (Inv.investor_company_nm_txt r)
                          (map (deactivate_row nr) (slvr_int_inv_dtl d)))).
    { apply filter_In. split; [exact Hr|]. now rewrite Hact, String.eqb_refl. }
    change nr
      with (Sql.coalesce (Sql.sql_max (map (fun r => Some (Inv.etl_nr r)) (slvr_int_inv_dtl d))) 0)
      in Hin.
    rewrite (deactivated_none_active _ _ Hinv) in Hin. destruct Hin. }
  apply new_inv_rows_In in Hnew as Hk. destruct Hk as (Hetl & _ & _).
  destruct (coalesce_sql_max 0
              (map (fun r => Some (Inv.etl_nr r))
                   (map (deactivate_row nr) (slvr_int_inv_dtl d) ++
                    new_inv_rows env records pk (nr + 1)))) as (Hle & Hin & _).
  set (m := Sql.coalesce _ 0) in *.
  assert (Hr' : In (Some (Inv.etl_nr r))
                  (map (fun r => Some (Inv.etl_nr r))
                     (map (deactivate_row nr) (slvr_int_inv_dtl d) ++
                      new_inv_rows env records pk (nr + 1)))).
  { apply in_map_iff. exists r. split; [reflexivity|]. apply in_or_app. now right. }
  pose proof (Hle _ Hr') as Hge.
  assert (Hm : In (Some m) (map (fun r => Some (Inv.etl_nr r))
                     (map (deactivate_row nr) (slvr_int_inv_dtl d) ++
                      new_inv_rows env records pk (nr + 1)))) by (apply Hin; eauto).
  apply in_map_iff in Hm as (x & [= Ex] & Hx).
  apply in_app_or in Hx as [Hx|Hx].
  - apply in_map_iff in Hx as (y & <- & Hy).
    destruct (deactivate_row_keys nr y) as (_ & E & _). rewrite E in Ex.
    destruct (next_keys_query_bounds d y Hy) as [_ Hb]. fold nr in Hb. lia.
  - apply new_inv_rows_In in Hx as (E & _ & _). lia.
Qed.

End InvestorUpsert.

(** ** The SCD upsert stages *)

Section ScdUpsert.



Lemma last_of_address_sound addr rows : forall sk k last,
  last_of_address addr rows sk = Some (k, last) ->
  In last rows /\ SaleIn.usraddr last = addr /\ sk < k.
Proof.
  induction rows as [|r rest IH]; intros sk k last; simpl; [discriminate|].
  destruct (last_of_address addr rest (sk + 1)) as [[k' last']|] eqn:E.
  - intros [= <- <-]. destruct (IH _ _ _ E) as (H1 & H2 & H3).
    split; [now right|]. split; [exact H2|lia].
  - destruct (String.eqb (SaleIn.usraddr r) addr) eqn:Ea; [|discriminate].
    intros [= <- <-]. apply String.eqb_eq in Ea.
    split; [now left|]. split; [exact Ea|lia].
Qed.





(** C2 at its failing input. The second run over [seeded_db] loses its
    first INSERT: the run raises, no row was inserted, and yet the two
    rows that were active before the batch are now retired, because
    [upsert_table] committed right after the UPDATE. *)
Theorem upsert_table_commits_before_inserting :
  exists e w',
    process_slv_int_inv first_insert_fails (connect seeded_db) = (Raise e, w') /\
    map Inv.active_rec_ind (slvr_int_inv_dtl seeded_db) = [true; true] /\
    map Inv.active_rec_ind (slvr_int_inv_dtl (durable w')) = [false; false] /\
    durable w' = upd_query (snd (next_keys_query seeded_db)) seeded_db /\
    durable w' <> seeded_db.
Proof.
  eexists _, _. split; [vm_compute; reflexivity|].
  split; [reflexivity|]. split; [reflexivity|]. split; [reflexivity|].
  intros C. apply (f_equal (fun d => map Inv.active_rec_ind (slvr_int_inv_dtl d))) in C.
  vm_compute in C. discriminate.
Qed.

End ScdUpsert.

(** ** Dispatcher and HTTP entry point *)

Section Dispatch.

Variable st : stages.

Lemma eq_str_other key literal :
  key <> literal -> eq_str (JStr key) literal = false.
Proof. intros H. simpl. now apply String.eqb_neq. Qed.

(** An unrecognized key starts nothing and gives no result. *)
Lemma getway_unrecognized key dic tr :
  ~ In key recognized_keys -> getway (JStr key) dic st tr = (Ok None, tr).
Proof.
  intros H. unfold getway, drewrap.
  destruct (truthy (JStr key)); [|reflexivity].
  rewrite !eq_str_other; [reflexivity|..];
    intros ->; apply H; simpl; tauto.
Qed.

(** C8 at its failing input. Without a [process_key] in the query
    string the key becomes the string None, whatever the body holds:
    the body is never read, the dispatcher is called with that key and
    the answer is a 200, not the 400 prompt. *)
Theorem missing_process_key_is_answered_200 :
  forall other_params body,
    rehouzd_function st (mk_request (delete "process_key" other_params) body) =
    (mk_response "Hello, None Not found. triggers executed successfully." 200 "text/plain", []).
Proof.
  intros ps body. unfold rehouzd_function, rehouzd_function_body.
  cbn [params req_body]. rewrite lookup_delete_eq.
  change (strip "None") with "None".
  change (truthy (JStr "None")) with true. cbn [negb].
  unfold dbind, dret. cbv beta iota.
  change (truthy (JStr "None")) with true. cbv beta iota.
  rewrite getway_unrecognized; [reflexivity|].
  simpl. intros C. repeat destruct C as [C|C]; try discriminate C. exact C.
Qed.

(** C9 (as amended). The dispatcher itself starts no stage, raises
    nothing and returns no result for every string outside the
    recognized keys. Through the entry point this holds, with a 200
    answer, for every [process_key] whose stripped value is not empty
    and not a recognized key. *)
Theorem unrecognized_key_is_a_no_op :
  (forall key dic tr,
     ~ In key recognized_keys -> getway (JStr key) dic st tr = (Ok None, tr)) /\
  (forall req key,
     params req !! "process_key" = Some key ->
     strip key <> "" ->
     ~ In (strip key) recognized_keys ->
     rehouzd_function st req =
     (mk_response ("Hello, " ++ strip key ++ " Not found. triggers executed successfully.")
                  200 "text/plain", [])).
Proof.
  split; [apply getway_unrecognized|].
  intros req key Hk Hne Hun. unfold rehouzd_function, rehouzd_function_body.
  rewrite Hk.
  assert (Ht : truthy (JStr (strip key)) = true).
  { simpl. apply negb_true_iff. now apply String.eqb_neq. }
  rewrite Ht. cbn [negb].
  unfold dbind, dret. cbv beta iota. rewrite Ht. cbv beta iota.
  rewrite getway_unrecognized by exact Hun. reflexivity.
Qed.

End Dispatch.

Lemma unrecognized_key_is_a_no_op_witness :
  ({[ "process_key" := " refresh_all " ]} : gmap string string) !! "process_key"
    = Some " refresh_all " /\
  strip " refresh_all " <> "" /\
  ~ In (strip " refresh_all ") recognized_keys /\
  rehouzd_function quiet_stages (mk_request {[ "process_key" := " refresh_all " ]} NotJson) =
  (mk_response "Hello, refresh_all Not found. triggers executed successfully." 200 "text/plain",
   []).
Proof.
  assert (H1 : ({[ "process_key" := " refresh_all " ]} : gmap string string) !! "process_key"
               = Some " refresh_all ") by reflexivity.
  assert (H2 : strip " refresh_all " <> "") by (vm_compute; discriminate).
  assert (H3 : ~ In (strip " refresh_all ") recognized_keys).
  { vm_compute. intros C. repeat destruct C as [C|C]; try discriminate C. exact C. }
  split; [exact H1|]. split; [exact H2|]. split; [exact H3|].
  exact (proj2 (unrecognized_key_is_a_no_op quiet_stages)
           (mk_request {[ "process_key" := " refresh_all " ]} NotJson) " refresh_all " H1 H2 H3).
Defined.

(** C9 fails as stated. The empty string is outside the recognized
    keys and is answered with the 400 prompt; a recognized name with a
    leading blank is outside them too, and its stage is started. *)
Lemma unrecognized_key_not_always_a_no_op :
  (~ In "" recognized_keys /\
   rehouzd_function quiet_stages (mk_request {[ "process_key" := "" ]} NotJson) =
   (mk_response prompt_text 400 "text/plain", [])) /\
  (~ In " process_bnz_prcl_dtl" recognized_keys /\
   snd (rehouzd_function quiet_stages
          (mk_request {[ "process_key" := " process_bnz_prcl_dtl" ]} NotJson)) =
   [process_bnz_prcl_dtl_stage]).
Proof.
  split; split; try reflexivity;
    simpl; intros C; repeat destruct C as [C|C]; try discriminate C; exact C.
Qed.

(** ** The definitions on small inputs *)

Example minus_12_months_leap_day :
  Sql.minus_12_months (Sql.mk_date 2024 2 29) = Sql.mk_date 2023 2 28.
Proof. reflexivity. Qed.

Example strip_blanks : strip "  call_slvr_int_prp_dtl  " = "call_slvr_int_prp_dtl".
Proof. reflexivity. Qed.

Example strip_unicode_blanks :
  strip (nbsp ++ "process_bnz_prcl_dtl" ++ em_space) = "process_bnz_prcl_dtl" /\
  strip (nbsp ++ " " ++ em_space) = "" /\
  strip ("a" ++ nbsp ++ "b") = "a" ++ nbsp ++ "b".
Proof. repeat split. Qed.

Example no_break_space_key :
  snd (rehouzd_function quiet_stages
         (mk_request {[ "process_key" := nbsp ++ "process_bnz_prcl_dtl" ]} NotJson)) =
  [process_bnz_prcl_dtl_stage] /\
  rehouzd_function quiet_stages (mk_request {[ "process_key" := nbsp ]} NotJson) =
  (mk_response prompt_text 400 "text/plain", []).
Proof. split; reflexivity. Qed.

Example floor_div10_integer_column_truncates :
  Sql.floor_div10_times10 Sql.IntegerCol (-5) = 0 /\
  Sql.floor_div10_times10 Sql.NumericCol (-5) = -10 /\
  Sql.floor_div10_times10 Sql.IntegerCol 1987 = 1980.
Proof. repeat split. Qed.

Example sales_query_ranks :
  map SaleIn.d_rank
      (sales_query 1741000000 2 resale_db) = [1; 2] /\
  map SaleIn.latest_record_ind
      (sales_query 1741000000 2 resale_db) = [true; false].
Proof. split; reflexivity. Qed.

Example dumps_value_7 :
  dumps_value 7 = "{" ++ dquote ++ "value" ++ dquote ++ ": 7}".
Proof. reflexivity. Qed.

Example background_stage_returns_generation :
  rehouzd_function quiet_stages
    (mk_request {[ "process_key" := "call_slvr_int_prp_dtl" ]} NotJson) =
  (mk_response (dumps_value 1) 200 "application/json", [call_slvr_int_prp_dtl_stage]).
Proof. reflexivity. Qed.

(** * Further properties *)

(** ** Event selection, whatever the prices *)

Section EventSelectionMore.
Import Enrich.

Lemma scan_returns_candidate pt pn ft fn evs : forall pe fe e,
  scan pt pn ft fn evs pe fe = Ok (Some e) ->
  (In e evs /\
   ((matches pt pn e = true /\ usable e = true) \/
    (matches pt pn e = false /\ matches_fallback ft fn e = true))) \/
  fe = Some e \/
  (pe = Some e /\ usable e = true).
Proof.
  induction evs as [|ev rest IH]; intros pe fe e; simpl.
  - destruct pe as [x|]; simpl.
    + unfold usable. destruct (price x) as [p|] eqn:Hp; simpl; [|discriminate].
      destruct (0 <? p) eqn:Hpos; simpl.
      * try rewrite bool_decide_eq_true_2 by congruence.
        intros [= <-]. right. right. split; [reflexivity|]. now rewrite Hp.
      * intros [= ->]. right. now left.
    + intros [= ->]. right. now left.
  - destruct (matches pt pn ev) eqn:Hm.
    + destruct (price ev) as [p|] eqn:Hp; simpl; [|discriminate].
      destruct (0 <? p) eqn:Hpos.
      * intros [= <-]. left. split; [now left|]. left. split; [exact Hm|].
        unfold usable. now rewrite Hp.
      * intros H. destruct (IH _ _ _ H) as [[Hin Hc]|[Hfe|[Hpe Hu]]].
        -- left. split; [now right|exact Hc].
        -- right. now left.
        -- injection Hpe as <-. unfold usable in Hu. rewrite Hp in Hu. congruence.
    + destruct (matches_fallback ft fn ev) eqn:Hf; intros H;
        destruct (IH _ _ _ H) as [[Hin Hc]|[Hfe|Hpe]].
      * left. split; [now right|exact Hc].
      * injection Hfe as <-. left. split; [now left|]. right. now split.
      * right. now right.
      * left. split; [now right|exact Hc].
      * right. now left.
      * right. now right.
Qed.

(** X1. Whatever the prices, an event [get_valid_event] returns is one
    of the events it was given, and it either matches the primary pair
    with a price above 0 or matches the fallback pair and not the
    primary one: a primary match without a positive price is never
    returned. *)
Theorem get_valid_event_returns_candidate events pt pn ft fn e :
  get_valid_event events pt pn ft fn = Ok (Some e) ->
  In e events /\
  ((matches pt pn e = true /\ usable e = true) \/
   (matches pt pn e = false /\ matches_fallback ft fn e = true)).
Proof.
  unfold get_valid_event. intros H.
  destruct (scan_returns_candidate _ _ _ _ _ _ _ _ H) as [[Hin Hc]|[C|[C _]]];
    try discriminate.
  split; [|exact Hc]. apply -> sorted_desc_In in Hin. exact Hin.
Qed.

Lemma get_valid_event_returns_candidate_witness :
  get_valid_event [sold_at_zero 3 None; pending_sale 2 None]
    "SALE" "SOLD" (Some "LISTING") (Some "PENDING_SALE") = Ok (Some (pending_sale 2 None)) /\
  In (pending_sale 2 None) [sold_at_zero 3 None; pending_sale 2 None] /\
  ((matches "SALE" "SOLD" (pending_sale 2 None) = true /\ usable (pending_sale 2 None) = true) \/
   (matches "SALE" "SOLD" (pending_sale 2 None) = false /\
    matches_fallback (Some "LISTING") (Some "PENDING_SALE") (pending_sale 2 None) = true)).
Proof.
  split; [reflexivity|].
  apply (get_valid_event_returns_candidate _ "SALE" "SOLD" (Some "LISTING") (Some "PENDING_SALE")).
  reflexivity.
Defined.

Lemma scan_none_price_raises pt pn ft fn evs : forall pe fe,
  (forall ev, In ev evs -> matches pt pn ev = true -> usable ev = false) ->
  (exists ev, In ev evs /\ matches pt pn ev = true /\ price ev = None) ->
  exists msg, scan pt pn ft fn evs pe fe = Raise (TypeError msg).
Proof.
  induction evs as [|ev rest IH]; intros pe fe Hno (x & Hin & Hm & Hp).
  - destruct Hin.
  - simpl. destruct (matches pt pn ev) eqn:Hmev.
    + destruct (price ev) as [p|] eqn:Hpev; simpl; [|eauto].
      assert (Hu : usable ev = false) by (apply Hno; [now left|exact Hmev]).
      unfold usable in Hu. rewrite Hpev in Hu. rewrite Hu.
      apply IH.
      * intros e He. apply Hno. now right.
      * exists x. destruct Hin as [->|Hin]; [congruence|auto].
    + assert (Hx : In x rest) by (destruct Hin as [->|Hin]; [congruence|exact Hin]).
      destruct (matches_fallback ft fn ev); apply IH;
        try (intros e He; apply Hno; now right); exists x; auto.
Qed.

(** X2. When no event matching the primary pair has a positive price
    and one of them has no price at all, [get_valid_event] raises a
    TypeError, with or without a fallback pair: the comparison of the
    absent price with 0 is reached before anything is returned. *)
Theorem get_valid_event_none_price_raises events pt pn ft fn :
  no_usable_primary events pt pn ->
  (exists ev, In ev events /\ matches pt pn ev = true /\ price ev = None) ->
  exists msg, get_valid_event events pt pn ft fn = Raise (TypeError msg).
Proof.
  intros Hno (x & Hin & Hm & Hp). unfold get_valid_event.
  apply scan_none_price_raises.
  - intros ev Hev. apply Hno. apply -> sorted_desc_In in Hev. exact Hev.
  - exists x. split; [now apply sorted_desc_In|auto].
Qed.

Lemma get_valid_event_none_price_raises_witness :
  no_usable_primary
    [mk_event "SALE" "SOLD" 5 None None; pending_sale 2 None] "SALE" "SOLD" /\
  (exists ev, In ev [mk_event "SALE" "SOLD" 5 None None; pending_sale 2 None] /\
              matches "SALE" "SOLD" ev = true /\ price ev = None) /\
  exists msg,
    get_valid_event [mk_event "SALE" "SOLD" 5 None None; pending_sale 2 None]
      "SALE" "SOLD" (Some "LISTING") (Some "PENDING_SALE") = Raise (TypeError msg).
Proof.
  assert (H1 : no_usable_primary
                 [mk_event "SALE" "SOLD" 5 None None; pending_sale 2 None] "SALE" "SOLD").
  { intros ev [<-|[<-|[]]]; vm_compute; congruence. }
  assert (H2 : exists ev, In ev [mk_event "SALE" "SOLD" 5 None None; pending_sale 2 None] /\
                          matches "SALE" "SOLD" ev = true /\ price ev = None).
  { exists (mk_event "SALE" "SOLD" 5 None None). split; [now left|]. split; reflexivity. }
  split; [exact H1|]. split; [exact H2|].
  exact (get_valid_event_none_price_raises _ "SALE" "SOLD"
           (Some "LISTING") (Some "PENDING_SALE") H1 H2).
Defined.

Lemma last_fallback_oldest pt pn ft fn l :
  descending l -> forall fe e,
  last_fallback pt pn ft fn l fe = Some e ->
  (fe = Some e /\
   forall x, In x l -> matches pt pn x = true \/ matches_fallback ft fn x = false) \/
  (In e l /\
   forall x, In x l -> matches pt pn x = false -> matches_fallback ft fn x = true ->
             event_date e <= event_date x).
Proof.
  unfold descending. induction 1 as [|x l Hl IH Hx]; intros fe e; simpl.
  - intros ->. left. split; [reflexivity|]. intros x [].
  - intros H. rewrite List.Forall_forall in Hx.
    destruct (IH _ _ H) as [[Hfe Hnone]|[Hin Hmin]].
    + destruct (matches pt pn x) eqn:Hm.
      * left. split; [exact Hfe|]. intros y [<-|Hy]; auto.
      * destruct (matches_fallback ft fn x) eqn:Hf.
        -- injection Hfe as <-. right. split; [now left|].
           intros y [<-|Hy] Hym Hyf; [lia|].
           destruct (Hnone y Hy); congruence.
        -- left. split; [exact Hfe|]. intros y [<-|Hy]; auto.
    + right. split; [now right|].
      intros y [<-|Hy] Hym Hyf; [now apply Hx|now apply Hmin].
Qed.

(** X3. When the fallback is what [get_valid_event] returns (the
    primary matches carry prices, none of them positive), the event
    returned is the least recent event matching the fallback pair, not
    the most recent one: the loop keeps overwriting [fallback_event]
    as it scans from the newest event to the oldest. *)
Theorem get_valid_event_fallback_is_oldest events pt pn ft fn e :
  primary_priced events pt pn ->
  no_usable_primary events pt pn ->
  get_valid_event events pt pn ft fn = Ok (Some e) ->
  forall x, In x events -> matches pt pn x = false -> matches_fallback ft fn x = true ->
            event_date e <= event_date x.
Proof.
  intros Hpr Hno H x Hx Hm Hf.
  rewrite (get_valid_event_fallback _ _ _ ft fn Hpr Hno) in H. injection H as H.
  destruct (last_fallback_oldest pt pn ft fn _ (sorted_desc_descending events) _ _ H)
    as [[C _]|[_ Hmin]]; [discriminate|].
  apply Hmin; auto. now apply sorted_desc_In.
Qed.

Lemma get_valid_event_fallback_is_oldest_witness :
  primary_priced [sold_at_zero 9 None; pending_sale 7 None; pending_sale 4 None] "SALE" "SOLD" /\
  no_usable_primary [sold_at_zero 9 None; pending_sale 7 None; pending_sale 4 None]
    "SALE" "SOLD" /\
  get_valid_event [sold_at_zero 9 None; pending_sale 7 None; pending_sale 4 None]
    "SALE" "SOLD" (Some "LISTING") (Some "PENDING_SALE") = Ok (Some (pending_sale 4 None)) /\
  event_date (pending_sale 4 None) <= event_date (pending_sale 7 None).
Proof.
  assert (H1 : primary_priced
                 [sold_at_zero 9 None; pending_sale 7 None; pending_sale 4 None] "SALE" "SOLD").
  { intros ev [<-|[<-|[<-|[]]]]; simpl; congruence. }
  assert (H2 : no_usable_primary
                 [sold_at_zero 9 None; pending_sale 7 None; pending_sale 4 None] "SALE" "SOLD").
  { intros ev [<-|[<-|[<-|[]]]]; vm_compute; congruence. }
  split; [exact H1|]. split; [exact H2|]. split; [reflexivity|].
  apply (get_valid_event_fallback_is_oldest _ "SALE" "SOLD"
           (Some "LISTING") (Some "PENDING_SALE") _ H1 H2 eq_refl).
  - right. now left.
  - reflexivity.
  - reflexivity.
Defined.

End EventSelectionMore.

(** ** [subtract_months] *)

Section SubtractMonths.

Lemma days_in_month_bounds y m : 28 <= Sql.days_in_month y m <= 31.
Proof.
  unfold Sql.days_in_month.
  destruct (m =? 2); [destruct (Sql.is_leap y); lia|].
  destruct ((m =? 4) || (m =? 6) || (m =? 9) || (m =? 11)); lia.
Qed.

(** The loop leaves a positive month when it has fuel for it, and keeps
    the count of months since year 0. *)
Lemma wrap_months_exits fuel : forall month year,
  1 - month <= Z.of_nat fuel ->
  0 < fst (wrap_months fuel month year) /\
  (month <= 12 -> fst (wrap_months fuel month year) <= 12) /\
  (0 < month -> wrap_months fuel month year = (month, year)) /\
  12 * snd (wrap_months fuel month year) + fst (wrap_months fuel month year)
  = 12 * year + month.
Proof.
  induction fuel as [|fuel IH]; intros month year Hfuel.
  - simpl in *. repeat split; auto; lia.
  - cbn [wrap_months]. destruct (month <=? 0) eqn:E.
    + apply Z.leb_le in E.
      destruct (IH (month + 12) (year - 1)) as (H1 & H2 & H3 & H4); [lia|].
      split; [exact H1|]. split; [intros _; apply H2; lia|].
      split; [lia|]. rewrite H4. lia.
    + apply Z.leb_gt in E. simpl. repeat split; auto; lia.
Qed.

Lemma datetime_ok year month day :
  1 <= year <= 9999 -> 1 <= month <= 12 -> 1 <= day <= Sql.days_in_month year month ->
  datetime year month day = inr (Sql.mk_date year month day).
Proof.
  intros Hy Hm Hd. unfold datetime.
  replace (1 <=? year) with true by (symmetry; apply Z.leb_le; lia).
  replace (year <=? 9999) with true by (symmetry; apply Z.leb_le; lia).
  replace (1 <=? month) with true by (symmetry; apply Z.leb_le; lia).
  replace (month <=? 12) with true by (symmetry; apply Z.leb_le; lia).
  replace (1 <=? day) with true by (symmetry; apply Z.leb_le; lia).
  replace (day <=? Sql.days_in_month year month) with true by (symmetry; apply Z.leb_le; lia).
  reflexivity.
Qed.

(** X4. For a valid date and a number of months that is not negative
    and does not lead before year 1 or to December 9999,
    [subtract_months] returns a date whose month, counted from year 0,
    is exactly that many months earlier; its day is the smaller of the
    day given and 32 minus the length of the month reached. *)
Theorem subtract_months_counts_months d months :
  valid_date d -> 0 <= months ->
  13 <= 12 * Sql.year d + Sql.month d - months < 12 * 9999 + 12 ->
  exists r,
    subtract_months d months = inr r /\
    1 <= Sql.month r <= 12 /\
    12 * Sql.year r + Sql.month r = 12 * Sql.year d + Sql.month d - months /\
    Sql.day r = Z.min (Sql.day d) (32 - Sql.days_in_month (Sql.year r) (Sql.month r)).
Proof.
  intros (Hy & Hm & Hd) Hmonths Hrange. unfold subtract_months.
  destruct (wrap_months_exits (Z.to_nat (1 - (Sql.month d - months)))
              (Sql.month d - months) (Sql.year d)) as (H1 & H2 & _ & H4); [lia|].
  destruct (wrap_months _ _ _) as [m y]. cbn [fst snd] in *.
  specialize (H2 ltac:(lia)).
  assert (Hyr : 1 <= y <= 9999) by lia.
  pose proof (days_in_month_bounds y m) as Hb.
  rewrite datetime_ok by lia.
  unfold day_after_28_plus_4. cbn [Sql.year Sql.month].
  assert (E : (y =? 9999) && (m =? 12) = false).
  { apply andb_false_iff. destruct (Z.eq_dec y 9999) as [->|Hne].
    - right. apply Z.eqb_neq. lia.
    - left. now apply Z.eqb_neq. }
  rewrite E. rewrite datetime_ok by lia.
  eexists. split; [reflexivity|]. cbn. repeat split; lia.
Qed.

Lemma subtract_months_counts_months_witness :
  valid_date (Sql.mk_date 2025 3 15) /\ 0 <= 6 /\
  13 <= 12 * 2025 + 3 - 6 < 12 * 9999 + 12 /\
  exists r, subtract_months (Sql.mk_date 2025 3 15) 6 = inr r /\
            r = Sql.mk_date 2024 9 2.
Proof.
  assert (H : valid_date (Sql.mk_date 2025 3 15)) by (unfold valid_date, Sql.days_in_month; simpl; lia).
  split; [exact H|]. split; [lia|]. split; [simpl; lia|].
  destruct (subtract_months_counts_months (Sql.mk_date 2025 3 15) 6 H) as (r & Hr & _);
    [lia|simpl; lia|].
  exists r. split; [exact Hr|]. vm_compute in Hr. now injection Hr as <-.
Defined.

(** X5. Whatever date [subtract_months] returns, its day is between 1
    and 4 and not after the day given: four days after the 28th is a
    day of the next month, not the last day of this one, so the day is
    cut down to the first days of the month. *)
Theorem subtract_months_day_at_most_4 d months r :
  subtract_months d months = inr r ->
  1 <= Sql.day r <= 4 /\ Sql.day r <= Sql.day d.
Proof.
  unfold subtract_months.
  destruct (wrap_months _ _ _) as [m y].
  destruct (datetime y m 1) as [e|first] eqn:E1; [discriminate|].
  assert (Hf : first = Sql.mk_date y m 1).
  { unfold datetime in E1. destruct (_ && _) in E1; congruence. }
  subst first. unfold day_after_28_plus_4. cbn [Sql.year Sql.month].
  destruct ((y =? 9999) && (m =? 12)); [discriminate|].
  unfold datetime.
  destruct (_ && _) eqn:E; [|discriminate].
  intros [= <-]. cbn [Sql.day].
  apply andb_true_iff in E as [E _]. apply andb_true_iff in E as [_ E].
  apply Z.leb_le in E.
  pose proof (days_in_month_bounds y m). lia.
Qed.

Lemma subtract_months_day_at_most_4_witness :
  subtract_months (Sql.mk_date 2025 6 30) 6 = inr (Sql.mk_date 2024 12 1) /\
  1 <= Sql.day (Sql.mk_date 2024 12 1) <= 4 /\
  Sql.day (Sql.mk_date 2024 12 1) <= Sql.day (Sql.mk_date 2025 6 30).
Proof.
  split; [reflexivity|].
  apply (subtract_months_day_at_most_4 (Sql.mk_date 2025 6 30) 6). reflexivity.
Defined.

(** X6. [subtract_months] does not bring a month above 12 back into
    range and does not go before year 1: a negative number of months
    that takes the month past December, or a number of months that
    leads before January of year 1, raises ValueError. *)
Theorem subtract_months_out_of_range d months :
  valid_date d ->
  12 < Sql.month d - months \/ 12 * Sql.year d + Sql.month d - months < 13 ->
  subtract_months d months = inl ValueError.
Proof.
  intros (Hy & Hm & Hd) Hout. unfold subtract_months.
  destruct (wrap_months_exits (Z.to_nat (1 - (Sql.month d - months)))
              (Sql.month d - months) (Sql.year d)) as (H1 & H2 & H3 & H4); [lia|].
  destruct (wrap_months _ _ _) as [m y] eqn:Ew. cbn [fst snd] in *.
  assert (E : datetime y m 1 = inl ValueError).
  { unfold datetime. destruct Hout as [Hbig|Hsmall].
    - injection (H3 ltac:(lia)) as -> ->.
      replace (Sql.month d - months <=? 12) with false
        by (symmetry; apply Z.leb_gt; lia).
      now rewrite !andb_false_r.
    - assert (Hle : m <= 12).
      { destruct (Z_lt_le_dec 0 (Sql.month d - months)) as [Hpos|Hnp].
        - injection (H3 Hpos) as -> ->. lia.
        - apply H2. lia. }
      replace (1 <=? y) with false by (symmetry; apply Z.leb_gt; lia).
      reflexivity. }
  now rewrite E.
Qed.

Lemma subtract_months_out_of_range_witness :
  valid_date (Sql.mk_date 2025 11 3) /\
  (12 < 11 - (-2) \/ 12 * 2025 + 11 - (-2) < 13) /\
  subtract_months (Sql.mk_date 2025 11 3) (-2) = inl ValueError.
Proof.
  assert (H : valid_date (Sql.mk_date 2025 11 3)) by (unfold valid_date, Sql.days_in_month; simpl; lia).
  split; [exact H|]. split; [left; lia|].
  apply (subtract_months_out_of_range (Sql.mk_date 2025 11 3) (-2) H). left. simpl. lia.
Defined.

End SubtractMonths.

(** ** Advancing and reading the watermark *)

Section WatermarkMore.

Lemma tracker_rows_of_insert name r d :
  tracker_rows_of name (insert_tracker r d) =
  (tracker_rows_of name d ++ (if String.eqb (Tracker.tbl_nm r) name then [r] else []))%list.
Proof.
  unfold tracker_rows_of, insert_tracker. cbn [adf_load_tracker].
  rewrite List.filter_app. reflexivity.
Qed.

Lemma sql_max_app_last column v :
  (forall x, In (Some x) column -> x <= v) ->
  Sql.sql_max (column ++ [Some v]) = Some v.
Proof.
  induction column as [|[x|] rest IH]; intros H; simpl.
  - reflexivity.
  - rewrite IH by (intros y Hy; apply H; now right).
    f_equal. specialize (H x (or_introl eq_refl)). lia.
  - apply IH. intros y Hy. apply H. now right.
Qed.

Lemma sql_max_app_null column : Sql.sql_max (column ++ [None]) = Sql.sql_max column.
Proof.
  induction column as [|[x|] rest IH]; simpl; [reflexivity| |exact IH].
  now rewrite IH.
Qed.

(** X7. Advance, then read. When no call fails, advancing the
    watermark of a table to a timestamp and a generation that are not
    below what is recorded for it, and reading it back on the same
    connection, gives exactly that timestamp and generation. *)
Theorem advance_then_read env tbl_name ts nr w :
  fault_free env ->
  (forall x, In (Some x) (map Tracker.last_loaded_ts
                            (tracker_rows_of tbl_name (working (conn w)))) -> x <= ts) ->
  (forall y, In (Some y) (map Tracker.etl_nr
                            (tracker_rows_of tbl_name (working (conn w)))) -> y <= nr) ->
  exists w1 w2,
    upd_lookup_tbl tbl_name (Some ts) (Some nr) env w = (Ok tt, w1) /\
    committed (conn w1) = working (conn w1) /\
    get_last_etl_ts tbl_name env w1 = (Ok (ts, nr), w2).
Proof.
  intros Hff Hts Hnr.
  rewrite (upd_lookup_tbl_ok env Hff). eexists _, _.
  split; [reflexivity|]. split; [reflexivity|].
  rewrite get_last_etl_ts_ok by apply Hff.
  cbn [conn working]. unfold last_etl_ts_query.
  rewrite tracker_rows_of_insert. cbn [Tracker.tbl_nm]. rewrite String.eqb_refl.
  rewrite !map_app. cbn [map Tracker.last_loaded_ts Tracker.etl_nr].
  rewrite (sql_max_app_last _ ts Hts), (sql_max_app_last _ nr Hnr). reflexivity.
Qed.

Lemma advance_then_read_witness :
  fault_free sample_env /\
  (forall x, In (Some x) (map Tracker.last_loaded_ts
               (tracker_rows_of raw_table (working (conn (connect tracked_db))))) ->
             x <= 1750000000) /\
  (forall y, In (Some y) (map Tracker.etl_nr
               (tracker_rows_of raw_table (working (conn (connect tracked_db))))) ->
             y <= 3) /\
  exists w1 w2,
    upd_lookup_tbl raw_table (Some 1750000000) (Some 3) sample_env (connect tracked_db)
      = (Ok tt, w1) /\
    get_last_etl_ts raw_table sample_env w1 = (Ok (1750000000, 3), w2).
Proof.
  assert (H : fault_free sample_env) by (intros n; reflexivity).
  assert (H1 : forall x, In (Some x) (map Tracker.last_loaded_ts
               (tracker_rows_of raw_table (working (conn (connect tracked_db))))) ->
               x <= 1750000000).
  { intros x Hx. vm_compute in Hx. destruct Hx as [[= <-]|[[= <-]|[]]]; lia. }
  assert (H2 : forall y, In (Some y) (map Tracker.etl_nr
               (tracker_rows_of raw_table (working (conn (connect tracked_db))))) ->
               y <= 3).
  { intros y Hy. vm_compute in Hy. destruct Hy as [[= <-]|[[= <-]|[]]]; lia. }
  split; [exact H|]. split; [exact H1|]. split; [exact H2|].
  destruct (advance_then_read sample_env raw_table 1750000000 3 (connect tracked_db) H H1 H2)
    as (w1 & w2 & Hu & _ & Hr).
  exists w1, w2. split; [exact Hu|exact Hr].
Defined.

(** X8. Whatever calls fail, [upd_lookup_tbl] either ends normally and
    has committed the registry with exactly one more row, for the
    table named, under an id above every id already there, or fails
    and has committed nothing. Rows already recorded are never
    changed. *)
Theorem upd_lookup_tbl_appends_one_row env pipeline_nm ts nr w r w' :
  upd_lookup_tbl pipeline_nm ts nr env w = (r, w') ->
  (r = Ok tt ->
   exists row,
     adf_load_tracker (committed (conn w')) =
       (adf_load_tracker (working (conn w)) ++ [row])%list /\
     Tracker.tbl_nm row = pipeline_nm /\
     Tracker.last_loaded_ts row = ts /\ Tracker.etl_nr row = nr /\
     forall old, In old (adf_load_tracker (working (conn w))) ->
                 Tracker.tbl_id old < Tracker.tbl_id row) /\
  ((exists e, r = Raise e) -> committed (conn w') = committed (conn w)).
Proof.
  intros Hrun.
  destruct (upd_lookup_tbl_cases env pipeline_nm ts nr w)
    as [(e & w1 & Hr & Hc)|(k & Hr)]; rewrite Hrun in Hr.
  - injection Hr as -> ->. split; [discriminate|]. intros _. exact Hc.
  - injection Hr as -> ->. split; [|intros [e C]; discriminate].
    intros _. eexists. cbn [conn committed insert_tracker adf_load_tracker].
    split; [reflexivity|]. cbn. repeat split.
    intros old Hold.
    apply (in_map (fun r => Some (Tracker.tbl_id r))) in Hold.
    destruct (Sql.sql_max _) as [m|] eqn:E.
    + apply sql_max_some in E as [_ Hle]. specialize (Hle _ Hold). lia.
    + now destruct (sql_max_none _ E (Tracker.tbl_id old)).
Qed.

Lemma upd_lookup_tbl_appends_one_row_witness :
  exists w',
    upd_lookup_tbl "slvr_int_prop" (Some 1750000000) (Some 5) sample_env (connect tracked_db)
      = (Ok tt, w') /\
    exists row,
      adf_load_tracker (committed (conn w')) = (adf_load_tracker tracked_db ++ [row])%list /\
      Tracker.tbl_nm row = "slvr_int_prop" /\
      forall old, In old (adf_load_tracker tracked_db) ->
                  Tracker.tbl_id old < Tracker.tbl_id row.
Proof.
  eexists. split; [reflexivity|].
  destruct (proj1 (upd_lookup_tbl_appends_one_row sample_env "slvr_int_prop"
                     (Some 1750000000) (Some 5) (connect tracked_db) _ _ eq_refl) eq_refl)
    as (row & Htab & Hnm & _ & _ & Hid).
  exists row. split; [exact Htab|]. split; [exact Hnm|exact Hid].
Defined.

(** X9. Advancing the watermark of one table does not move the
    watermark of any other table. *)
Theorem advance_leaves_other_tables env pipeline_nm other ts nr w :
  fault_free env -> other <> pipeline_nm ->
  exists w',
    upd_lookup_tbl pipeline_nm ts nr env w = (Ok tt, w') /\
    last_etl_ts_query other (committed (conn w')) = last_etl_ts_query other (working (conn w)).
Proof.
  intros Hff Hne. rewrite (upd_lookup_tbl_ok env Hff). eexists. split; [reflexivity|].
  cbn [conn committed]. unfold last_etl_ts_query.
  rewrite tracker_rows_of_insert. cbn [Tracker.tbl_nm].
  assert (String.eqb pipeline_nm other = false) as ->
    by (apply String.eqb_neq; congruence).
  now rewrite app_nil_r.
Qed.

Lemma advance_leaves_other_tables_witness :
  fault_free sample_env /\ "silver_int_inv_dtl" <> raw_table /\
  exists w',
    upd_lookup_tbl raw_table (Some 1750000000) (Some 9) sample_env (connect tracked_db)
      = (Ok tt, w') /\
    last_etl_ts_query "silver_int_inv_dtl" (committed (conn w')) = (1745000000, 4).
Proof.
  assert (H : fault_free sample_env) by (intros n; reflexivity).
  assert (Hne : "silver_int_inv_dtl" <> raw_table) by discriminate.
  split; [exact H|]. split; [exact Hne|].
  destruct (advance_leaves_other_tables sample_env raw_table "silver_int_inv_dtl"
              (Some 1750000000) (Some 9) (connect tracked_db) H Hne) as (w' & Hu & Hq).
  exists w'. split; [exact Hu|]. rewrite Hq. reflexivity.
Defined.

(** X10. [bnz_prps_upd] called without its two parameters ends
    normally, when no call fails, and records a row of NULLs for the
    raw table: the registry grows by one row and every watermark reads
    as before. *)
Theorem bnz_prps_upd_without_parameters env d :
  fault_free env ->
  exists w',
    bnz_prps_upd None None env (connect d) = (Ok tt, w') /\
    length (adf_load_tracker (durable w')) = S (length (adf_load_tracker d)) /\
    forall tbl_name, last_etl_ts_query tbl_name (durable w') = last_etl_ts_query tbl_name d.
Proof.
  intros Hff. unfold bnz_prps_upd, rewrap, bind.
  rewrite (upd_lookup_tbl_ok env Hff). unfold end_process, rewrap.
  cbn [reraise conn working committed connect calls].
  eexists. split; [reflexivity|]. unfold durable. cbn [conn committed].
  split.
  - unfold insert_tracker. cbn [adf_load_tracker]. rewrite length_app. simpl. lia.
  - intros tbl_name. unfold last_etl_ts_query. rewrite tracker_rows_of_insert.
    cbn [Tracker.tbl_nm].
    destruct (String.eqb _ tbl_name); [|now rewrite app_nil_r].
    rewrite !map_app. cbn [map Tracker.last_loaded_ts Tracker.etl_nr].
    now rewrite !sql_max_app_null.
Qed.

Lemma bnz_prps_upd_without_parameters_witness :
  fault_free sample_env /\
  exists w',
    bnz_prps_upd None None sample_env (connect tracked_db) = (Ok tt, w') /\
    length (adf_load_tracker (durable w')) = 4%nat /\
    last_etl_ts_query raw_table (durable w') = (1741000000, 2).
Proof.
  assert (H : fault_free sample_env) by (intros n; reflexivity).
  split; [exact H|].
  destruct (bnz_prps_upd_without_parameters sample_env tracked_db H) as (w' & Hu & Hl & Hq).
  exists w'. split; [exact Hu|]. split; [exact Hl|]. rewrite Hq. reflexivity.
Defined.

End WatermarkMore.

(** ** What a run of the investor stage can leave *)

Section InvestorRuns.

Lemma aggregation_query_empty yr_ty sqft_ty today d :
  aggregation_input today d = [] -> aggregation_query yr_ty sqft_ty today d = [].
Proof. unfold aggregation_query. now intros ->. Qed.

Lemma deactivated_all_inactive t r :
  active_in_latest_generation t ->
  In r (map (deactivate_row
               (Sql.coalesce (Sql.sql_max (map (fun r => Some (Inv.etl_nr r)) t)) 0)) t) ->
  Inv.active_rec_ind r = false.
Proof.
  intros Hinv Hr. destruct (Inv.active_rec_ind r) eqn:A; [|reflexivity]. exfalso.
  assert (Hin : In r (active_rows_of (Inv.investor_company_nm_txt r)
                        (map (deactivate_row
                                (Sql.coalesce
                                   (Sql.sql_max (map (fun r => Some (Inv.etl_nr r)) t)) 0)) t))).
  { apply filter_In. split; [exact Hr|]. now rewrite A, String.eqb_refl. }
  rewrite (deactivated_none_active _ _ Hinv) in Hin. destruct Hin.
Qed.

(** X11. Whatever calls fail, a run of [process_slv_int_inv] never
    touches the raw table or the sales table, never leaves part of a
    batch, and advances the watermark only when it ends normally: when
    it fails the registry is as it was and the investor table holds
    either no new row or the whole batch. *)
Theorem process_slv_int_inv_outcomes env d r w' :
  process_slv_int_inv env (connect d) = (r, w') ->
  brnz_prps_prop_sales_dtl (durable w') = brnz_prps_prop_sales_dtl d /\
  slvr_int_prop_sales_dlt (durable w') = slvr_int_prop_sales_dlt d /\
  (r = Ok tt -> durable w' = db_after_process_slv_int_inv env d) /\
  ((exists e, r = Raise e) ->
   adf_load_tracker (durable w') = adf_load_tracker d /\
   (map Inv.slvr_int_inv_dtl_sk (slvr_int_inv_dtl (durable w')) =
      map Inv.slvr_int_inv_dtl_sk (slvr_int_inv_dtl d) \/
    slvr_int_inv_dtl (durable w') =
      inv_table_after env
        (aggregation_query (yr_blt_type env) (sqft_type env) (today env) d)
        (fst (next_keys_query d)) (snd (next_keys_query d)) (slvr_int_inv_dtl d))).
Proof.
  intros Hrun.
  destruct (process_slv_int_inv_cases env d) as (r0 & w0 & Hrun0 & Hcases).
  rewrite Hrun in Hrun0. injection Hrun0 as <- <-.
  destruct Hcases as [[-> ->]|[[e ->] [->|[->| ->]]]].
  - split; [reflexivity|]. split; [reflexivity|]. split; [reflexivity|].
    intros [e C]. discriminate.
  - split; [reflexivity|]. split; [reflexivity|]. split; [discriminate|].
    intros _. split; [reflexivity|]. left. reflexivity.
  - split; [reflexivity|]. split; [reflexivity|]. split; [discriminate|].
    intros _. split; [reflexivity|]. left.
    unfold upd_query. cbn [slvr_int_inv_dtl]. rewrite map_map.
    apply map_ext. intros x. apply deactivate_row_keys.
  - split; [reflexivity|]. split; [reflexivity|]. split; [discriminate|].
    intros _. split; [reflexivity|]. right. reflexivity.
Qed.

Lemma process_slv_int_inv_outcomes_witness :
  exists e w',
    process_slv_int_inv first_insert_fails (connect seeded_db) = (Raise e, w') /\
    adf_load_tracker (durable w') = adf_load_tracker seeded_db /\
    map Inv.slvr_int_inv_dtl_sk (slvr_int_inv_dtl (durable w')) = [1; 2].
Proof.
  eexists _, _. split; [vm_compute; reflexivity|].
  match goal with |- adf_load_tracker (durable ?w) = _ /\ _ =>
    destruct (process_slv_int_inv_outcomes first_insert_fails seeded_db
                (Raise (Wrapped (Wrapped call_failed))) w) as (_ & _ & _ & H)
  end; [vm_compute; reflexivity|].
  destruct (H (ex_intro _ _ eq_refl)) as [Ht _].
  split; [exact Ht|]. reflexivity.
Defined.

(** X12. The empty batch. When no raw row passes the filters and no
    call fails, the run still ends normally and advances the
    watermark; it inserts nothing and, on a table whose active rows
    are in the latest generation, leaves no active row at all. The
    table's largest generation is unchanged, so the next run stamps
    the generation this run has just recorded in the registry. *)
Theorem process_slv_int_inv_empty_batch env d :
  fault_free env ->
  aggregation_input (today env) d = [] ->
  active_in_latest_generation (slvr_int_inv_dtl d) ->
  exists w',
    process_slv_int_inv env (connect d) = (Ok tt, w') /\
    length (slvr_int_inv_dtl (durable w')) = length (slvr_int_inv_dtl d) /\
    (forall r, In r (slvr_int_inv_dtl (durable w')) -> Inv.active_rec_ind r = false) /\
    next_keys_query (durable w') = next_keys_query d /\
    List.last (map Tracker.etl_nr (adf_load_tracker (durable w'))) None =
      Some (snd (next_keys_query d) + 1).
Proof.
  intros Hff Hempty Hinv.
  destruct (process_slv_int_inv_ok env Hff d) as (w' & Hrun & Hd).
  exists w'. split; [exact Hrun|]. rewrite Hd.
  unfold db_after_process_slv_int_inv, inv_table_after.
  rewrite (aggregation_query_empty _ _ _ _ Hempty).
  cbn [slvr_int_inv_dtl adf_load_tracker new_inv_rows]. rewrite app_nil_r.
  split; [apply length_map|]. split.
  - intros r Hr. now apply (deactivated_all_inactive (slvr_int_inv_dtl d)).
  - split.
    + apply (next_keys_query_retired (snd (next_keys_query d)) d).
    + rewrite map_app. apply List.last_last.
Qed.

Lemma process_slv_int_inv_empty_batch_witness :
  fault_free sample_env /\
  aggregation_input (today sample_env)
    (mk_db [] [] (slvr_int_inv_dtl seeded_db) []) = [] /\
  active_in_latest_generation (slvr_int_inv_dtl seeded_db) /\
  exists w',
    process_slv_int_inv sample_env (connect (mk_db [] [] (slvr_int_inv_dtl seeded_db) []))
      = (Ok tt, w') /\
    map Inv.active_rec_ind (slvr_int_inv_dtl (durable w')) = [false; false] /\
    next_keys_query (durable w') = (2, 1).
Proof.
  assert (H : fault_free sample_env) by (intros n; reflexivity).
  assert (Hinv : active_in_latest_generation (slvr_int_inv_dtl seeded_db)).
  { apply (active_in_latest_generation_after sample_env acme_db). intros r []. }
  split; [exact H|]. split; [reflexivity|]. split; [exact Hinv|].
  destruct (process_slv_int_inv_empty_batch sample_env
              (mk_db [] [] (slvr_int_inv_dtl seeded_db) []) H eq_refl Hinv)
    as (w' & Hrun & _ & _ & Hk & _).
  exists w'. split; [exact Hrun|]. split; [|rewrite Hk; reflexivity].
  assert (E : durable w' = db_after_process_slv_int_inv sample_env
                             (mk_db [] [] (slvr_int_inv_dtl seeded_db) [])).
  { destruct (process_slv_int_inv_ok sample_env H
                (mk_db [] [] (slvr_int_inv_dtl seeded_db) [])) as (w2 & Hrun2 & Hd).
    rewrite Hrun in Hrun2. injection Hrun2 as <-. exact Hd. }
  rewrite E. reflexivity.
Defined.

End InvestorRuns.

(** ** What the aggregation query returns *)

Section AggregationMore.

Lemma sum_Z_add {A} (f g : A -> Z) l :
  sum_Z (map (fun x => f x + g x) l) = sum_Z (map f l) + sum_Z (map g l).
Proof. induction l as [|x l IH]; simpl; lia. Qed.

Lemma sum_Z_indicator name names :
  NoDup names -> In name names ->
  sum_Z (map (fun n => if String.eqb name n then 1 else 0) names) = 1.
Proof.
  induction 1 as [|n names Hn Hnd IH]; simpl; [intros []|].
  rewrite list_elem_of_In in Hn.
  intros [->|Hin].
  - rewrite String.eqb_refl.
    assert (E : sum_Z (map (fun n => if String.eqb name n then 1 else 0) names) = 0).
    { clear IH Hnd. induction names as [|m names IH]; simpl; [reflexivity|].
      destruct (String.eqb name m) eqn:E.
      - apply String.eqb_eq in E. subst. exfalso. apply Hn. now left.
      - rewrite IH; [reflexivity|]. intros C. apply Hn. now right. }
    lia.
  - destruct (String.eqb name n) eqn:E.
    + apply String.eqb_eq in E. subst. contradiction.
    + now rewrite IH.
Qed.

Lemma group_counts_add_up names : forall rows,
  NoDup names ->
  (forall r, In r rows -> exists n, In n names /\ Brnz.investor_company_nm_txt r = Some n) ->
  sum_Z (map (fun n => count_rows (group_rows n rows)) names) = Z.of_nat (length rows).
Proof.
  intros rows Hnd. induction rows as [|r rows IH]; intros Hall.
  - simpl. clear. induction names; simpl; auto.
  - destruct (Hall r (or_introl eq_refl)) as (k & Hk & Hname).
    rewrite (map_ext _ (fun n => (if String.eqb k n then 1 else 0)
                                 + count_rows (group_rows n rows))).
    + rewrite sum_Z_add, (sum_Z_indicator k names Hnd Hk), IH.
      * simpl length. lia.
      * intros x Hx. apply Hall. now right.
    + intros n. unfold count_rows, group_rows. simpl. rewrite Hname. simpl.
      destruct (String.eqb k n); simpl length; lia.
Qed.

(** X13. The groups partition the input: the property counts of the
    rows the aggregation returns add up to the number of raw rows it
    ran on, so every eligible raw row is counted for exactly one
    investor. *)
Theorem aggregation_counts_add_up yr_ty sqft_ty today d :
  sum_Z (map Agg.num_properties (aggregation_query yr_ty sqft_ty today d)) =
  Z.of_nat (length (aggregation_input today d)).
Proof.
  unfold aggregation_query, grouped. rewrite !map_map. cbn [aggregate_group Agg.num_properties].
  apply group_counts_add_up; [apply group_names_NoDup|].
  intros r Hr.
  assert (Hreq : required_not_null r = true) by now apply aggregation_input_In in Hr.
  apply required_not_null_true in Hreq as (Hn & _).
  destruct (Brnz.investor_company_nm_txt r) as [n|] eqn:E; [|congruence].
  exists n. split; [|reflexivity]. apply group_names_In. eauto.
Qed.

Lemma sql_max_defined {A} (col : A -> option Z) (g : list A) :
  g <> [] -> (forall r, In r g -> col r <> None) ->
  exists m, Sql.sql_max (map col g) = Some m.
Proof.
  destruct g as [|r g]; [congruence|]. intros _ H. simpl.
  destruct (col r) as [v|] eqn:E.
  - destruct (Sql.sql_max (map col g)); eauto.
  - exfalso. apply (H r); auto. now left.
Qed.

(** X14. In every row the aggregation returns, the smallest and the
    largest sale amount are sale amounts of raw rows of the group, and
    every sale amount of the group lies between them. *)
Theorem aggregation_amount_bounds yr_ty sqft_ty today d g :
  In g (aggregation_query yr_ty sqft_ty today d) ->
  let rows := group_rows (Agg.investor_company_nm_txt g) (aggregation_input today d) in
  (exists r, In r rows /\ Brnz.prop_last_sale_amt r = Some (Agg.min_props_amnt g)) /\
  (exists r, In r rows /\ Brnz.prop_last_sale_amt r = Some (Agg.mx_props_amnt g)) /\
  (forall r a, In r rows -> Brnz.prop_last_sale_amt r = Some a ->
               Agg.min_props_amnt g <= a <= Agg.mx_props_amnt g).
Proof.
  intros Hg. apply aggregation_query_In in Hg as (name & Hname & ->).
  cbn [aggregate_group Agg.investor_company_nm_txt Agg.min_props_amnt Agg.mx_props_amnt].
  set (rows := group_rows name (aggregation_input today d)). cbv zeta.
  assert (Hne : rows <> []).
  { apply group_names_In in Hname as (r & Hr & Hn).
    assert (Hin : In r rows) by (apply group_rows_In; auto).
    intros E. rewrite E in Hin. destruct Hin. }
  assert (Hnn : forall r, In r rows -> Brnz.prop_last_sale_amt r <> None).
  { intros r Hr. apply group_rows_In in Hr as [Hr _].
    apply aggregation_input_In in Hr as (_ & _ & Hreq).
    apply required_not_null_true in Hreq. tauto. }
  destruct (sql_min_defined Brnz.prop_last_sale_amt rows Hne Hnn) as [mn Hmn].
  destruct (sql_max_defined Brnz.prop_last_sale_amt rows Hne Hnn) as [mx Hmx].
  rewrite Hmn, Hmx. cbn [Sql.coalesce].
  apply sql_min_some in Hmn as [Hmn1 Hmn2].
  apply sql_max_some in Hmx as [Hmx1 Hmx2].
  split; [|split].
  - apply in_map_iff in Hmn1 as (r & E & Hr). eauto.
  - apply in_map_iff in Hmx1 as (r & E & Hr). eauto.
  - intros r a Hr Ha. split.
    + apply Hmn2. rewrite <- Ha. now apply in_map.
    + apply Hmx2. rewrite <- Ha. now apply in_map.
Qed.

Lemma aggregation_amount_bounds_witness :
  In acme_row (aggregation_query Sql.IntegerCol Sql.IntegerCol (today sample_env) acme_db) /\
  Agg.min_props_amnt acme_row = 90000 /\ Agg.mx_props_amnt acme_row = 120000 /\
  forall r a,
    In r (group_rows (Agg.investor_company_nm_txt acme_row)
            (aggregation_input (today sample_env) acme_db)) ->
    Brnz.prop_last_sale_amt r = Some a ->
    Agg.min_props_amnt acme_row <= a <= Agg.mx_props_amnt acme_row.
Proof.
  assert (Hin : In acme_row
            (aggregation_query Sql.IntegerCol Sql.IntegerCol (today sample_env) acme_db)).
  { apply aggregation_query_In. exists "Acme LLC". split; [|reflexivity].
    vm_compute. now left. }
  split; [exact Hin|]. split; [reflexivity|]. split; [reflexivity|].
  exact (proj2 (proj2 (aggregation_amount_bounds _ _ _ _ _ Hin))).
Defined.

(** X15. The ZIP list of a returned row has no duplicates and holds
    exactly the ZIP codes of the raw rows of the group. *)
Theorem aggregation_zip_list yr_ty sqft_ty today d g :
  In g (aggregation_query yr_ty sqft_ty today d) ->
  NoDup (Agg.list_zips g) /\
  forall zip,
    In zip (Agg.list_zips g) <->
    exists r, In r (group_rows (Agg.investor_company_nm_txt g) (aggregation_input today d)) /\
              Brnz.prop_zip_cd r = Some zip.
Proof.
  intros Hg. apply aggregation_query_In in Hg as (name & Hname & ->).
  cbn [aggregate_group Agg.investor_company_nm_txt Agg.list_zips].
  split; [apply NoDup_remove_dups|].
  intros zip. rewrite <- list_elem_of_In, elem_of_remove_dups, list_elem_of_omap.
  split; intros (r & H1 & H2); exists r; split; auto; now apply list_elem_of_In.
Qed.

Lemma aggregation_zip_list_witness :
  In acme_row (aggregation_query Sql.IntegerCol Sql.IntegerCol (today sample_env) acme_db) /\
  NoDup (Agg.list_zips acme_row) /\
  Agg.list_zips acme_row = ["38104"; "38111"].
Proof.
  assert (Hin : In acme_row
            (aggregation_query Sql.IntegerCol Sql.IntegerCol (today sample_env) acme_db)).
  { apply aggregation_query_In. exists "Acme LLC". split; [|reflexivity].
    vm_compute. now left. }
  split; [exact Hin|].
  split; [exact (proj1 (aggregation_zip_list _ _ _ _ _ Hin))|reflexivity].
Defined.

Lemma condition_indicator_at_most_1 (s : option string) :
  0 <= sum_Z (map (fun c => if Sql.eq_text s (condition_type_name c) then 1 else 0)
                  condition_types) <= 1.
Proof.
  destruct s as [s|]; [|simpl; lia].
  unfold condition_types. cbn [map sum_Z Sql.eq_text condition_type_name].
  destruct (String.eqb s "Good") eqn:E1;
    [apply String.eqb_eq in E1; subst s; simpl; lia|].
  destruct (String.eqb s "Average") eqn:E2;
    [apply String.eqb_eq in E2; subst s; simpl; lia|].
  destruct (String.eqb s "Disrepair") eqn:E3;
    [apply String.eqb_eq in E3; subst s; simpl; lia|].
  destruct (String.eqb s "Excellent") eqn:E4;
    [apply String.eqb_eq in E4; subst s; simpl; lia|].
  destruct (String.eqb s "Poor"); lia.
Qed.

Lemma tallies_at_most_length key (g : list Brnz.row) :
  0 <= sum_Z (map (tally_of g key) condition_types) <= Z.of_nat (length g).
Proof.
  induction g as [|r g IH].
  - unfold condition_types, tally_of. simpl. lia.
  - rewrite (map_ext _ (fun c => (if Sql.eq_text (condition_column key r)
                                       (condition_type_name c) then 1 else 0)
                                 + tally_of g key c)).
    + rewrite sum_Z_add.
      pose proof (condition_indicator_at_most_1 (condition_column key r)).
      simpl length. lia.
    + intros c. unfold tally_of. simpl.
      destruct (Sql.eq_text _ _); simpl length; lia.
Qed.

(** X16. In every returned row, for each of the five condition
    columns, the five tallies are not negative and add up to at most
    the property count of the group: a raw row is counted under at
    most one quality level, and under none when its condition is NULL
    or another word. *)
Theorem aggregation_tallies_bounded yr_ty sqft_ty today d g key :
  In g (aggregation_query yr_ty sqft_ty today d) ->
  (forall c, 0 <= Agg.tally g key c) /\
  sum_Z (map (Agg.tally g key) condition_types) <= Agg.num_properties g.
Proof.
  intros Hg. apply aggregation_query_In in Hg as (name & Hname & ->).
  cbn [aggregate_group Agg.tally Agg.num_properties]. split.
  - intros c. unfold tally_of. lia.
  - apply tallies_at_most_length.
Qed.

Lemma aggregation_tallies_bounded_witness :
  In acme_row (aggregation_query Sql.IntegerCol Sql.IntegerCol (today sample_env) acme_db) /\
  map (Agg.tally acme_row prop_tlt_cnd_nm) condition_types = [2; 0; 0; 0; 0] /\
  sum_Z (map (Agg.tally acme_row prop_int_cnd_nm) condition_types)
    <= Agg.num_properties acme_row.
Proof.
  assert (Hin : In acme_row
            (aggregation_query Sql.IntegerCol Sql.IntegerCol (today sample_env) acme_db)).
  { apply aggregation_query_In. exists "Acme LLC". split; [|reflexivity].
    vm_compute. now left. }
  split; [exact Hin|]. split; [reflexivity|].
  exact (proj2 (aggregation_tallies_bounded _ _ _ _ _ prop_int_cnd_nm Hin)).
Defined.

End AggregationMore.

(** ** What a run of the sales stage can leave *)

Section SalesRuns.

Lemma retire_row_key a r :
  Sale.slvr_int_prop_dtl_sk (retire_row a r) = Sale.slvr_int_prop_dtl_sk r.
Proof. unfold retire_row. now destruct (is_latest_of a r). Qed.

Lemma retire_row_usraddr a r : Sale.usraddr (retire_row a r) = Sale.usraddr r.
Proof. unfold retire_row. now destruct (is_latest_of a r). Qed.

Lemma sales_table_after_keys env nr ld ts rows : forall sk t,
  map Sale.slvr_int_prop_dtl_sk (sales_table_after env rows sk nr ld ts t) =
  (map Sale.slvr_int_prop_dtl_sk t ++
   map (fun i => sk + Z.of_nat i) (seq 1 (length rows)))%list.
Proof.
  induction rows as [|row rest IH]; intros sk t.
  - simpl. now rewrite app_nil_r.
  - cbn [sales_table_after length seq]. rewrite IH, map_app, map_map.
    rewrite (map_ext (fun x => Sale.slvr_int_prop_dtl_sk (retire_row (SaleIn.usraddr row) x))
                     Sale.slvr_int_prop_dtl_sk) by (intros; apply retire_row_key).
    rewrite <- app_assoc. f_equal. cbn [map app sale_row_of Sale.slvr_int_prop_dtl_sk].
    f_equal.
    rewrite <- (seq_shift (length rest) 1), map_map. apply map_ext. intros i. lia.
Qed.

Lemma insert_asc_length {A} (key : A -> Z) a l :
  length (Sql.insert_asc key a l) = S (length l).
Proof.
  induction l as [|x l IH]; simpl; [reflexivity|].
  destruct (key x <? key a); simpl; [now rewrite IH|reflexivity].
Qed.

Lemma order_by_asc_length {A} (key : A -> Z) l :
  length (Sql.order_by_asc key l) = length l.
Proof.
  induction l as [|x l IH]; simpl; [reflexivity|].
  now rewrite insert_asc_length, IH.
Qed.

(** X17. The sales stage is all or nothing: whichever database call
    fails, a run that raises leaves the committed database exactly as
    it found it, and a run that ends normally leaves the whole batch. *)
Theorem sales_stage_all_or_nothing env nr ld ts sk d :
  exists r w',
    prc_slv_int_prop_sls_dlt_pl nr ld ts sk env (connect d) = (r, w') /\
    ((r = Ok tt /\
      durable w' = db_after_prc_slv_int_prop_sls_dlt_pl env nr ld ts sk d) \/
     ((exists e, r = Raise e) /\ durable w' = d)).
Proof.
  destruct (prc_slv_int_prop_sls_dlt_pl_run env nr ld ts sk d) as (r & w' & E & H & _).
  exists r, w'. split; [exact E|exact H].
Qed.

(** X18. Started the way the dispatcher starts it, with the largest
    key of the sales table, a run without failures inserts one row per
    raw row of the watermarked batch and numbers them consecutively
    after that key; the keys of rows already there do not change, so
    keys that were unique stay unique. *)
Theorem sales_keys_stay_unique env nr ld ts d :
  fault_free env ->
  NoDup (map Sale.slvr_int_prop_dtl_sk (slvr_int_prop_sales_dlt d)) ->
  exists w',
    prc_slv_int_prop_sls_dlt_pl nr ld ts (fst (next_sale_keys_query d)) env (connect d)
      = (Ok tt, w') /\
    let window := watermark_window (fst (last_etl_ts_query raw_table d))
                                   (snd (last_etl_ts_query raw_table d)) d in
    map Sale.slvr_int_prop_dtl_sk (slvr_int_prop_sales_dlt (durable w')) =
      (map Sale.slvr_int_prop_dtl_sk (slvr_int_prop_sales_dlt d) ++
       map (fun i => fst (next_sale_keys_query d) + Z.of_nat i)
           (seq 1 (length window)))%list /\
    NoDup (map Sale.slvr_int_prop_dtl_sk (slvr_int_prop_sales_dlt (durable w'))).
Proof.
  intros Hff Hnd.
  destruct (prc_slv_int_prop_sls_dlt_pl_run env nr ld ts (fst (next_sale_keys_query d)) d)
    as (r & w' & E & H & Hok).
  specialize (Hok Hff). subst r.
  destruct H as [[_ Hd]|[[e C] _]]; [|discriminate].
  exists w'. split; [exact E|]. cbv zeta.
  assert (Hk : map Sale.slvr_int_prop_dtl_sk (slvr_int_prop_sales_dlt (durable w')) =
    (map Sale.slvr_int_prop_dtl_sk (slvr_int_prop_sales_dlt d) ++
     map (fun i => fst (next_sale_keys_query d) + Z.of_nat i)
         (seq 1 (length (watermark_window (fst (last_etl_ts_query raw_table d))
                                          (snd (last_etl_ts_query raw_table d)) d))))%list).
  { rewrite Hd. unfold db_after_prc_slv_int_prop_sls_dlt_pl. cbn [slvr_int_prop_sales_dlt].
    rewrite sales_table_after_keys. f_equal. f_equal. f_equal.
    unfold sales_query. now rewrite length_map, order_by_asc_length. }
  split; [exact Hk|]. rewrite Hk.
  apply NoDup_app. split; [exact Hnd|]. split.
  - intros k Hold Hnew.
    apply list_elem_of_In in Hold. apply list_elem_of_In in Hnew.
    apply in_map_iff in Hnew as (i & <- & Hi). apply in_seq in Hi.
    assert (Hle : fst (next_sale_keys_query d) + Z.of_nat i <= fst (next_sale_keys_query d)).
    { unfold next_sale_keys_query at 2. cbn [fst].
      apply (proj1 (coalesce_sql_max 0 _)).
      apply in_map_iff in Hold as (x & Hx & Hin).
      apply in_map_iff. exists x. split; [now rewrite Hx|exact Hin]. }
    lia.
  - apply NoDup_fmap_2; [|apply NoDup_ListNoDup, seq_NoDup].
    intros i j Hij. lia.
Qed.

Lemma sales_keys_stay_unique_witness :
  exists w',
    prc_slv_int_prop_sls_dlt_pl 2 (today sample_env) (now sample_env)
      (fst (next_sale_keys_query sold_once_db)) sample_env (connect sold_once_db)
      = (Ok tt, w') /\
    map Sale.slvr_int_prop_dtl_sk (slvr_int_prop_sales_dlt sold_once_db) = [1; 2] /\
    map Sale.slvr_int_prop_dtl_sk (slvr_int_prop_sales_dlt (durable w')) = [1; 2; 3; 4].
Proof.
  assert (Hff : fault_free sample_env) by (intros n; reflexivity).
  assert (Hnd : NoDup (map Sale.slvr_int_prop_dtl_sk (slvr_int_prop_sales_dlt sold_once_db))).
  { apply (bool_decide_unpack _). vm_compute. exact I. }
  destruct (sales_keys_stay_unique sample_env 2 (today sample_env) (now sample_env)
              sold_once_db Hff Hnd) as (w' & E & Hk & _).
  exists w'. split; [exact E|]. split; [reflexivity|].
  rewrite Hk. reflexivity.
Defined.

Lemma retire_row_other_address a addr r :
  a <> addr -> Sale.usraddr r = Some addr -> retire_row a r = r.
Proof.
  intros Hne Hr. unfold retire_row, is_latest_of. rewrite Hr. simpl.
  assert (String.eqb addr a = false) as -> by (apply String.eqb_neq; congruence).
  now rewrite andb_false_r.
Qed.

Lemma filter_address_retired a addr t :
  a <> addr ->
  List.filter (fun r => Sql.eq_text (Sale.usraddr r) addr) (map (retire_row a) t) =
  List.filter (fun r => Sql.eq_text (Sale.usraddr r) addr) t.
Proof.
  intros Hne. induction t as [|r t IH]; simpl; [reflexivity|].
  rewrite retire_row_usraddr, IH.
  destruct (Sale.usraddr r) as [s|] eqn:Hs; simpl; [|reflexivity].
  destruct (String.eqb s addr) eqn:E; [|reflexivity].
  apply String.eqb_eq in E. subst s.
  now rewrite (retire_row_other_address a addr r Hne Hs).
Qed.

Lemma sales_table_after_other_address env nr ld ts addr rows : forall sk t,
  (forall row, In row rows -> SaleIn.usraddr row <> addr) ->
  List.filter (fun r => Sql.eq_text (Sale.usraddr r) addr)
              (sales_table_after env rows sk nr ld ts t) =
  List.filter (fun r => Sql.eq_text (Sale.usraddr r) addr) t.
Proof.
  induction rows as [|row rest IH]; intros sk t Hno; [reflexivity|].
  cbn [sales_table_after]. rewrite IH by (intros x Hx; apply Hno; now right).
  assert (Hne : SaleIn.usraddr row <> addr) by (apply Hno; now left).
  rewrite List.filter_app, (filter_address_retired _ _ _ Hne).
  cbn [List.filter sale_row_of Sale.usraddr Sql.eq_text].
  assert (String.eqb (SaleIn.usraddr row) addr = false) as -> by now apply String.eqb_neq.
  apply app_nil_r.
Qed.

(** X19. The sales stage touches only the addresses of its batch:
    whether the run ends normally or raises, the rows of an address
    that no row of the watermarked batch carries are afterwards exactly
    the rows it had, flags included. *)
Theorem sales_other_addresses_untouched env nr ld ts sk d addr :
  (forall row,
     In row (sales_query (fst (last_etl_ts_query raw_table d))
                         (snd (last_etl_ts_query raw_table d)) d) ->
     SaleIn.usraddr row <> addr) ->
  exists r w',
    prc_slv_int_prop_sls_dlt_pl nr ld ts sk env (connect d) = (r, w') /\
    List.filter (fun r => Sql.eq_text (Sale.usraddr r) addr)
                (slvr_int_prop_sales_dlt (durable w')) =
    List.filter (fun r => Sql.eq_text (Sale.usraddr r) addr) (slvr_int_prop_sales_dlt d).
Proof.
  intros Hno.
  destruct (prc_slv_int_prop_sls_dlt_pl_run env nr ld ts sk d) as (r & w' & E & H & _).
  exists r, w'. split; [exact E|].
  destruct H as [[_ ->]|[_ ->]]; [|reflexivity].
  unfold db_after_prc_slv_int_prop_sls_dlt_pl. cbn [slvr_int_prop_sales_dlt].
  now apply sales_table_after_other_address.
Qed.

End SalesRuns.

Lemma sales_other_addresses_untouched_witness :
  exists r w',
    prc_slv_int_prop_sls_dlt_pl 2 (today sample_env) (now sample_env) 2 sample_env
      (connect earlier_batch_db) = (r, w') /\
    map Sale.usraddr (slvr_int_prop_sales_dlt earlier_batch_db) =
      [Some oak_ave; Some "3 Pine Rd/Memphis/TN/Shelby/38104"] /\
    List.filter (fun r => Sql.eq_text (Sale.usraddr r) oak_ave)
                (slvr_int_prop_sales_dlt (durable w')) =
    List.filter (fun r => Sql.eq_text (Sale.usraddr r) oak_ave)
                (slvr_int_prop_sales_dlt earlier_batch_db).
Proof.
  assert (Hno : forall row,
            In row (sales_query (fst (last_etl_ts_query raw_table earlier_batch_db))
                                (snd (last_etl_ts_query raw_table earlier_batch_db))
                                earlier_batch_db) ->
            SaleIn.usraddr row <> oak_ave).
  { vm_compute. intros row [<-|[]]. discriminate. }
  destruct (sales_other_addresses_untouched sample_env 2 (today sample_env) (now sample_env) 2
              earlier_batch_db oak_ave Hno) as (r & w' & E & H).
  exists r, w'. split; [exact E|]. split; [reflexivity|exact H].
Defined.

(** ** What the entry point answers *)

Section DispatchMore.

Variable st : stages.

Lemma getway_starts_at_most_one process_key dic tr :
  exists r started,
    getway process_key dic st tr = (r, (tr ++ started)%list) /\ (length started <= 1)%nat.
Proof.
  unfold getway, drewrap.
  destruct (truthy process_key);
    [|exists (Ok None), []; rewrite app_nil_r; split; [reflexivity|simpl; lia]].
  repeat match goal with
  | |- context [if eq_str process_key ?k then _ else _] =>
      destruct (eq_str process_key k)
  end;
  unfold dbind, call, start_thread, dret;
  try (match goal with
       | |- context [run_stage st ?s] => destruct (run_stage st s)
       end; cbv beta iota; eexists _, [_]; (split; [reflexivity|simpl; lia])).
  - destruct (read_sales_etl_nr st).
    + eexists _, [_]. split; [reflexivity|simpl; lia].
    + eexists _, []. rewrite app_nil_r. split; [reflexivity|simpl; lia].
  - eexists _, []. rewrite app_nil_r. split; [reflexivity|simpl; lia].
Qed.

(** X20. Whatever the request and however the stages end, the entry
    point answers with status 200 or 400 and starts at most one
    stage. *)
Theorem rehouzd_function_status_and_stages req :
  (status_code (fst (rehouzd_function st req)) = 200 \/
   status_code (fst (rehouzd_function st req)) = 400) /\
  (length (snd (rehouzd_function st req)) <= 1)%nat.
Proof.
  unfold rehouzd_function, rehouzd_function_body.
  set (key := JStr (strip match params req !! "process_key" with
                          | Some s => s | None => "None" end)).
  assert (Hdispatch : forall pk dic,
    let out := match (if truthy pk then
                        dbind (getway pk dic) (fun val =>
                          match val with
                          | Some v =>
                              if negb (v =? 0)
                              then dret (mk_response (dumps_value v) 200 "application/json")
                              else dret (mk_response ("Hello, " ++ py_str pk ++
                                     " Not found. triggers executed successfully.")
                                     200 "text/plain")
                          | None => dret (mk_response ("Hello, " ++ py_str pk ++
                                     " Not found. triggers executed successfully.")
                                     200 "text/plain")
                          end)
                      else dret (mk_response prompt_text 400 "text/plain")) st [] with
               | (Ok resp, tr) => (resp, tr)
               | (Raise err, tr) => (mk_response (error_text err) 400 "text/plain", tr)
               end in
    (status_code (fst out) = 200 \/ status_code (fst out) = 400) /\
    (length (snd out) <= 1)%nat).
  { intros pk dic. cbv zeta. destruct (truthy pk).
    - unfold dbind.
      destruct (getway_starts_at_most_one pk dic []) as (r & started & -> & Hlen).
      cbn [app]. destruct r as [[v|]|e]; unfold dret.
      + destruct (negb (v =? 0)); simpl; auto.
      + simpl; auto.
      + simpl; auto.
    - simpl. split; [auto|lia]. }
  unfold error_text in Hdispatch.
  unfold dbind at 1.
  destruct (negb (truthy key)).
  - destruct (req_body req) as [|fields|v]; unfold dret at 1, lift; cbv beta iota.
    + apply Hdispatch.
    + apply Hdispatch.
    + simpl. split; [auto|lia].
  - unfold dret at 1. cbv beta iota. apply Hdispatch.
Qed.

(** X21. A recognized key of a stage the dispatcher waits for: exactly
    that stage is started; when it ends normally the answer is the 200
    text that calls the key not found, and when it raises the answer is
    a 400 carrying the text of the exception. The stage of
    [bnz_prps_upd] is given the two request parameters as strings. *)
Theorem synchronous_stage_answer req key s :
  params req !! "process_key" = Some key ->
  In (strip key, s)
     [("process_silver_int_inv_dtl", process_slv_int_inv_stage);
      ("process_bnz_prcl_dtl", process_bnz_prcl_dtl_stage);
      ("process_slv_int_prp", process_slv_int_prp_stage);
      ("process_slv_pr_cmps", process_slv_int_pr_cmps_stage);
      ("bnz_prps_upd",
       bnz_prps_upd_stage (JStr <$> params req !! "etl_recorded_gmts")
                          (JStr <$> params req !! "etl_nr"))] ->
  rehouzd_function st req =
  (match run_stage st s with
   | Ok _ => mk_response (hello_text (strip key)) 200 "text/plain"
   | Raise e => mk_response (error_text e) 400 "text/plain"
   end, [s]).
Proof.
  intros Hk Hin. unfold rehouzd_function, rehouzd_function_body. rewrite Hk.
  cbn [In] in Hin.
  destruct Hin as [E|[E|[E|[E|[E|[]]]]]]; injection E as Ek <-; rewrite <- Ek;
    unfold getway, drewrap, dbind, dret, call; cbn;
    try rewrite !lookup_fmap;
    destruct (run_stage st _); reflexivity.
Qed.

(** X22. The key of the background stage: the answer is JSON carrying
    the generation read from the sales table plus one, the stage is
    started and not waited for, so the answer does not depend on how
    the stage ends. When the generation cannot be read the answer is a
    400 and nothing is started. *)
Theorem background_stage_answer req key :
  params req !! "process_key" = Some key ->
  strip key = "call_slvr_int_prp_dtl" ->
  rehouzd_function st req =
  match read_sales_etl_nr st with
  | Ok n =>
      (if n + 1 =? 0 then mk_response (hello_text "call_slvr_int_prp_dtl") 200 "text/plain"
       else mk_response (dumps_value (n + 1)) 200 "application/json",
       [call_slvr_int_prp_dtl_stage])
  | Raise e => (mk_response (error_text e) 400 "text/plain", [])
  end.
Proof.
  intros Hk Hs. unfold rehouzd_function, rehouzd_function_body. rewrite Hk, Hs.
  unfold getway, drewrap, dbind, dret, start_thread. cbn.
  destruct (read_sales_etl_nr st) as [n|e]; [|reflexivity].
  cbn. destruct (n + 1 =? 0); reflexivity.
Qed.

(** X23. When the query string carries a blank [process_key], the
    body decides: a body that is not JSON gives the 400 prompt;
    a JSON body that is not an object gives a 400 and starts nothing;
    a JSON object without a true [process_key] gives the 400 prompt;
    and the key [bnz_prps_upd] in a JSON object starts that stage with
    the two parameters as the body holds them. *)
Theorem blank_key_reads_body req key :
  params req !! "process_key" = Some key ->
  strip key = "" ->
  match req_body req with
  | NotJson =>
      rehouzd_function st req = (mk_response prompt_text 400 "text/plain", [])
  | JsonValue v =>
      exists text, rehouzd_function st req = (mk_response text 400 "text/plain", [])
  | JsonObject fields =>
      (truthy (default JNull (fields !! "process_key")) = false ->
       rehouzd_function st req = (mk_response prompt_text 400 "text/plain", [])) /\
      (fields !! "process_key" = Some (JStr "bnz_prps_upd") ->
       snd (rehouzd_function st req) =
       [bnz_prps_upd_stage (fields !! "etl_recorded_gmts") (fields !! "etl_nr")])
  end.
Proof.
  intros Hk Hs. unfold rehouzd_function, rehouzd_function_body. rewrite Hk, Hs.
  change (truthy (JStr "")) with false. cbn [negb].
  destruct (req_body req) as [|fields|v].
  - reflexivity.
  - split.
    + intros Hf. unfold dbind at 1, dret at 1. cbv beta iota.
      destruct (fields !! "process_key") as [v|]; simpl in Hf; [rewrite Hf|]; reflexivity.
    + intros ->. unfold getway, drewrap, dbind, dret, call. cbn.
      destruct (run_stage st _); reflexivity.
  - eexists. reflexivity.
Qed.

End DispatchMore.

Lemma synchronous_stage_answer_witness :
  rehouzd_function quiet_stages
    (mk_request {[ "process_key" := " process_slv_pr_cmps " ]} NotJson) =
  (mk_response "Hello, process_slv_pr_cmps Not found. triggers executed successfully."
               200 "text/plain",
   [process_slv_int_pr_cmps_stage]).
Proof.
  apply (synchronous_stage_answer quiet_stages
           (mk_request {[ "process_key" := " process_slv_pr_cmps " ]} NotJson)
           " process_slv_pr_cmps " process_slv_int_pr_cmps_stage).
  - reflexivity.
  - vm_compute. tauto.
Defined.

Lemma background_stage_answer_witness :
  rehouzd_function (mk_stages (fun _ => Raise call_failed) (Ok 4))
    (mk_request {[ "process_key" := "call_slvr_int_prp_dtl" ]} NotJson) =
  (mk_response (dumps_value 5) 200 "application/json", [call_slvr_int_prp_dtl_stage]).
Proof.
  apply (background_stage_answer (mk_stages (fun _ => Raise call_failed) (Ok 4))
           (mk_request {[ "process_key" := "call_slvr_int_prp_dtl" ]} NotJson)
           "call_slvr_int_prp_dtl").
  - reflexivity.
  - reflexivity.
Defined.

Lemma blank_key_reads_body_witness :
  snd (rehouzd_function quiet_stages
         (mk_request {[ "process_key" := "  " ]}
            (JsonObject {[ "process_key" := JStr "bnz_prps_upd"; "etl_nr" := JNum 7 ]}))) =
  [bnz_prps_upd_stage None (Some (JNum 7))].
Proof.
  assert (Hk : ({[ "process_key" := "  " ]} : gmap string string) !! "process_key"
               = Some "  ") by reflexivity.
  assert (Hs : strip "  " = "") by reflexivity.
  pose proof (blank_key_reads_body quiet_stages
           (mk_request {[ "process_key" := "  " ]}
              (JsonObject {[ "process_key" := JStr "bnz_prps_upd"; "etl_nr" := JNum 7 ]}))
           "  " Hk Hs) as H.
  cbn [req_body] in H. apply (proj2 H). reflexivity.
Defined.

(** ** The background stage *)

Section BackgroundStage.

Lemma parcel_sales_loop_cases env rows sk nr ld ts w :
  parcel_sales_loop rows sk nr ld ts env w =
  match rows with
  | [] => (Ok tt, w)
  | _ :: _ => (Raise format_error, w)
  end.
Proof. destruct rows; reflexivity. Qed.

(** A run of the parcel half leaves the open transaction as it found
    it, and ends normally only on an empty join. *)
Lemma prc_slv_int_prcl_sls_dlt_pl_cases env parcel_join nr ld ts sk w r w' :
  prc_slv_int_prcl_sls_dlt_pl parcel_join nr ld ts sk env w = (r, w') ->
  working (conn w') = working (conn w) /\
  (r = Ok tt ->
   parcel_join (last_etl_ts_query "slvr_int_prop_comps" (working (conn w)))
               (last_etl_ts_query "brnz_prcl_prop_sales_dtl" (working (conn w))) = []).
Proof.
  unfold prc_slv_int_prcl_sls_dlt_pl, rewrap. unfold bind at 1.
  rewrite get_last_etl_ts_cases.
  destruct (faulty env (calls w)).
  { intros [= <- <-]. split; [reflexivity|discriminate]. }
  unfold bind at 1. rewrite get_last_etl_ts_cases. cbn [calls conn working committed].
  destruct (faulty env (S (calls w))).
  { intros [= <- <-]. split; [reflexivity|discriminate]. }
  unfold bind at 1. rewrite return_query_res_cases. cbn [calls conn working committed].
  destruct (faulty env (S (S (calls w)))).
  { intros [= <- <-]. split; [reflexivity|discriminate]. }
  cbv beta iota. unfold bind at 1, ret at 1. cbv beta iota. unfold bind at 1.
  rewrite parcel_sales_loop_cases.
  destruct (parcel_join _ _) as [|row rest].
  - rewrite commit_cases. cbn [calls conn working committed].
    destruct (faulty env (S (S (S (calls w))))); intros [= <- <-];
      (split; [reflexivity|]); [discriminate|reflexivity].
  - intros [= <- <-]. split; [reflexivity|discriminate].
Qed.

(** X24. The parcel half of the background stage can insert nothing:
    its INSERT is given sixteen values for fifteen placeholders, so
    whichever calls fail a run changes no table, and a run whose join
    returns at least one row raises. *)
Theorem parcel_sales_are_never_inserted env parcel_join nr ld ts sk w r w' :
  prc_slv_int_prcl_sls_dlt_pl parcel_join nr ld ts sk env w = (r, w') ->
  working (conn w') = working (conn w) /\
  (parcel_join (last_etl_ts_query "slvr_int_prop_comps" (working (conn w)))
               (last_etl_ts_query "brnz_prcl_prop_sales_dtl" (working (conn w))) <> [] ->
   exists e, r = Raise e).
Proof.
  intros H. apply prc_slv_int_prcl_sls_dlt_pl_cases in H as [Hw Hok].
  split; [exact Hw|]. intros Hne.
  destruct r as [[]|e]; [|eauto].
  exfalso. apply Hne, Hok. reflexivity.
Qed.

Lemma parcel_sales_are_never_inserted_witness :
  exists e w',
    prc_slv_int_prcl_sls_dlt_pl one_parcel_sale 1 (today sample_env) (now sample_env) 0
      sample_env (connect resale_db) = (Raise e, w') /\
    working (conn w') = resale_db.
Proof.
  destruct (prc_slv_int_prcl_sls_dlt_pl one_parcel_sale 1 (today sample_env) (now sample_env) 0
              sample_env (connect resale_db)) as [r w'] eqn:E.
  destruct (parcel_sales_are_never_inserted _ _ _ _ _ _ _ _ _ E) as [Hw Hr].
  destruct Hr as [e ->]; [discriminate|].
  exists e, w'. split; [reflexivity|exact Hw].
Defined.

Lemma prc_slv_int_prop_sls_dlt_pl_ok env nr ld ts sk d :
  fault_free env ->
  exists n,
    prc_slv_int_prop_sls_dlt_pl nr ld ts sk env (connect d) =
    (Ok tt,
     mk_world (mk_conn (db_after_prc_slv_int_prop_sls_dlt_pl env nr ld ts sk d)
                       (db_after_prc_slv_int_prop_sls_dlt_pl env nr ld ts sk d)) n).
Proof.
  intros Hff. unfold prc_slv_int_prop_sls_dlt_pl, rewrap. unfold bind at 1.
  rewrite get_last_etl_ts_ok by apply Hff. cbn [connect calls conn working committed].
  destruct (last_etl_ts_query "pl_brnz_prps_prop_sales_dtl" d) as [lst_ts etl] eqn:Ew.
  cbv beta iota. unfold bind at 1. rewrite (return_query_res_ok env Hff).
  cbn [calls conn working committed].
  cbv beta iota. unfold bind at 1, ret at 1. cbv beta iota. unfold bind at 1.
  match goal with |- context [sales_loop ?rows sk nr ld ts env ?x] =>
    destruct (sales_loop_run env nr ld ts rows sk x) as (r & w' & -> & Hc & Hw & Hok) end.
  rewrite (Hok Hff) in *. rewrite (commit_ok env Hff).
  rewrite (Hw eq_refl). cbn [calls conn working committed].
  exists (S (calls w')). unfold db_after_prc_slv_int_prop_sls_dlt_pl. rewrite Ew.
  reflexivity.
Qed.

(** X25. The background stage with parcel sales to load. When no
    database call fails and the parcel join returns at least one row,
    [call_slvr_int_prp_dtl] raises: the property sales of the first
    half are committed, no parcel sale is, and the watermark of the
    sales table is not advanced. *)
Theorem background_stage_with_parcel_sales env parcel_join nr ld ts sk d :
  fault_free env ->
  parcel_join (last_etl_ts_query "slvr_int_prop_comps" d)
              (last_etl_ts_query "brnz_prcl_prop_sales_dtl" d) <> [] ->
  exists e w',
    call_slvr_int_prp_dtl parcel_join nr ld ts sk env (connect d) = (Raise e, w') /\
    durable w' = db_after_prc_slv_int_prop_sls_dlt_pl env nr ld ts sk d /\
    adf_load_tracker (durable w') = adf_load_tracker d.
Proof.
  intros Hff Hne. unfold call_slvr_int_prp_dtl, rewrap. unfold bind at 1.
  destruct (prc_slv_int_prop_sls_dlt_pl_ok env nr ld ts sk d Hff) as [n ->].
  unfold bind at 1.
  match goal with |- context [prc_slv_int_prcl_sls_dlt_pl parcel_join nr ld ts sk env ?x] =>
    destruct (prc_slv_int_prcl_sls_dlt_pl parcel_join nr ld ts sk env x) as [r w'] eqn:E;
    pose proof E as E0;
    apply prc_slv_int_prcl_sls_dlt_pl_cases in E as [Hw Hr]
  end.
  cbn [conn working] in Hw, Hr.
  destruct r as [[]|e]; [destruct (Hne (Hr eq_refl))|].
  eexists _, w'. split; [reflexivity|].
  assert (Hd : durable w' = db_after_prc_slv_int_prop_sls_dlt_pl env nr ld ts sk d).
  { revert E0. unfold prc_slv_int_prcl_sls_dlt_pl, rewrap. unfold bind at 1.
    rewrite get_last_etl_ts_ok by apply Hff.
    unfold bind at 1. rewrite get_last_etl_ts_ok by apply Hff.
    unfold bind at 1. rewrite (return_query_res_ok env Hff).
    cbv beta iota. unfold bind at 1, ret at 1. cbv beta iota. unfold bind at 1.
    rewrite parcel_sales_loop_cases. cbn [calls conn working committed].
    destruct (parcel_join _ _) as [|row rest]; [contradiction|].
    intros [= _ <-]. reflexivity. }
  split; [exact Hd|]. now rewrite Hd.
Qed.

Lemma background_stage_with_parcel_sales_witness :
  exists e w',
    call_slvr_int_prp_dtl one_parcel_sale 1 (today sample_env) (now sample_env) 0
      sample_env (connect resale_db) = (Raise e, w') /\
    map Sale.slvr_int_prop_dtl_sk (slvr_int_prop_sales_dlt (durable w')) = [1; 2] /\
    adf_load_tracker (durable w') = adf_load_tracker resale_db.
Proof.
  assert (Hff : fault_free sample_env) by (intros n; reflexivity).
  assert (Hne : one_parcel_sale (last_etl_ts_query "slvr_int_prop_comps" resale_db)
                  (last_etl_ts_query "brnz_prcl_prop_sales_dtl" resale_db) <> [])
    by discriminate.
  destruct (background_stage_with_parcel_sales sample_env one_parcel_sale 1
              (today sample_env) (now sample_env) 0 resale_db Hff Hne)
    as (e & w' & E & Hd & Ht).
  exists e, w'. split; [exact E|]. split; [|exact Ht].
  rewrite Hd. reflexivity.
Defined.

(** X26. The background stage without parcel sales. When no database
    call fails and the parcel join is empty, [call_slvr_int_prp_dtl]
    ends normally: the property sales are committed and the registry
    has one more row, recording for the sales table the timestamp and
    the generation the dispatcher chose. *)
Theorem background_stage_without_parcel_sales env parcel_join nr ld ts sk d :
  fault_free env ->
  parcel_join (last_etl_ts_query "slvr_int_prop_comps" d)
              (last_etl_ts_query "brnz_prcl_prop_sales_dtl" d) = [] ->
  exists w' id,
    call_slvr_int_prp_dtl parcel_join nr ld ts sk env (connect d) = (Ok tt, w') /\
    durable w' =
      insert_tracker (Tracker.mk_row id "slvr_int_prop_sales_dlt" (Some ts) (Some nr))
                     (db_after_prc_slv_int_prop_sls_dlt_pl env nr ld ts sk d) /\
    forall old, In old (adf_load_tracker d) -> Tracker.tbl_id old < id.
Proof.
  intros Hff He. unfold call_slvr_int_prp_dtl, rewrap. unfold bind at 1.
  destruct (prc_slv_int_prop_sls_dlt_pl_ok env nr ld ts sk d Hff) as [n ->].
  unfold bind at 1.
  unfold prc_slv_int_prcl_sls_dlt_pl, rewrap. unfold bind at 1.
  rewrite get_last_etl_ts_ok by apply Hff.
  unfold bind at 1. rewrite get_last_etl_ts_ok by apply Hff.
  unfold bind at 1. rewrite (return_query_res_ok env Hff).
  cbv beta iota. unfold bind at 1, ret at 1. cbv beta iota. unfold bind at 1.
  rewrite parcel_sales_loop_cases. cbn [calls conn working committed].
  change (last_etl_ts_query "slvr_int_prop_comps"
            (db_after_prc_slv_int_prop_sls_dlt_pl env nr ld ts sk d))
    with (last_etl_ts_query "slvr_int_prop_comps" d).
  change (last_etl_ts_query "brnz_prcl_prop_sales_dtl"
            (db_after_prc_slv_int_prop_sls_dlt_pl env nr ld ts sk d))
    with (last_etl_ts_query "brnz_prcl_prop_sales_dtl" d).
  rewrite He. rewrite (commit_ok env Hff). cbn [calls conn working committed reraise].
  unfold bind at 1. rewrite (upd_lookup_tbl_ok env Hff).
  cbv zeta. unfold end_process, rewrap. cbn [calls conn working committed reraise].
  eexists _, _. split; [reflexivity|]. split; [reflexivity|].
  intros old Hold.
  change (adf_load_tracker (db_after_prc_slv_int_prop_sls_dlt_pl env nr ld ts sk d))
    with (adf_load_tracker d).
  destruct (Sql.sql_max (map (fun r => Some (Tracker.tbl_id r)) (adf_load_tracker d)))
    as [m|] eqn:Em.
  - apply sql_max_some in Em as [_ Hle].
    specialize (Hle (Tracker.tbl_id old)).
    assert (Tracker.tbl_id old <= m); [|lia].
    apply Hle. apply in_map_iff. exists old. split; [reflexivity|exact Hold].
  - exfalso. apply (sql_max_none _ Em (Tracker.tbl_id old)).
    apply in_map_iff. exists old. split; [reflexivity|exact Hold].
Qed.

Lemma background_stage_without_parcel_sales_witness :
  exists w',
    call_slvr_int_prp_dtl no_parcel_sale 1 (today sample_env) (now sample_env) 0
      sample_env (connect resale_db) = (Ok tt, w') /\
    last_etl_ts_query "slvr_int_prop_sales_dlt" (durable w') = (now sample_env, 1).
Proof.
  assert (Hff : fault_free sample_env) by (intros n; reflexivity).
  destruct (background_stage_without_parcel_sales sample_env no_parcel_sale 1
              (today sample_env) (now sample_env) 0 resale_db Hff eq_refl)
    as (w' & id & E & Hd & _).
  exists w'. split; [exact E|]. rewrite Hd. reflexivity.
Defined.

End BackgroundStage.

(** ** The parcel table: what is written and what is matched *)

Section ParcelTable.

Import Enrich.

Lemma get_valid_event_kinds events pt pn ft fn e :
  get_valid_event events pt pn ft fn = Ok (Some e) ->
  (matches pt pn e = true /\ usable e = true) \/
  (matches pt pn e = false /\ matches_fallback ft fn e = true).
Proof.
  unfold get_valid_event. intros H.
  apply scan_returns_candidate in H as [[_ H]|[H|[H _]]]; [exact H|discriminate..].
Qed.

Lemma matches_names ty name e :
  matches ty name e = true ->
  PROP_ACTY_STATUS_CD e = ty /\ PROP_ACTY_SUB_STATUS_CD e = name.
Proof.
  unfold matches. intros H. apply andb_true_iff in H as [H1 H2].
  split; now apply String.eqb_eq.
Qed.

Lemma usable_priced env pk nr ts res bath e :
  usable e = true -> priced (prcl_row_of env pk nr ts res bath e).
Proof.
  unfold usable, priced. cbn [prcl_row_of Prcl.prop_sale_amt].
  destruct (price e) as [p|]; [|discriminate].
  intros H. exists p. split; [reflexivity|lia].
Qed.

Lemma selected_event_kind env pk nr ts res bath events e :
  get_valid_event events "SALE" "SOLD" (Some "LISTING") (Some "PENDING SALE") = Ok (Some e) ->
  written_kind (prcl_row_of env pk nr ts res bath e).
Proof.
  intros H. unfold written_kind.
  cbn [prcl_row_of Prcl.prop_acty_status_cd Prcl.prop_acty_sub_status_cd].
  apply get_valid_event_kinds in H as [[Hm Hu]|[_ Hf]].
  - left. apply matches_names in Hm as [-> ->].
    split; [reflexivity|]. split; [reflexivity|]. now apply usable_priced.
  - right. left. cbn in Hf. apply matches_names in Hf as [-> ->].
    split; reflexivity.
Qed.

Lemma rental_event_kind env pk nr ts res bath events e :
  get_valid_event events "RENTAL" "DELISTED FOR RENT" None None = Ok (Some e) ->
  written_kind (prcl_row_of env pk nr ts res bath e).
Proof.
  intros H. unfold written_kind.
  cbn [prcl_row_of Prcl.prop_acty_status_cd Prcl.prop_acty_sub_status_cd].
  apply get_valid_event_kinds in H as [[Hm Hu]|[_ Hf]].
  - right. right. apply matches_names in Hm as [-> ->].
    split; [reflexivity|]. split; [reflexivity|]. now apply usable_priced.
  - discriminate.
Qed.

(** The rows written for one property: how many, under which key, of
    which kind. *)
Lemma rows_for_property_kinds env api bnz_pk etl_nr ts res rows :
  rows_for_property env api bnz_pk etl_nr ts res = inr rows ->
  (length rows <= 2)%nat /\
  (forall r, In r rows ->
     Prcl.brnz_prcl_prop_sales_dtl_sk r = bnz_pk /\ Prcl.etl_nr r = etl_nr /\
     written_kind r).
Proof.
  unfold rows_for_property. intros H.
  destruct (Parcl.bathrooms res) as [q|]; [|discriminate].
  cbn [ceil_int of_py attempt_bind] in H.
  destruct (subtract_months (today env) 6) as [e|pd]; [discriminate|].
  cbn [of_date attempt_bind] in H.
  destruct (Parcl.status_code (Parcl.event_history api (Parcl.parcl_property_id res) pd)
            =? 200); cbn [negb] in H.
  - destruct (get_valid_event _ "SALE" "SOLD" _ _) as [sel|e] eqn:E1; [|discriminate].
    cbn [of_py attempt_bind] in H.
    destruct (get_valid_event _ "RENTAL" "DELISTED FOR RENT" _ _) as [ren|e] eqn:E2;
      [|discriminate].
    cbn [of_py attempt_bind] in H. injection H as <-.
    split; [destruct sel, ren; simpl; lia|].
    intros r Hr. apply in_app_or in Hr as [Hr|Hr].
    + destruct sel as [ev|]; [|destruct Hr]. destruct Hr as [<-|[]].
      split; [reflexivity|]. split; [reflexivity|].
      exact (selected_event_kind _ _ _ _ _ _ _ _ E1).
    + destruct ren as [ev|]; [|destruct Hr]. destruct Hr as [<-|[]].
      split; [reflexivity|]. split; [reflexivity|].
      exact (rental_event_kind _ _ _ _ _ _ _ _ E2).
  - injection H as <-. split; [simpl; lia|intros r []].
Qed.

Lemma selected_event_row env pk nr ts res bath events e :
  get_valid_event events "SALE" "SOLD" (Some "LISTING") (Some "PENDING SALE") = Ok (Some e) ->
  let r := prcl_row_of env pk nr ts res bath e in
  (Prcl.prop_acty_status_cd r = Some "SALE" /\
   Prcl.prop_acty_sub_status_cd r = Some "SOLD" /\ priced r) \/
  (Prcl.prop_acty_status_cd r = Some "LISTING" /\
   Prcl.prop_acty_sub_status_cd r = Some "PENDING SALE").
Proof.
  intros H. cbv zeta.
  cbn [prcl_row_of Prcl.prop_acty_status_cd Prcl.prop_acty_sub_status_cd].
  apply get_valid_event_kinds in H as [[Hm Hu]|[_ Hf]].
  - left. apply matches_names in Hm as [-> ->].
    split; [reflexivity|]. split; [reflexivity|]. now apply usable_priced.
  - right. cbn in Hf. apply matches_names in Hf as [-> ->].
    split; reflexivity.
Qed.

Lemma rental_event_row env pk nr ts res bath events e :
  get_valid_event events "RENTAL" "DELISTED FOR RENT" None None = Ok (Some e) ->
  let r := prcl_row_of env pk nr ts res bath e in
  Prcl.prop_acty_status_cd r = Some "RENTAL" /\
  Prcl.prop_acty_sub_status_cd r = Some "DELISTED FOR RENT" /\ priced r.
Proof.
  intros H. cbv zeta.
  cbn [prcl_row_of Prcl.prop_acty_status_cd Prcl.prop_acty_sub_status_cd].
  apply get_valid_event_kinds in H as [[Hm Hu]|[_ Hf]]; [|discriminate].
  apply matches_names in Hm as [-> ->].
  split; [reflexivity|]. split; [reflexivity|]. now apply usable_priced.
Qed.

(** X27. For one property found, the enrichment loop writes at most
    two rows, under the key of the address looked up and the
    generation of the run: first at most one row that is a sale or a
    pending listing, then at most one row that is a delisted rental, a
    sale or a rental only at a positive price. It writes none when the
    event-history call is not answered with status 200. *)
Theorem rows_for_property_rows env api bnz_pk etl_nr ts res rows :
  rows_for_property env api bnz_pk etl_nr ts res = inr rows ->
  (exists sale rental,
     rows = (sale ++ rental)%list /\
     (length sale <= 1)%nat /\ (length rental <= 1)%nat /\
     (forall r, In r sale ->
        (Prcl.prop_acty_status_cd r = Some "SALE" /\
         Prcl.prop_acty_sub_status_cd r = Some "SOLD" /\ priced r) \/
        (Prcl.prop_acty_status_cd r = Some "LISTING" /\
         Prcl.prop_acty_sub_status_cd r = Some "PENDING SALE")) /\
     (forall r, In r rental ->
        Prcl.prop_acty_status_cd r = Some "RENTAL" /\
        Prcl.prop_acty_sub_status_cd r = Some "DELISTED FOR RENT" /\ priced r)) /\
  (length rows <= 2)%nat /\
  (forall r, In r rows ->
     Prcl.brnz_prcl_prop_sales_dtl_sk r = bnz_pk /\ Prcl.etl_nr r = etl_nr) /\
  (forall previous_date,
     subtract_months (today env) 6 = inr previous_date ->
     Parcl.status_code
       (Parcl.event_history api (Parcl.parcl_property_id res) previous_date) <> 200 ->
     rows = []).
Proof.
  intros H. destruct (rows_for_property_kinds _ _ _ _ _ _ _ H) as [Hl Hk].
  split; [|split; [exact Hl|split]].
  - revert H. unfold rows_for_property.
    destruct (Parcl.bathrooms res) as [q|]; [|discriminate].
    cbn [ceil_int of_py attempt_bind].
    destruct (subtract_months (today env) 6) as [e|pd]; [discriminate|].
    cbn [of_date attempt_bind].
    destruct (Parcl.status_code (Parcl.event_history api (Parcl.parcl_property_id res) pd)
              =? 200); cbn [negb].
    + destruct (get_valid_event _ "SALE" "SOLD" _ _) as [sel|e] eqn:E1; [|discriminate].
      cbn [of_py attempt_bind].
      destruct (get_valid_event _ "RENTAL" "DELISTED FOR RENT" _ _) as [ren|e] eqn:E2;
        [|discriminate].
      cbn [of_py attempt_bind]. intros [= <-].
      eexists _, _. split; [reflexivity|].
      split; [destruct sel; simpl; lia|]. split; [destruct ren; simpl; lia|].
      split.
      * intros r Hr. destruct sel as [ev|]; [|destruct Hr]. destruct Hr as [<-|[]].
        exact (selected_event_row _ _ _ _ _ _ _ _ E1).
      * intros r Hr. destruct ren as [ev|]; [|destruct Hr]. destruct Hr as [<-|[]].
        exact (rental_event_row _ _ _ _ _ _ _ _ E2).
    + intros [= <-]. exists [], []. split; [reflexivity|].
      split; [simpl; lia|]. split; [simpl; lia|]. split; intros r [].
  - intros r Hr. destruct (Hk r Hr) as (H1 & H2 & _). split; assumption.
  - intros previous_date Hd Hne. revert H. unfold rows_for_property.
    destruct (Parcl.bathrooms res) as [q|]; [|discriminate].
    cbn [ceil_int of_py attempt_bind]. rewrite Hd. cbn [of_date attempt_bind].
    apply Z.eqb_neq in Hne. rewrite Hne. cbn [negb]. now intros [= <-].
Qed.

Lemma rows_for_results_rows env api bnz_pk etl_nr ts srch_res : forall rows,
  rows_for_results env api bnz_pk etl_nr ts srch_res = inr rows ->
  (length rows <= 2 * length srch_res)%nat /\
  (forall r, In r rows ->
     Prcl.brnz_prcl_prop_sales_dtl_sk r = bnz_pk /\ Prcl.etl_nr r = etl_nr /\
     written_kind r).
Proof.
  induction srch_res as [|res rest IH]; intros rows H.
  - injection H as <-. split; [simpl; lia|intros r []].
  - cbn [rows_for_results] in H.
    destruct (rows_for_property env api bnz_pk etl_nr ts res) as [f|first] eqn:E1;
      [discriminate|].
    cbn [attempt_bind] in H.
    destruct (rows_for_results env api bnz_pk etl_nr ts rest) as [f|more] eqn:E2;
      [discriminate|].
    cbn [attempt_bind] in H. injection H as <-.
    destruct (rows_for_property_kinds _ _ _ _ _ _ _ E1) as (Hl & Hk).
    destruct (IH more eq_refl) as (Hl' & Hk').
    split.
    + rewrite length_app. simpl length. lia.
    + intros r Hr. apply in_app_or in Hr as [Hr|Hr]; auto.
Qed.

Lemma enrichment_loop_groups env api etl_nr ts result_ggl : forall bnz_pk groups,
  enrichment_loop env api bnz_pk etl_nr ts result_ggl = inr groups ->
  length groups = length result_ggl /\
  forall i g row,
    nth_error groups i = Some g -> nth_error result_ggl i = Some row ->
    (length g <= 2 * length (Parcl.search_address api row))%nat /\
    forall r, In r g ->
      Prcl.brnz_prcl_prop_sales_dtl_sk r = bnz_pk + 1 + Z.of_nat i /\
      Prcl.etl_nr r = etl_nr /\ written_kind r.
Proof.
  induction result_ggl as [|row rest IH]; intros bnz_pk groups H.
  - injection H as <-. split; [reflexivity|]. intros [|i] g row; discriminate.
  - cbn [enrichment_loop] in H.
    destruct (rows_for_results env api (bnz_pk + 1) etl_nr ts (Parcl.search_address api row))
      as [f|first] eqn:E1; [discriminate|].
    cbn [attempt_bind] in H.
    destruct (enrichment_loop env api (bnz_pk + 1) etl_nr ts rest) as [f|more] eqn:E2;
      [discriminate|].
    cbn [attempt_bind] in H. injection H as <-.
    destruct (rows_for_results_rows _ _ _ _ _ _ _ E1) as (Hl & Hk).
    destruct (IH _ _ E2) as (Hlen & Hrest).
    split; [simpl; now rewrite Hlen|].
    intros [|i] g row' Hg Hrow; cbn [nth_error] in Hg, Hrow.
    + injection Hg as <-. injection Hrow as <-. split; [exact Hl|].
      intros r Hr. destruct (Hk r Hr) as (-> & H2 & H3).
      split; [lia|]. split; assumption.
    + destruct (Hrest i g row' Hg Hrow) as (Hl' & Hk'). split; [exact Hl'|].
      intros r Hr. destruct (Hk' r Hr) as (-> & H2 & H3).
      split; [lia|]. split; assumption.
Qed.

(** X28. The key of a parcel row names the address looked up, not the
    row: the loop moves the key once per address, so the rows written
    for the i-th address, up to two for each property the search
    returns, all carry the key the run started from plus i. *)
Theorem enrichment_rows_share_the_key env api bnz_pk etl_nr ts result_ggl groups :
  enrichment_loop env api bnz_pk etl_nr ts result_ggl = inr groups ->
  length groups = length result_ggl /\
  forall i g row,
    nth_error groups i = Some g -> nth_error result_ggl i = Some row ->
    (length g <= 2 * length (Parcl.search_address api row))%nat /\
    forall r, In r g -> Prcl.brnz_prcl_prop_sales_dtl_sk r = bnz_pk + 1 + Z.of_nat i.
Proof.
  intros H. destruct (enrichment_loop_groups _ _ _ _ _ _ _ H) as (Hlen & Hg).
  split; [exact Hlen|]. intros i g row Hi Hrow.
  destruct (Hg i g row Hi Hrow) as (Hl & Hk). split; [exact Hl|].
  intros r Hr. now destruct (Hk r Hr).
Qed.

Lemma flag_info_of_kind r :
  written_kind r -> (flag_info r = true <-> Prcl.prop_acty_status_cd r = Some "SALE").
Proof.
  unfold flag_info.
  intros [(Hs & Hn & _)|[(Hs & Hn)|(Hs & Hn & _)]]; rewrite Hs, Hn; cbn;
    split; try reflexivity; intros; discriminate.
Qed.

(** X29. Of the rows the enrichment loop writes, the matching stage
    reads only the sales: a pending listing is written with the
    sub-status PENDING SALE and a delisted rental with DELISTED FOR
    RENT, and the [flag_info] filter of the matching query, which
    lists PENDING_SALE and DELISTED_FOR_RENT, is true of neither. *)
Theorem matching_reads_only_written_sales env api bnz_pk etl_nr ts result_ggl groups g r :
  enrichment_loop env api bnz_pk etl_nr ts result_ggl = inr groups ->
  In g groups -> In r g ->
  written_kind r /\
  (flag_info r = true <-> Prcl.prop_acty_status_cd r = Some "SALE").
Proof.
  intros H Hg Hr. destruct (enrichment_loop_groups _ _ _ _ _ _ _ H) as (Hlen & Hgroups).
  apply In_nth_error in Hg as [i Hi].
  assert (Hlt : (i < length result_ggl)%nat).
  { rewrite <- Hlen. apply nth_error_Some. congruence. }
  destruct (nth_error result_ggl i) as [row|] eqn:Hrow;
    [|apply nth_error_None in Hrow; lia].
  destruct (Hgroups i g row Hi Hrow) as (_ & Hk).
  destruct (Hk r Hr) as (_ & _ & Hkind).
  split; [exact Hkind|now apply flag_info_of_kind].
Qed.

End ParcelTable.

Lemma rows_for_property_rows_witness :
  exists rows sale rental,
    rows_for_property sample_env sample_api 11 3 (now sample_env) sample_property = inr rows /\
    map Prcl.prop_acty_sub_status_cd rows = [Some "SOLD"; Some "DELISTED FOR RENT"] /\
    rows = (sale ++ rental)%list /\
    (length sale <= 1)%nat /\ (length rental <= 1)%nat /\
    (forall r, In r rental -> Prcl.prop_acty_status_cd r = Some "RENTAL").
Proof.
  destruct (rows_for_property sample_env sample_api 11 3 (now sample_env) sample_property)
    as [f|rows] eqn:E; [discriminate E|].
  destruct (rows_for_property_rows _ _ _ _ _ _ _ E)
    as ((sale & rental & Hrows & Hs & Hr & _ & Hrental) & _).
  exists rows, sale, rental. split; [reflexivity|].
  split; [revert E; vm_compute; intros [= <-]; reflexivity|].
  split; [exact Hrows|]. split; [exact Hs|]. split; [exact Hr|].
  intros r Hin. now destruct (Hrental r Hin).
Defined.

Lemma enrichment_rows_share_the_key_witness :
  exists groups,
    enrichment_loop sample_env sample_api 10 3 (now sample_env) [sample_lookup] = inr groups /\
    map (map Prcl.brnz_prcl_prop_sales_dtl_sk) groups = [[11; 11]] /\
    length groups = 1%nat.
Proof.
  eexists. split; [vm_compute; reflexivity|]. split; [reflexivity|].
  apply (enrichment_rows_share_the_key sample_env sample_api 10 3 (now sample_env)
           [sample_lookup]).
  vm_compute. reflexivity.
Defined.

Lemma matching_reads_only_written_sales_witness :
  map flag_info sample_parcels = [true; false] /\
  forall r, In r sample_parcels ->
    flag_info r = true <-> Prcl.prop_acty_status_cd r = Some "SALE".
Proof.
  split; [reflexivity|]. intros r Hr.
  destruct (enrichment_loop sample_env sample_api 10 3 (now sample_env) [sample_lookup])
    as [f|groups] eqn:E; [discriminate E|].
  assert (Hg : In sample_parcels groups).
  { revert E. vm_compute. intros [= <-]. now left. }
  exact (proj2 (matching_reads_only_written_sales _ _ _ _ _ _ _ _ _ E Hg Hr)).
Defined.

Section Matching.

Lemma matching_join_matched slv_wm brnz_wm parcels investors b s :
  In (b, Some s) (matching_join slv_wm brnz_wm parcels investors) ->
  In b (flagged_parcels (fst brnz_wm) (snd brnz_wm) parcels) /\
  In s (active_profiles (fst slv_wm) (snd slv_wm) investors) /\
  join_on b s = true.
Proof.
  unfold matching_join. intros H. apply in_flat_map in H as (b' & Hb & H).
  destruct (List.filter (join_on b') _) as [|x matched] eqn:E.
  - destruct H as [[=]|[]].
  - apply in_map_iff in H as (s' & [= <- <-] & Hs).
    rewrite <- E in Hs. apply filter_In in Hs as [Hs Hj]. auto.
Qed.

Lemma floor_div10_times10_mod ty x : Sql.floor_div10_times10 ty x mod 10 = 0.
Proof. destruct ty; simpl; apply Z.mod_mul; lia. Qed.

Lemma eq_num_true x v : eq_num x v = true -> x = Some v.
Proof. destruct x as [a|]; simpl; [|discriminate]. intros H. apply Z.eqb_eq in H. now subst. Qed.

(** X30. What the matching query can pair with a profile the investor
    stage wrote. The investor bought at least two properties in the
    trailing twelve months; the parcel passes the [flag_info] filter,
    its square footage equals the investor's bucket, a multiple of
    ten, it was built in or after the investor's decade bucket, and
    its ZIP code is one in which the investor bought. A parcel whose
    square footage is not a multiple of ten is paired with no such
    profile. *)
Theorem matched_parcel_shape yr_ty sqft_ty today d g slv_wm brnz_wm parcels investors b s :
  In (b, Some s) (matching_join slv_wm brnz_wm parcels investors) ->
  In g (aggregation_query yr_ty sqft_ty today d) ->
  Inv.investor_profile s = profile_of g ->
  Inv.active_flg s = negb (Agg.active_flag g =? 0) ->
  2 <= Agg.num_properties g /\
  flag_info b = true /\
  (exists sqft, Prcl.prop_attr_sqft_nr b = Some sqft /\
                sqft = Agg.min_sqft g /\ sqft mod 10 = 0) /\
  (exists yr, Prcl.prop_yr_blt_nr b = Some yr /\
              Agg.min_years g <= yr /\ Agg.min_years g mod 10 = 0) /\
  (exists zip r,
     Prcl.prop_zip_cd b = Some zip /\
     In r (group_rows (Agg.investor_company_nm_txt g) (aggregation_input today d)) /\
     Brnz.prop_zip_cd r = Some zip).
Proof.
  intros Hin Hg Hp Hf.
  apply matching_join_matched in Hin as (Hb & Hs & Hj).
  apply filter_In in Hb as [_ Hflag].
  apply filter_In in Hs as [_ Hact].
  apply andb_true_iff in Hact as [Hact _]. apply andb_true_iff in Hact as [Hact _].
  unfold join_on in Hj. rewrite Hp in Hj. cbn [profile_of Inv.min_prop_attr_br_cnt
    Inv.min_prop_attr_bth_cnt Inv.min_sqft Inv.min_year Inv.list_zips] in Hj.
  apply andb_true_iff in Hj as [Hj Hzip]. apply andb_true_iff in Hj as [Hj Hyr].
  apply andb_true_iff in Hj as [_ Hsqft].
  apply aggregation_query_In in Hg as (name & Hname & ->).
  cbn [aggregate_group Agg.investor_company_nm_txt Agg.num_properties Agg.active_flag
       Agg.min_years Agg.min_sqft Agg.list_zips] in *.
  set (rows := group_rows name (aggregation_input today d)) in *.
  split.
  { rewrite Hf in Hact. unfold active_flag_window, grouped in Hact.
    rewrite (window_of_name _ _ _ (group_names_NoDup _) Hname) in Hact.
    cbn [map snd sum_Z] in Hact. fold rows in Hact.
    destruct (2 <=? count_rows rows) eqn:E; [apply Z.leb_le in E; exact E|discriminate]. }
  split; [exact Hflag|]. split.
  { apply eq_num_true in Hsqft. eexists. split; [exact Hsqft|].
    split; [reflexivity|apply floor_div10_times10_mod]. }
  split.
  { unfold ge_num in Hyr. destruct (Prcl.prop_yr_blt_nr b) as [yr|]; [|discriminate].
    exists yr. split; [reflexivity|]. split; [now apply Z.leb_le|].
    apply floor_div10_times10_mod. }
  unfold in_text in Hzip. destruct (Prcl.prop_zip_cd b) as [zip|]; [|discriminate].
  apply existsb_exists in Hzip as (z & Hz & Heq). apply String.eqb_eq in Heq. subst z.
  apply list_elem_of_In, elem_of_remove_dups, list_elem_of_omap in Hz as (r & Hr & Hrz).
  exists zip, r. split; [reflexivity|]. split; [now apply list_elem_of_In|exact Hrz].
Qed.

End Matching.

Lemma matched_parcel_shape_witness :
  exists b s,
    In (b, Some s)
       (matching_join (now sample_env, 1) (now sample_env, 3) sample_parcels
                      (slvr_int_inv_dtl seeded_db)) /\
    Inv.investor_company_nm_txt s = "Acme LLC" /\
    Prcl.prop_attr_sqft_nr b = Some 1450 /\
    2 <= Agg.num_properties acme_row /\
    flag_info b = true.
Proof.
  assert (Hg : In acme_row
            (aggregation_query Sql.IntegerCol Sql.IntegerCol (today sample_env) acme_db)).
  { apply aggregation_query_In. exists "Acme LLC". split; [|reflexivity].
    vm_compute. now left. }
  eexists _, _. split; [vm_compute; left; reflexivity|].
  split; [reflexivity|]. split; [reflexivity|].
  match goal with |- 2 <= _ /\ flag_info ?b = true =>
    assert (Hin : In (b, Some (inv_row_of sample_env 1 1 acme_row))
              (matching_join (now sample_env, 1) (now sample_env, 3) sample_parcels
                             (slvr_int_inv_dtl seeded_db)))
      by (vm_compute; left; reflexivity);
    destruct (matched_parcel_shape _ _ _ _ _ _ _ _ _ _ _ Hin Hg eq_refl eq_refl)
      as (H2 & Hflag & _)
  end.
  split; [exact H2|exact Hflag].
Defined.
